(** * Cost attribution and currency conversion of the CDAP/ADS comparison scripts

    A shallow embedding of the two scripts of the repository:

    - [20251111-cdap-ads-compare-1.9.1.22-v1.py] (called "v1" below), and
    - the older validation script (module [Legacy] below),

    followed by the properties of their cost-attribution and
    currency-normalisation code.

    Conventions of the embedding.

    - A Python [float] is a binary64 number: Rocq's primitive [float], whose
      product and quotient are the IEEE ones Python uses.
    - A dynamically typed amount (an argument, a database cell) is a [pyval]:
      [None], an [int], a [float] or a [str].  Text is ASCII.
    - The database is a [Store]: what [fetchone()] answers to each of the
      seven parameterised queries of the scripts, or the exception that
      [execute] raised.  Every query a function runs is recorded, in order,
      in a log, so that "without querying" and "at most once" can be stated.
    - A Python exception is an [exn]; code that may raise lives in the monad
      [M], and [try]/[except] is [try_except].
    - Rows are records with the columns of the SQL [SELECT] lists, in order;
      the key columns are text, [campaign_id] and [pn] may be [NULL].
    - The rows an engine is given are objects: each is told from the others
      by its place in the list, so that [row == group_rows[0]] is true of a
      row and itself and otherwise compares cells.
    - The two detail queries answer with [fetchall()]; their answers are the
      [DetailTables], and they are not recorded in the log.
    - The workbook [export_to_excel] builds is a pair of [worksheet]s, each
      the record of what was done to it: the rows appended, the ranges
      merged, the cells assigned and the cells given an alignment.

    Left out, as they have no content to verify: the reading of the
    configuration file, the opening and closing of the database sessions,
    the saving of the workbook, the logger and what is printed. *)

From Stdlib Require Import ZArith PrimFloat FloatOps SpecFloat Ascii String.
From stdpp Require Import gmap strings list.

Open Scope Z_scope.

(** A decimal literal such as [1.1] stands for the nearest binary64 number,
    as it does in Python. *)
#[local] Set Warnings "-inexact-float".

(** ** Python numbers *)

Module Py.

(** The exceptions the modelled code can meet. [DbError] stands for whatever
    the database driver raises from [execute]. *)
Inductive exn : Type :=
| ValueError
| TypeError
| OverflowError
| KeyError
| IndexError
| DbError.

Inductive result (A : Type) : Type :=
| Ok (a : A)
| Raise (e : exn).
Arguments Ok {A} a.
Arguments Raise {A} e.

(** A dynamically typed amount. *)
Inductive pyval : Type :=
| PNone
| PInt (z : Z)
| PFloat (f : float)
| PStr (s : string).

(** [nearest_ratio s n d]: the binary64 nearest to [n/d] (ties to even), with
    sign [s].  [SFdiv] divides the two integer mantissas exactly and rounds
    once. *)
Definition nearest_ratio (s : bool) (n d : positive) : float :=
  SF2Prim (SFdiv prec emax (S754_finite s n 0) (S754_finite false d 0)).

(** The binary64 nearest to an integer (ties to even; infinite when the
    integer is too large). *)
Definition float_of_Z (z : Z) : float :=
  SF2Prim (binary_normalize prec emax z 0 false).

(** [n / 2^k] rounded to the nearest integer, ties to even. *)
Definition round_half_even_div (n : Z) (k : positive) : Z :=
  let d := Z.pow_pos 2 k in
  let q := n / d in
  let r := n mod d in
  match 2 * r ?= d with
  | Lt => q
  | Gt => q + 1
  | Eq => if Z.even q then q else q + 1
  end.

(** [round(x, 2)] on a float.  CPython prints the exact binary value of [x]
    with two digits after the point, correctly rounded (ties to even), and
    reads the decimal back as the nearest float; infinities and NaN are left
    as they are, and so is every float that is an integer. *)
Definition round2 (x : float) : float :=
  match Prim2SF x with
  | S754_finite s m (Zneg k) =>
      match round_half_even_div (Zpos m * 100) k with
      | Zpos n => nearest_ratio s n 100
      | _ => if s then PrimFloat.neg_zero else PrimFloat.zero
      end
  | _ => x
  end.

(** *** Text *)

(** [str.isspace] on an ASCII character: the blanks [str.strip] removes. *)
Definition is_space (c : ascii) : bool :=
  let n := nat_of_ascii c in
  ((9 <=? n)%nat && (n <=? 13)%nat) || ((28 <=? n)%nat && (n <=? 32)%nat).

(** The blanks [float] skips at both ends of ASCII text: tab, line feed,
    vertical tab, form feed, carriage return and space.  The separators
    0x1C to 0x1F are blanks for [str.strip] and not for [float]. *)
Definition is_float_space (c : ascii) : bool :=
  let n := nat_of_ascii c in
  ((9 <=? n)%nat && (n <=? 13)%nat) || (n =? 32)%nat.

Fixpoint lstrip_by (blank : ascii -> bool) (s : list ascii) : list ascii :=
  match s with
  | c :: s' => if blank c then lstrip_by blank s' else s
  | [] => []
  end.

Definition strip_by (blank : ascii -> bool) (s : string) : string :=
  string_of_list_ascii
    (rev (lstrip_by blank (rev (lstrip_by blank (list_ascii_of_string s))))).

(** [s.strip()], on ASCII text. *)
Definition strip (s : string) : string := strip_by is_space s.

(** [s.isascii()]: every character is below 128.  [strip] and [upper] are
    those of Python on such text. *)
Definition isascii (s : string) : bool :=
  forallb (fun c => (nat_of_ascii c <? 128)%nat) (list_ascii_of_string s).

Definition upper_ascii (c : ascii) : ascii :=
  let n := nat_of_ascii c in
  if ((97 <=? n)%nat && (n <=? 122)%nat)%bool then ascii_of_nat (n - 32) else c.

Definition lower_ascii (c : ascii) : ascii :=
  let n := nat_of_ascii c in
  if ((65 <=? n)%nat && (n <=? 90)%nat)%bool then ascii_of_nat (n + 32) else c.

(** [s.upper()], on ASCII text: characters from 128 on are left as they
    are, which is not what Python does with all of them. *)
Definition upper (s : string) : string :=
  string_of_list_ascii (map upper_ascii (list_ascii_of_string s)).

(** *** [float(...)] *)

Definition is_digit (c : ascii) : bool :=
  let n := nat_of_ascii c in (48 <=? n)%nat && (n <=? 57)%nat.

Definition digit_value (c : ascii) : Z := Z.of_nat (nat_of_ascii c) - 48.

(** Underscores may only stand between two digits; they are dropped. *)
Fixpoint drop_underscores (prev : ascii) (s : list ascii) : option (list ascii) :=
  match s with
  | [] => if Ascii.eqb prev "_" then None else Some []
  | c :: s' =>
      if Ascii.eqb c "_" then
        if is_digit prev then drop_underscores c s' else None
      else if Ascii.eqb prev "_" && negb (is_digit c) then None
      else option_map (cons c) (drop_underscores c s')
  end.

(** Reads a run of digits: the number read so far, how many digits were read,
    and what follows. *)
Fixpoint span_digits (s : list ascii) (acc count : Z) : Z * Z * list ascii :=
  match s with
  | c :: s' =>
      if is_digit c then span_digits s' (10 * acc + digit_value c) (count + 1)
      else (acc, count, s)
  | [] => (acc, count, [])
  end.

(** [digits [. digits] [(e|E) [sign] digits]], with a digit before the
    exponent: the decimal mantissa and the power of ten. *)
Definition parse_decimal (s : list ascii) : option (Z * Z) :=
  let '(m1, n1, r1) := span_digits s 0 0 in
  let '(m, n2, r2) :=
    match r1 with
    | "."%char :: r => span_digits r m1 0
    | _ => (m1, 0, r1)
    end in
  if n1 + n2 =? 0 then None
  else
    match r2 with
    | [] => Some (m, - n2)
    | c :: r3 =>
        if Ascii.eqb (lower_ascii c) "e" then
          let '(neg, r4) :=
            match r3 with
            | "-"%char :: r => (true, r)
            | "+"%char :: r => (false, r)
            | _ => (false, r3)
            end in
          let '(ev, ne, r5) := span_digits r4 0 0 in
          match r5 with
          | [] => if ne =? 0 then None
                  else Some (m, (if neg then - ev else ev) - n2)
          | _ :: _ => None
          end
        else None
    end.

(** The float nearest to [m * 10^e]. *)
Definition decimal_to_float (neg : bool) (m e : Z) : float :=
  match m with
  | Zpos p =>
      match e with
      | Zneg k => nearest_ratio neg p (Pos.pow 10 k)
      | _ => float_of_Z ((if neg then - m else m) * 10 ^ e)
      end
  | _ => if neg then PrimFloat.neg_zero else PrimFloat.zero
  end.

Definition float_of_str (s : string) : result float :=
  match drop_underscores "000"%char
          (list_ascii_of_string (strip_by is_float_space s)) with
  | None => Raise ValueError
  | Some t =>
      let '(neg, body) :=
        match t with
        | "-"%char :: r => (true, r)
        | "+"%char :: r => (false, r)
        | _ => (false, t)
        end in
      match parse_decimal body with
      | Some (m, e) => Ok (decimal_to_float neg m e)
      | None =>
          let word := string_of_list_ascii (map lower_ascii body) in
          if (word =? "inf")%string || (word =? "infinity")%string then
            Ok (if neg then PrimFloat.neg_infinity else PrimFloat.infinity)
          else if (word =? "nan")%string then Ok PrimFloat.nan
          else Raise ValueError
      end
  end.

(** [float(v)]: [None] is a [TypeError], a string that does not spell a
    number a [ValueError], an [int] beyond the float range an
    [OverflowError]. *)
Definition float_of (v : pyval) : result float :=
  match v with
  | PNone => Raise TypeError
  | PInt z =>
      let f := float_of_Z z in
      if is_infinity f then Raise OverflowError else Ok f
  | PFloat f => Ok f
  | PStr s => float_of_str s
  end.

(** [v is None] *)
Definition is_none (v : pyval) : bool :=
  match v with
  | PNone => true
  | _ => false
  end.

(** [x != 0] and the truth value of a float. *)
Definition nonzero (x : float) : bool := negb (PrimFloat.eqb x PrimFloat.zero).

(** The truth value of an optional text ([None] and [''] are false). *)
Definition truthy (s : option string) : bool :=
  match s with
  | Some t => negb (t =? "")%string
  | None => false
  end.

(** [x == y] on amounts: numbers compare by value, an [int] with a [float]
    exactly. *)
Definition Z_eq_float (z : Z) (f : float) : bool :=
  match Prim2SF f with
  | S754_zero _ => z =? 0
  | S754_finite s m e =>
      let v := if s then Zneg m else Zpos m in
      match e with
      | Zneg k => z * Z.pow_pos 2 k =? v
      | _ => z =? v * 2 ^ e
      end
  | _ => false
  end.

Definition eqb (a b : pyval) : bool :=
  match a, b with
  | PNone, PNone => true
  | PInt x, PInt y => x =? y
  | PFloat x, PFloat y => PrimFloat.eqb x y
  | PInt x, PFloat y | PFloat y, PInt x => Z_eq_float x y
  | PStr s, PStr t => (s =? t)%string
  | _, _ => false
  end.

End Py.

Import Py.

(** ** The backing store, the query log and the monad of the scripts *)

(** The parameterised queries of the scripts, each with the values bound to
    its parameters. *)
Inductive query : Type :=
| SumCostByCampaign (dates campaign_id : string)
| SumCostByCampaignChannel (dates campaign_id channel : string)
| SumCostByChannel (dates channel : string)
| SelectProject (pn : string)
| SelectRate (dates base symbols : string)
| SelectPnByChannel (channel_code : string)
| SelectCurrency (pn : string).

(** What [session.execute(sql, params).fetchone()] gives for each query:
    [Raise e] when it raises, [Ok None] when no row comes back, [Ok (Some c)]
    for a row, of which [c] is the one cell the scripts read:
    - the three [SUM(cost)] queries on [adjust_cost_record]: the sum;
    - [project] (enabled rows, latest first): [extra_rate] (column 1);
    - [rate] (latest first): [rate] (column 0);
    - [project] through [sub_channel] and [channel]: [pn] (column 0);
    - [project_currency_config] (latest first): [currency] (column 1). *)
Record Store : Type := {
  sum_cost_by_campaign : string -> string -> result (option pyval);
  sum_cost_by_campaign_channel : string -> string -> string -> result (option pyval);
  sum_cost_by_channel : string -> string -> result (option pyval);
  select_project : string -> result (option pyval);
  select_rate : string -> string -> string -> result (option pyval);
  select_pn_by_channel : string -> result (option (option string));
  select_currency : string -> result (option (option string))
}.

(** A computation that may raise, together with the queries it has run. *)
Definition M (A : Type) : Type := (result A * list query)%type.

Definition ret {A : Type} (a : A) : M A := (Ok a, []).

Definition raise {A : Type} (e : exn) : M A := (Raise e, []).

Definition bind {A B : Type} (m : M A) (k : A -> M B) : M B :=
  match m with
  | (Ok a, log) => let '(r, log') := k a in (r, log ++ log')
  | (Raise e, log) => (Raise e, log)
  end.

Notation "'do' x <- m ;; k" := (bind m (fun x => k))
  (at level 10, x name, m at level 99, k at level 200, only parsing).

(** [try: m except (e1, e2, ...): h], for the exceptions [catches] accepts. *)
Definition try_except {A : Type} (catches : exn -> bool) (m : M A) (h : M A) : M A :=
  match m with
  | (Ok a, log) => (Ok a, log)
  | (Raise e, log) =>
      if catches e then let '(r, log') := h in (r, log ++ log')
      else (Raise e, log)
  end.

(** [except Exception] *)
Definition Exception (e : exn) : bool := true.

(** [except (ValueError, TypeError)] *)
Definition ValueError_or_TypeError (e : exn) : bool :=
  match e with
  | ValueError | TypeError => true
  | _ => false
  end.

Definition lift {A : Type} (r : result A) : M A := (r, []).

(** Running a query: its answer, and the query in the log. *)
Definition execute {A : Type} (q : query) (answer : result (option A)) : M (option A) :=
  (answer, [q]).

(** The value and the log of a computation. *)
Definition value {A : Type} (m : M A) : result A := fst m.
Definition queries {A : Type} (m : M A) : list query := snd m.

(** ** The dictionaries of the scripts *)

(** The result of a conversion: keys [cost_usd], [currency], [rate],
    [extra_rate]. *)
Record conversion : Type := {
  cost_usd : float;
  currency : option string;
  rate : option float;
  extra_rate : option float
}.

(** The cost of a campaign: the keys of a conversion and [original_cost]. *)
Record cost_info : Type := {
  ci_cost_usd : float;
  original_cost : float;
  ci_currency : option string;
  ci_rate : option float;
  ci_extra_rate : option float
}.

(** [result.update(conversion_result)] *)
Definition update (result : cost_info) (c : conversion) : cost_info :=
  {| ci_cost_usd := cost_usd c;
     original_cost := original_cost result;
     ci_currency := currency c;
     ci_rate := rate c;
     ci_extra_rate := extra_rate c |}.

(** The dictionary [query_project_entity] builds; only [extra_rate] is read. *)
Record project_entity : Type := { pe_extra_rate : float }.

(** [cell if cell is not None else 0.0], then to be passed to [float]. *)
Definition or_zero (cell : pyval) : pyval :=
  match cell with
  | PNone => PFloat 0
  | _ => cell
  end.

(** ** The v1 script *)

Section V1.

Variable db : Store.

(** [query_campaign_cost]: [session.close()] in the [finally] clause is not
    modelled (opening and closing a session do not fail). *)
Definition query_campaign_cost (dates : string) (campaign_id : option string) : M float :=
  match campaign_id with
  | None => ret 0%float
  | Some c =>
      if negb (truthy campaign_id) || (strip c =? "")%string then ret 0%float
      else
        try_except Exception
          (do result <- execute (SumCostByCampaign dates c) (sum_cost_by_campaign db dates c) ;;
           let cost := match result with
                       | Some cell => or_zero cell
                       | None => PFloat 0
                       end in
           lift (float_of cost))
          (ret 0%float)
  end.

Definition query_campaign_cost_by_channel
    (dates : string) (campaign_id : option string) (channel : string) : M float :=
  match campaign_id with
  | None => ret 0%float
  | Some c =>
      if negb (truthy campaign_id) || (strip c =? "")%string then ret 0%float
      else
        try_except Exception
          (do result <- execute (SumCostByCampaignChannel dates c channel)
                             (sum_cost_by_campaign_channel db dates c channel) ;;
           let cost := match result with
                       | Some cell => or_zero cell
                       | None => PFloat 0
                       end in
           lift (float_of cost))
          (ret 0%float)
  end.

Definition query_channel_total_cost (dates channel : string) : M float :=
  if negb (truthy (Some channel)) || (strip channel =? "")%string then ret 0%float
  else
    try_except Exception
      (do result <- execute (SumCostByChannel dates channel) (sum_cost_by_channel db dates channel) ;;
       let cost := match result with
                   | Some cell => or_zero cell
                   | None => PFloat 0
                   end in
       lift (float_of cost))
      (ret 0%float).

Definition query_project_entity (pn : string) : M (option project_entity) :=
  try_except Exception
    (do result <- execute (SelectProject pn) (select_project db pn) ;;
     match result with
     | Some cell =>
         do extra <- match cell with
                  | PNone => ret 1%float
                  | _ => lift (float_of cell)
                  end ;;
         ret (Some {| pe_extra_rate := extra |})
     | None => ret None
     end)
    (ret None).

Definition query_rate_entity (dates base symbols : string) : M (option float) :=
  try_except Exception
    (do result <- execute (SelectRate dates base symbols) (select_rate db dates base symbols) ;;
     match result with
     | Some PNone | None => ret None
     | Some cell => do r <- lift (float_of cell) ;; ret (Some r)
     end)
    (ret None).

Definition get_pn_by_channel (channel_code : string) : M (option string) :=
  try_except Exception
    (do result <- execute (SelectPnByChannel channel_code) (select_pn_by_channel db channel_code) ;;
     match result with
     | Some pn => ret pn
     | None => ret None
     end)
    (ret None).

Definition get_currency_by_pn (pn : string) : M (option string) :=
  try_except Exception
    (do result <- execute (SelectCurrency pn) (select_currency db pn) ;;
     match result with
     | Some currency => ret currency
     | None => ret None
     end)
    (ret None).

(** The [extra_rate] that [currency_to_usd_with_details] takes from the
    project entity. *)
Definition extra_rate_of (project_entity : option project_entity) : float :=
  match project_entity with
  | Some pe => pe_extra_rate pe
  | None => 1%float
  end.

(** The rate after the fallback: 78.5 for INR when the table has none. *)
Definition rate_or_default (currency : string) (rate : option float) : option float :=
  match rate with
  | Some r => Some r
  | None => if (upper currency =? "INR")%string then Some 78.5%float else None
  end.

Definition currency_to_usd_with_details
    (dates : string) (source_money : pyval) (pn : option string) : M conversion :=
  let result := {| cost_usd := 0; currency := None; rate := None; extra_rate := None |} in
  match is_none source_money, pn with
  | true, _ | _, None => ret result
  | false, Some pn =>
      (* 1. the project's extra rate *)
      do project_entity <- query_project_entity pn ;;
      let extra_rate := extra_rate_of project_entity in
      let result := {| cost_usd := 0; currency := None; rate := None;
                       extra_rate := Some extra_rate |} in
      (* 2. amount * extra rate *)
      match float_of source_money with
      | Raise e => if ValueError_or_TypeError e then ret result else raise e
      | Ok source_money_float =>
          let extra_money := (source_money_float * extra_rate)%float in
          (* 3. the project's currency *)
          do currency <- get_currency_by_pn pn ;;
          match currency with
          | Some cur =>
              if negb (truthy currency) then ret result
              else
                let result := {| cost_usd := 0; currency := Some cur; rate := None;
                                 extra_rate := Some extra_rate |} in
                (* 4. the rate *)
                do rate <- query_rate_entity dates "USD" cur ;;
                match rate_or_default cur rate with
                | None => ret result
                | Some rate =>
                    let result := {| cost_usd := 0; currency := Some cur;
                                     rate := Some rate;
                                     extra_rate := Some extra_rate |} in
                    (* 5. the amount in USD *)
                    if nonzero rate then
                      ret {| cost_usd := round2 (extra_money / rate);
                             currency := Some cur; rate := Some rate;
                             extra_rate := Some extra_rate |}
                    else ret result
                end
          | None => ret result
          end
      end
  end.

Definition currency_to_usd (dates : string) (source_money : pyval) (pn : option string) : M float :=
  do result <- currency_to_usd_with_details dates source_money pn ;;
  ret (cost_usd result).

Definition empty_cost_info : cost_info :=
  {| ci_cost_usd := 0; original_cost := 0; ci_currency := None;
     ci_rate := None; ci_extra_rate := None |}.

Definition set_original_cost (cost_amount : float) (result : cost_info) : cost_info :=
  {| ci_cost_usd := ci_cost_usd result;
     original_cost := cost_amount;
     ci_currency := ci_currency result;
     ci_rate := ci_rate result;
     ci_extra_rate := ci_extra_rate result |}.

(** [calculate_campaign_cost_with_details]: the [except] clause returns the
    dictionary as it stands when the exception arrives. *)
Definition calculate_campaign_cost_with_details
    (dates : string) (campaign_id : option string) (pn : option string) : M cost_info :=
  let result := empty_cost_info in
  try_except Exception
    (do cost_amount <- query_campaign_cost dates campaign_id ;;
     let result := set_original_cost cost_amount result in
     if PrimFloat.eqb cost_amount 0 then ret result
     else
       try_except Exception
         (do conversion_result <- currency_to_usd_with_details dates (PFloat cost_amount) pn ;;
          ret (update result conversion_result))
         (ret result))
    (ret result).

Definition calculate_campaign_cost_with_channel_details
    (dates : string) (campaign_id : option string) (channel : string)
    (pn : option string) : M cost_info :=
  let result := empty_cost_info in
  try_except Exception
    (do cost_amount <- query_campaign_cost_by_channel dates campaign_id channel ;;
     let result := set_original_cost cost_amount result in
     if PrimFloat.eqb cost_amount 0 then ret result
     else if negb (truthy pn) then ret result
     else
       try_except Exception
         (do conversion_result <- currency_to_usd_with_details dates (PFloat cost_amount) pn ;;
          ret (update result conversion_result))
         (ret result))
    (ret result).

Definition calculate_campaign_cost_usd
    (dates : string) (campaign_id : option string) (pn : option string) : M float :=
  do result <- calculate_campaign_cost_with_details dates campaign_id pn ;;
  ret (ci_cost_usd result).

End V1.

(** ** Detail rows *)

(** The first seven columns of a detail row, [row[:7]]:
    [table_name, dates, bdates, channel, source, campaign_id, active]. *)
Record row_head : Type := {
  table_name : string;
  dates : string;
  bdates : string;
  channel : string;
  source : string;
  campaign_id : option string;
  active : Z
}.

(** A row of [query_cdap_base_detail_data]: the head, then
    [history_active_offset_days] (7), [day_recharge] (8), [threshold_value] (9). *)
Record cdap_row : Type := {
  cdap_head : row_head;
  cdap_offset_days : Z;
  cdap_day_recharge : pyval;
  cdap_threshold_value : Z
}.

(** A row of [query_ads_backend_detail_data] once [id] is dropped: the head,
    then [history_active_offset_days] (7), [day_recharge] (8), [pn] (9),
    [threshold_value] (10). *)
Record ads_row : Type := {
  ads_head : row_head;
  ads_offset_days : Z;
  ads_day_recharge : pyval;
  ads_pn : option string;
  ads_threshold_value : Z
}.

(** A processed row: the head and six amounts (columns 7 to 12). *)
Record out_row : Type := {
  out_head : row_head;
  col7 : float;
  col8 : float;
  col9 : float;
  col10 : float;
  col11 : float;
  col12 : float
}.

(** [f"{x}"] of a text column that may be [NULL]. *)
Definition str_of (s : option string) : string :=
  match s with
  | Some t => t
  | None => "None"
  end.

(** [f"{dates}_{channel}_{campaign_id}"] *)
Definition group_key (h : row_head) : string :=
  (dates h ++ "_" ++ channel h ++ "_" ++ str_of (campaign_id h))%string.

(** *** Rows as objects, and their equality ([row == group_rows[0]])

    Rows are compared as tuples: cell by cell, and each pair of cells by
    identity first.  So a row equals itself, even with a NaN among its
    cells; and two different rows are equal when their cells are, a NaN
    being equal to no cell of another row.

    A row of [results] is therefore an object: its cells, and its place in
    [results], which tells it from every other row of the list (the rows a
    query returns are all different objects, with cells of their own). *)

Record object (R : Type) : Type := {
  place : nat;
  this : R
}.
Arguments place {R} _.
Arguments this {R} _.

(** The rows of [results], each with its place. *)
Definition objects {R : Type} (results : list R) : list (object R) :=
  imap (fun i row => {| place := i; this := row |}) results.

Definition opt_eqb (a b : option string) : bool :=
  match a, b with
  | Some x, Some y => (x =? y)%string
  | None, None => true
  | _, _ => false
  end.


Definition head_eqb (a b : row_head) : bool :=
  (table_name a =? table_name b)%string
  && (dates a =? dates b)%string
  && (bdates a =? bdates b)%string
  && (channel a =? channel b)%string
  && (source a =? source b)%string
  && opt_eqb (campaign_id a) (campaign_id b)
  && (active a =? active b).

Definition cdap_row_eqb (a b : cdap_row) : bool :=
  head_eqb (cdap_head a) (cdap_head b)
  && (cdap_offset_days a =? cdap_offset_days b)
  && Py.eqb (cdap_day_recharge a) (cdap_day_recharge b)
  && (cdap_threshold_value a =? cdap_threshold_value b).

Definition ads_row_eqb (a b : ads_row) : bool :=
  head_eqb (ads_head a) (ads_head b)
  && (ads_offset_days a =? ads_offset_days b)
  && Py.eqb (ads_day_recharge a) (ads_day_recharge b)
  && opt_eqb (ads_pn a) (ads_pn b)
  && (ads_threshold_value a =? ads_threshold_value b).

(** [a == b] on two rows of [results]: one and the same row, or two rows
    with equal cells ([cells_eqb]). *)
Definition same_row {R : Type} (cells_eqb : R -> R -> bool) (a b : object R) : bool :=
  (place a =? place b)%nat || cells_eqb (this a) (this b).

(** *** The insertion-ordered dictionary [group_map] *)

Section GroupMap.

Context {R : Type}.

(** [if key not in group_map: group_map[key] = []], then
    [group_map[key].append(row)]. *)
Fixpoint group_append (key : string) (row : R) (group_map : list (string * list R))
  : list (string * list R) :=
  match group_map with
  | [] => [(key, [row])]
  | (k, rows) :: rest =>
      if (k =? key)%string then (k, rows ++ [row]) :: rest
      else (k, rows) :: group_append key row rest
  end.

Definition build_group_map (head_of : R -> row_head) (results : list R)
  : list (string * list R) :=
  fold_left (fun group_map row => group_append (group_key (head_of row)) row group_map)
            results [].

(** [group_map[key]] *)
Fixpoint group_rows_of (key : string) (group_map : list (string * list R))
  : result (list R) :=
  match group_map with
  | [] => Raise KeyError
  | (k, rows) :: rest => if (k =? key)%string then Ok rows else group_rows_of key rest
  end.

(** [group_rows[0]] *)
Definition first_row (group_rows : list R) : result R :=
  match group_rows with
  | base_row :: _ => Ok base_row
  | [] => Raise IndexError
  end.

(** The rows with a given key, in the order of the input: what a group is
    meant to be. *)
Definition rows_of_key (head_of : R -> row_head) (key : string) (rows : list R) : list R :=
  filter (fun row => group_key (head_of row) = key) rows.

(** What the grouping loop has built once it has read the rows [seen]: one
    entry per key met, holding the rows of that key. *)
Definition grouped (head_of : R -> row_head) (seen : list R)
    (group_map : list (string * list R)) : Prop :=
  NoDup (map fst group_map)
  /\ (forall key, key ∈ map fst group_map <-> rows_of_key head_of key seen <> [])
  /\ forall key, group_rows_of key group_map
                 = match rows_of_key head_of key seen with
                   | [] => Raise KeyError
                   | l => Ok l
                   end.

(** What a dictionary of group costs is meant to hold: under each key, the
    cost ([cost_of]) of the first row of the group of that key. *)
Definition costs_sound (cost_of : R -> cost_info -> Prop)
    (group_map : list (string * list R)) (costs : gmap string cost_info) : Prop :=
  forall key cost, costs !! key = Some cost ->
    exists group_rows base_row,
      (key, group_rows) ∈ group_map /\ first_row group_rows = Ok base_row
      /\ cost_of base_row cost.

End GroupMap.

(** The first row of [rows] that has the key [key], with its place: what
    [group_map[key][0]] is meant to be. *)
Definition first_of_key {R : Type} (head_of : R -> row_head) (key : string)
    (rows : list R) : option (object R) :=
  head (rows_of_key (fun row => head_of (this row)) key (objects rows)).

(** The cost queries qualified by channel that a log holds, each as
    [(dates, campaign_id, channel)]. *)
Definition group_cost_lookups (log : list query) : list (string * string * string) :=
  omap (fun q => match q with
                 | SumCostByCampaignChannel d c ch => Some (d, c, ch)
                 | _ => None
                 end) log.

(** A computation that runs no such query. *)
Definition quiet {A : Type} (m : M A) : Prop := group_cost_lookups (queries m) = [].

(** The key of the group such a query is run for. *)
Definition key_of_lookup (t : string * string * string) : string :=
  let '(d, c, ch) := t in (d ++ "_" ++ ch ++ "_" ++ c)%string.

(** [d[key]] on a dictionary with text keys. *)
Definition getitem {V : Type} (d : gmap string V) (key : string) : M V :=
  match d !! key with
  | Some v => ret v
  | None => raise KeyError
  end.

(** A [for] loop that threads a state. *)
Fixpoint for_each {A S : Type} (step : S -> A -> M S) (l : list A) (st : S) : M S :=
  match l with
  | [] => ret st
  | a :: l' => do st' <- step st a ;; for_each step l' st'
  end.

(** The cost shown on a row that is not the first of its group: zero, with
    the currency information of the group. *)
Definition zeroed (original_cost_info : cost_info) : cost_info :=
  {| ci_cost_usd := 0;
     original_cost := 0;
     ci_currency := ci_currency original_cost_info;
     ci_rate := ci_rate original_cost_info;
     ci_extra_rate := ci_extra_rate original_cost_info |}.

(** The cost information of a row, from that of its group. *)
Definition row_cost_info (is_first_record : bool) (group_cost : cost_info) : cost_info :=
  if is_first_record then group_cost else zeroed group_cost.

(** ** The attribution engines of the v1 script *)

Section Engines.

Variable db : Store.

(** [channel_pn_cache]: [if channel not in cache: cache[channel] = get_pn_by_channel(channel)]. *)
Definition cache_pn (channel_pn_cache : gmap string (option string)) (channel : string)
  : M (gmap string (option string)) :=
  match channel_pn_cache !! channel with
  | Some _ => ret channel_pn_cache
  | None =>
      do pn <- get_pn_by_channel db channel ;;
      ret (<[channel := pn]> channel_pn_cache)
  end.

(** [channel_total_cost_cache]: the total cost of a channel, converted with
    the [pn] at hand, computed when the channel is met first. *)
Definition cache_channel_total_cost
    (channel_total_cost_cache : gmap string cost_info)
    (dates channel : string) (pn : option string) : M (gmap string cost_info) :=
  match channel_total_cost_cache !! channel with
  | Some _ => ret channel_total_cost_cache
  | None =>
      do channel_total_cost <- query_channel_total_cost db dates channel ;;
      if PrimFloat.ltb 0 channel_total_cost && truthy pn then
        do info <- currency_to_usd_with_details db dates (PFloat channel_total_cost) pn ;;
        ret (<[channel := {| ci_cost_usd := cost_usd info;
                             original_cost := channel_total_cost;
                             ci_currency := currency info;
                             ci_rate := rate info;
                             ci_extra_rate := extra_rate info |}]>
               channel_total_cost_cache)
      else ret (<[channel := empty_cost_info]> channel_total_cost_cache)
  end.

(** [day_recharge_raw = row[8] if row[8] is not None else 0.0], then
    [float(day_recharge_raw)], 0.0 on [ValueError] and [TypeError]. *)
Definition day_recharge_of (cell : pyval) : M float :=
  try_except ValueError_or_TypeError (lift (float_of (or_zero cell))) (ret 0%float).

(** The conversion of the recharge of a row, given its [dates] and the [pn]
    that applies to it. *)
Definition recharge_conversion_of
    (dates : string) (day_recharge : float) (pn : option string) : M conversion :=
  if PrimFloat.ltb 0 day_recharge && truthy pn then
    currency_to_usd_with_details db dates (PFloat day_recharge) pn
  else
    match pn with
    | Some p =>
        if truthy pn then
          do currency <- get_currency_by_pn db p ;;
          do project_entity <- query_project_entity db p ;;
          let extra_rate := extra_rate_of project_entity in
          do rate <- match currency with
                     | Some cur =>
                         if truthy currency then query_rate_entity db dates "USD" cur
                         else ret None
                     | None => ret None
                     end ;;
          ret {| cost_usd := 0; currency := currency; rate := rate;
                 extra_rate := Some extra_rate |}
        else ret {| cost_usd := 0; currency := None; rate := None; extra_rate := None |}
    | None => ret {| cost_usd := 0; currency := None; rate := None; extra_rate := None |}
    end.

(** *** [process_cdap_data_with_cost] *)

Record cdap_state : Type := {
  group_costs : gmap string cost_info;
  channel_pn_cache : gmap string (option string);
  channel_total_cost_cache : gmap string cost_info
}.

(** The body of the loop over [group_map.items()]. *)
Definition cdap_group_step (st : cdap_state) (item : string * list (object cdap_row))
  : M cdap_state :=
  let '(key, group_rows) := item in
  do base_row <- lift (first_row group_rows) ;;
  let campaign_id := campaign_id (cdap_head (this base_row)) in
  let dates := dates (cdap_head (this base_row)) in
  let channel := channel (cdap_head (this base_row)) in
  do channel_pn_cache <- cache_pn (channel_pn_cache st) channel ;;
  do pn <- getitem channel_pn_cache channel ;;
  do channel_total_cost_cache <-
    cache_channel_total_cost (channel_total_cost_cache st) dates channel pn ;;
  do cost_info <- calculate_campaign_cost_with_channel_details db dates campaign_id channel pn ;;
  ret {| group_costs := <[key := cost_info]> (group_costs st);
         channel_pn_cache := channel_pn_cache;
         channel_total_cost_cache := channel_total_cost_cache |}.

(** The body of the loop over the rows; the state carries the caches and
    [processed_results]. *)
Definition cdap_row_step (group_map : list (string * list (object cdap_row)))
    (acc : cdap_state * list out_row) (row : object cdap_row)
  : M (cdap_state * list out_row) :=
  let '(st, processed_results) := acc in
  let dates := dates (cdap_head (this row)) in
  let channel := channel (cdap_head (this row)) in
  let key := group_key (cdap_head (this row)) in
  do group_rows <- lift (group_rows_of key group_map) ;;
  do base_row <- lift (first_row group_rows) ;;
  let is_first_record := same_row cdap_row_eqb row base_row in
  do group_cost <- getitem (group_costs st) key ;;
  let cost_info := row_cost_info is_first_record group_cost in
  do channel_pn_cache <- cache_pn (channel_pn_cache st) channel ;;
  do pn <- getitem channel_pn_cache channel ;;
  do day_recharge <- day_recharge_of (cdap_day_recharge (this row)) ;;
  do recharge_conversion <- recharge_conversion_of dates day_recharge pn ;;
  do channel_total_info <- getitem (channel_total_cost_cache st) channel ;;
  ret ({| group_costs := group_costs st;
          channel_pn_cache := channel_pn_cache;
          channel_total_cost_cache := channel_total_cost_cache st |},
       processed_results ++
       [{| out_head := cdap_head (this row);
           col7 := ci_cost_usd channel_total_info;
           col8 := original_cost channel_total_info;
           col9 := ci_cost_usd cost_info;
           col10 := original_cost cost_info;
           col11 := cost_usd recharge_conversion;
           col12 := day_recharge |}]).

Definition process_cdap_data_with_cost (results : list cdap_row) : M (list out_row) :=
  match results with
  | [] => ret []
  | _ :: _ =>
      let rows := objects results in
      let group_map := build_group_map (fun row => cdap_head (this row)) rows in
      do st <- for_each cdap_group_step group_map
                 {| group_costs := ∅; channel_pn_cache := ∅;
                    channel_total_cost_cache := ∅ |} ;;
      do final <- for_each (cdap_row_step group_map) rows (st, []) ;;
      ret (snd final)
  end.

(** *** [process_ads_data_with_cost] *)

Record ads_state : Type := {
  group_costs_without_channel : gmap string cost_info;
  group_costs_with_channel : gmap string cost_info;
  ads_channel_total_cost_cache : gmap string cost_info
}.

Definition ads_group_step (st : ads_state) (item : string * list (object ads_row))
  : M ads_state :=
  let '(key, group_rows) := item in
  do base_row <- lift (first_row group_rows) ;;
  let campaign_id := campaign_id (ads_head (this base_row)) in
  let dates := dates (ads_head (this base_row)) in
  let pn := ads_pn (this base_row) in
  let channel := channel (ads_head (this base_row)) in
  do channel_total_cost_cache <-
    cache_channel_total_cost (ads_channel_total_cost_cache st) dates channel pn ;;
  do cost_info_without_channel <-
    calculate_campaign_cost_with_details db dates campaign_id pn ;;
  do cost_info_with_channel <-
    calculate_campaign_cost_with_channel_details db dates campaign_id channel pn ;;
  ret {| group_costs_without_channel :=
           <[key := cost_info_without_channel]> (group_costs_without_channel st);
         group_costs_with_channel :=
           <[key := cost_info_with_channel]> (group_costs_with_channel st);
         ads_channel_total_cost_cache := channel_total_cost_cache |}.

Definition ads_row_step (group_map : list (string * list (object ads_row)))
    (st : ads_state) (processed_results : list out_row) (row : object ads_row)
  : M (list out_row) :=
  let dates := dates (ads_head (this row)) in
  let key := group_key (ads_head (this row)) in
  do group_rows <- lift (group_rows_of key group_map) ;;
  do base_row <- lift (first_row group_rows) ;;
  let is_first_record := same_row ads_row_eqb row base_row in
  do group_cost_without_channel <- getitem (group_costs_without_channel st) key ;;
  do group_cost_with_channel <- getitem (group_costs_with_channel st) key ;;
  let cost_info_without_channel := row_cost_info is_first_record group_cost_without_channel in
  let cost_info_with_channel := row_cost_info is_first_record group_cost_with_channel in
  let pn := ads_pn (this row) in
  do day_recharge <- day_recharge_of (ads_day_recharge (this row)) ;;
  do recharge_conversion <- recharge_conversion_of dates day_recharge pn ;;
  ret (processed_results ++
       [{| out_head := ads_head (this row);
           col7 := ci_cost_usd cost_info_without_channel;
           col8 := original_cost cost_info_without_channel;
           col9 := ci_cost_usd cost_info_with_channel;
           col10 := original_cost cost_info_with_channel;
           col11 := cost_usd recharge_conversion;
           col12 := day_recharge |}]).

Definition process_ads_data_with_cost (results : list ads_row) : M (list out_row) :=
  match results with
  | [] => ret []
  | _ :: _ =>
      let rows := objects results in
      let group_map := build_group_map (fun row => ads_head (this row)) rows in
      do st <- for_each ads_group_step group_map
                 {| group_costs_without_channel := ∅; group_costs_with_channel := ∅;
                    ads_channel_total_cost_cache := ∅ |} ;;
      for_each (ads_row_step group_map st) rows []
  end.

(** *** What the engines are meant to compute *)

(** What the cache of [pn] by channel is meant to hold: the answers of
    [get_pn_by_channel]. *)
Definition pn_cache_sound (cache : gmap string (option string)) : Prop :=
  forall ch pn, cache !! ch = Some pn -> value (get_pn_by_channel db ch) = Ok pn.

(** The cost of a group of CDAP rows: that of the campaign of its first row,
    on the date and channel of that row, for the project of the channel. *)
Definition cdap_group_cost (base_row : cdap_row) (cost : cost_info) : Prop :=
  exists pn,
    value (get_pn_by_channel db (channel (cdap_head base_row))) = Ok pn
    /\ value (calculate_campaign_cost_with_channel_details db
                (dates (cdap_head base_row)) (campaign_id (cdap_head base_row))
                (channel (cdap_head base_row)) pn) = Ok cost.

(** The two costs of a group of ADS rows, for the project of its first row. *)
Definition ads_group_cost_without_channel (base_row : ads_row) (cost : cost_info) : Prop :=
  value (calculate_campaign_cost_with_details db
           (dates (ads_head base_row)) (campaign_id (ads_head base_row))
           (ads_pn base_row)) = Ok cost.

Definition ads_group_cost_with_channel (base_row : ads_row) (cost : cost_info) : Prop :=
  value (calculate_campaign_cost_with_channel_details db
           (dates (ads_head base_row)) (campaign_id (ads_head base_row))
           (channel (ads_head base_row)) (ads_pn base_row)) = Ok cost.

(** What the two dictionaries of the ADS engine are meant to hold. *)
Definition ads_state_sound (gm : list (string * list (object ads_row))) (st : ads_state)
  : Prop :=
  costs_sound (fun base_row => ads_group_cost_without_channel (this base_row)) gm
              (group_costs_without_channel st)
  /\ costs_sound (fun base_row => ads_group_cost_with_channel (this base_row)) gm
                 (group_costs_with_channel st).

(** What a processed CDAP row shows, in terms of the input [rows]: the head
    of the row; in columns 9 and 10 the cost of its group when it is the
    first row of the group or equals it, and zero otherwise; in columns 11
    and 12 the recharge of the row itself. *)
Definition cdap_processed (rows : list cdap_row) (row : object cdap_row) (o : out_row)
  : Prop :=
  out_head o = cdap_head (this row)
  /\ (exists base_row cost,
        first_of_key cdap_head (group_key (cdap_head (this row))) rows = Some base_row
        /\ cdap_group_cost (this base_row) cost
        /\ col9 o = ci_cost_usd (row_cost_info (same_row cdap_row_eqb row base_row) cost)
        /\ col10 o
           = original_cost (row_cost_info (same_row cdap_row_eqb row base_row) cost))
  /\ (exists pn day_recharge conv,
        value (get_pn_by_channel db (channel (cdap_head (this row)))) = Ok pn
        /\ value (day_recharge_of (cdap_day_recharge (this row))) = Ok day_recharge
        /\ value (recharge_conversion_of (dates (cdap_head (this row))) day_recharge pn)
           = Ok conv
        /\ col11 o = cost_usd conv /\ col12 o = day_recharge).

(** The same for an ADS row, with its two costs in columns 7 to 10. *)
Definition ads_processed (rows : list ads_row) (row : object ads_row) (o : out_row)
  : Prop :=
  out_head o = ads_head (this row)
  /\ (exists base_row without_channel with_channel,
        first_of_key ads_head (group_key (ads_head (this row))) rows = Some base_row
        /\ ads_group_cost_without_channel (this base_row) without_channel
        /\ ads_group_cost_with_channel (this base_row) with_channel
        /\ col7 o = ci_cost_usd (row_cost_info (same_row ads_row_eqb row base_row)
                                               without_channel)
        /\ col8 o = original_cost (row_cost_info (same_row ads_row_eqb row base_row)
                                                 without_channel)
        /\ col9 o = ci_cost_usd (row_cost_info (same_row ads_row_eqb row base_row)
                                               with_channel)
        /\ col10 o = original_cost (row_cost_info (same_row ads_row_eqb row base_row)
                                                  with_channel))
  /\ (exists day_recharge conv,
        value (day_recharge_of (ads_day_recharge (this row))) = Ok day_recharge
        /\ value (recharge_conversion_of (dates (ads_head (this row))) day_recharge
                                         (ads_pn (this row)))
           = Ok conv
        /\ col11 o = cost_usd conv /\ col12 o = day_recharge).

(** *** When the engines return

    What the loop over the groups leaves for the loop over the rows: the
    costs of a key (ADS), or the cost of the key of a group and the total of
    the channel of its first row (CDAP). *)
Definition ads_has_costs (st : ads_state) (key : string) : Prop :=
  is_Some (group_costs_without_channel st !! key)
  /\ is_Some (group_costs_with_channel st !! key).

Definition cdap_has_costs (st : cdap_state) (item : string * list (object cdap_row))
  : Prop :=
  is_Some (group_costs st !! item.1)
  /\ forall base_row, head item.2 = Some base_row ->
       is_Some (channel_total_cost_cache st !! channel (cdap_head (this base_row))).

(** Rows whose keys [f"{dates}_{channel}_{campaign_id}"] are equal have the
    same channel. *)
Definition one_channel_per_key (rows : list cdap_row) : Prop :=
  forall r1 r2, r1 ∈ rows -> r2 ∈ rows ->
    group_key (cdap_head r1) = group_key (cdap_head r2) ->
    channel (cdap_head r1) = channel (cdap_head r2).

(** A recharge cell that [float] does not refuse with [OverflowError]. *)
Definition recharge_fits (cell : pyval) : Prop :=
  float_of (or_zero cell) <> Raise OverflowError.

End Engines.

(** ** Deduplication of the ADS rows (both scripts)

    The raw rows of [query_ads_backend_detail_data] are tuples whose cell 1
    is [id]; the loop reads cells by position only, so a row is a list of
    cells here, whatever the cells are. *)

Section Deduplication.

Context {A : Type} `{Countable A}.

(** The loop over [results], with the set [existed_ids] and the list
    [deduplicated_results]; [row[1]] raises [IndexError] on a tuple with
    fewer than two cells. *)
Fixpoint dedup_loop (results : list (list A)) (existed_ids : gset A)
    (deduplicated_results : list (list A)) : result (list (list A)) :=
  match results with
  | [] => Ok deduplicated_results
  | row :: rest =>
      match row with
      | cell0 :: row_id :: tail =>
          if decide (row_id ∈ existed_ids) then
            dedup_loop rest existed_ids deduplicated_results
          else
            dedup_loop rest ({[row_id]} ∪ existed_ids)
                       (deduplicated_results ++ [cell0 :: tail])
      | _ => Raise IndexError
      end
  end.

Definition deduplicate (results : list (list A)) : result (list (list A)) :=
  dedup_loop results ∅ [].

(** The two halves of the step, apart: keeping the first row of each
    identifier, and dropping the identifier, [(row[0],) + row[2:]]. *)
Fixpoint keep_first (results : list (list A)) (existed_ids : gset A) : list (list A) :=
  match results with
  | [] => []
  | row :: rest =>
      match row with
      | _ :: row_id :: _ =>
          if decide (row_id ∈ existed_ids) then keep_first rest existed_ids
          else row :: keep_first rest ({[row_id]} ∪ existed_ids)
      | _ => row :: keep_first rest existed_ids
      end
  end.

Definition drop_id (row : list A) : list A :=
  match row with
  | cell0 :: _ :: tail => cell0 :: tail
  | _ => row
  end.

(** [row[1]] *)
Definition id_of (row : list A) : option A := row !! 1%nat.

(** A row with an identifier: at least two cells. *)
Definition wide (row : list A) : Prop := (2 <= length row)%nat.

End Deduplication.

(** ** The older script

    Its [query_project_entity] and [query_rate_entity] are those of v1, word
    for word, and are shared here. *)

Module Legacy.

(** The result of a conversion.  [cost_usd] can be the amount as it came. *)
Record conversion : Type := {
  cost_usd : pyval;
  currency : string;
  rate : float;
  extra_rate : float
}.

(** [get_currency_by_pn]: no table is read. *)
Definition get_currency_by_pn (pn : string) : string :=
  if (pn =? "IN")%string then "INR" else "USD".

(** [source_money * extra_rate] *)
Definition times (source_money : pyval) (extra_rate : float) : result float :=
  match source_money with
  | PInt _ | PFloat _ =>
      match float_of source_money with
      | Ok f => Ok (f * extra_rate)%float
      | Raise e => Raise e
      end
  | PNone | PStr _ => Raise TypeError
  end.

Section Script.

Variable db : Store.

Definition currency_to_usd_with_details
    (dates : string) (source_money : pyval) (pn : option string) : M conversion :=
  let result := {| cost_usd := PFloat 0; currency := "USD"; rate := 1; extra_rate := 1 |} in
  match is_none source_money, pn with
  | true, _ | _, None => ret result
  | false, Some pn =>
      do project_entity <- query_project_entity db pn ;;
      let extra_rate := extra_rate_of project_entity in
      do extra_money <- lift (times source_money extra_rate) ;;
      let currency := get_currency_by_pn pn in
      if negb (truthy (Some currency)) then
        ret {| cost_usd := source_money; currency := "USD"; rate := 1;
               extra_rate := extra_rate |}
      else
        do rate <- query_rate_entity db dates "USD" currency ;;
        match rate_or_default currency rate with
        | None =>
            ret {| cost_usd := source_money; currency := currency; rate := 1;
                   extra_rate := extra_rate |}
        | Some rate =>
            if nonzero rate then
              ret {| cost_usd := PFloat (round2 (extra_money / rate));
                     currency := currency; rate := rate; extra_rate := extra_rate |}
            else
              ret {| cost_usd := source_money; currency := currency; rate := rate;
                     extra_rate := extra_rate |}
        end
  end.

End Script.

End Legacy.

(** ** The channel totals of the CDAP engine *)

Section ChannelTotals.

Variable db : Store.

(** The entry [channel_total_cost_cache] gets for a channel whose total cost
    on [dates] is [total]: converted when the total is positive and the
    project is known, zero otherwise. *)
Definition channel_total_entry (dates : string) (total : float) (pn : option string)
    (info : cost_info) : Prop :=
  if PrimFloat.ltb 0 total && truthy pn then
    exists conv,
      value (currency_to_usd_with_details db dates (PFloat total) pn) = Ok conv
      /\ info = {| ci_cost_usd := cost_usd conv; original_cost := total;
                   ci_currency := currency conv; ci_rate := rate conv;
                   ci_extra_rate := extra_rate conv |}
  else info = empty_cost_info.

(** What [channel_total_cost_cache] is meant to hold in the CDAP engine:
    under a channel, the total cost of the channel on the date of one of the
    rows of that channel, for the project of the channel. *)
Definition channel_totals_sound (rows : list cdap_row) (cache : gmap string cost_info)
  : Prop :=
  forall ch info, cache !! ch = Some info ->
    exists base_row pn total,
      base_row ∈ rows /\ channel (cdap_head base_row) = ch
      /\ value (get_pn_by_channel db ch) = Ok pn
      /\ value (query_channel_total_cost db (dates (cdap_head base_row)) ch) = Ok total
      /\ channel_total_entry (dates (cdap_head base_row)) total pn info.

End ChannelTotals.

(** ** The caches of the engines *)

(** The channel whose project a query looks up, and the channel whose total
    cost a query sums. *)
Definition pn_lookup (q : query) : option string :=
  match q with
  | SelectPnByChannel channel_code => Some channel_code
  | _ => None
  end.

Definition channel_total_lookup (q : query) : option string :=
  match q with
  | SumCostByChannel _ channel => Some channel
  | _ => None
  end.

(** A computation that runs no query of the kind [extract] picks. *)
Definition silent {K A : Type} (extract : query -> option K) (m : M A) : Prop :=
  omap extract (queries m) = [].

(** ** The detail queries of the v1 script

    [query_cdap_base_detail_data] and [query_ads_backend_detail_data] fetch
    the detail rows of a channel and a date and hand them to the engines.
    What [fetchall()] answers is a [DetailTables]; these two queries are not
    entered in the log, which records the lookups only.  The session is
    taken as open: what opening it, or closing it in the [finally] clause,
    may raise is not part of the model. *)

(** A row as the query of [query_ads_backend_detail_data] returns it: [id] is
    its cell 1, and [(row[0],) + row[2:]] are its other cells. *)
Record ads_backend_row : Type := {
  backend_id : Z;
  without_id : ads_row
}.

Record DetailTables : Type := {
  select_cdap_base : string -> string -> result (list cdap_row);
  select_ads_backend : string -> string -> result (list ads_backend_row)
}.

(** The deduplication loop on such rows, with the set [existed_ids] and the
    list [deduplicated_results]. *)
Fixpoint dedup_rows (results : list ads_backend_row) (existed_ids : gset Z)
    (deduplicated_results : list ads_row) : list ads_row :=
  match results with
  | [] => deduplicated_results
  | row :: rest =>
      let row_id := backend_id row in
      if decide (row_id ∈ existed_ids) then
        dedup_rows rest existed_ids deduplicated_results
      else
        dedup_rows rest ({[row_id]} ∪ existed_ids)
                   (deduplicated_results ++ [without_id row])
  end.

(** The rows the loop keeps: the first of each [id]. *)
Fixpoint first_of_each_id (results : list ads_backend_row) (existed_ids : gset Z)
  : list ads_backend_row :=
  match results with
  | [] => []
  | row :: rest =>
      if decide (backend_id row ∈ existed_ids) then first_of_each_id rest existed_ids
      else row :: first_of_each_id rest ({[backend_id row]} ∪ existed_ids)
  end.

(** The same rows as tuples of cells, for any way of writing [id] and the
    other cells as cells: cell 0, [id], then the cells that follow. *)
Definition raw_cells {A : Type} (id_cell : Z -> A) (cell0 : ads_row -> A)
    (cells_after : ads_row -> list A) (row : ads_backend_row) : list A :=
  cell0 (without_id row) :: id_cell (backend_id row) :: cells_after (without_id row).

(** What one channel and date give: the keys [channel], [dates],
    [cdap_base_data], [ads_backend_data] and [differences] of the dictionary
    [validate_single_channel] returns. *)
Record validation_result : Type := {
  vr_channel : string;
  vr_dates : string;
  cdap_base_data : list out_row;
  ads_backend_data : list out_row;
  differences : list out_row
}.

Section DetailQueries.

Variable db : Store.
Variable tables : DetailTables.

Definition query_cdap_base_detail_data (channel dates : string) : M (list out_row) :=
  try_except Exception
    (do results <- lift (select_cdap_base tables channel dates) ;;
     process_cdap_data_with_cost db results)
    (ret []).

Definition query_ads_backend_detail_data (channel dates : string) : M (list out_row) :=
  try_except Exception
    (do results <- lift (select_ads_backend tables channel dates) ;;
     let deduplicated_results := dedup_rows results ∅ [] in
     if (length deduplicated_results =? 0)%nat then ret []
     else process_ads_data_with_cost db deduplicated_results)
    (ret []).

Definition validate_single_channel (channel dates : string) : M validation_result :=
  do cdap_base_data <- query_cdap_base_detail_data channel dates ;;
  do ads_backend_data <- query_ads_backend_detail_data channel dates ;;
  ret {| vr_channel := channel; vr_dates := dates;
         cdap_base_data := cdap_base_data;
         ads_backend_data := ads_backend_data;
         differences := [] |}.

(** The loop of [run_validation] over the channels. *)
Definition validate_channels (channels : list string) (dates : string)
  : M (list validation_result) :=
  for_each (fun validation_results channel =>
              do result <- validate_single_channel channel dates ;;
              ret (validation_results ++ [result]))
           channels [].

End DetailQueries.

(** ** The workbook of the v1 script

    [export_to_excel] drives a workbook of two sheets.  A sheet is what was
    done to it: the rows appended, the ranges merged, the cells assigned and
    the cells centred, each in order.  Rows are numbered from 1, the header
    being row 1. *)

(** The value of a cell. *)
Inductive xl_value : Type :=
| XNone
| XInt (z : Z)
| XFloat (f : float)
| XStr (s : string).

(** [f'{column}{first}:{column}{last}'] *)
Record cell_range : Type := {
  range_column : string;
  range_first : nat;
  range_last : nat
}.

Record worksheet : Type := {
  title : string;
  appended : list (list xl_value);
  merged : list cell_range;
  assigned : list (string * nat * xl_value);
  centred : list (string * nat)
}.

(** [list(row)] of a processed row. *)
Definition cells (row : out_row) : list xl_value :=
  let h := out_head row in
  [XStr (table_name h); XStr (dates h); XStr (bdates h); XStr (channel h);
   XStr (source h);
   match campaign_id h with
   | Some c => XStr c
   | None => XNone
   end;
   XInt (active h);
   XFloat (col7 row); XFloat (col8 row); XFloat (col9 row); XFloat (col10 row);
   XFloat (col11 row); XFloat (col12 row)].

(** An entry of [channel_merge_info]. *)
Record merge_info : Type := {
  start_row : nat;
  end_row : nat;
  cdap_actual_cost : float;
  mi_original_cost : float
}.

(** [if channel not in channel_merge_info: channel_merge_info[channel] = {...}]
    [else: channel_merge_info[channel]['end_row'] = current_row], on a
    dictionary that keeps the order of insertion. *)
Fixpoint record_channel (channel : string) (current_row : nat)
    (actual_cost original : float)
    (channel_merge_info : list (string * merge_info)) : list (string * merge_info) :=
  match channel_merge_info with
  | [] => [(channel, {| start_row := current_row; end_row := current_row;
                        cdap_actual_cost := actual_cost;
                        mi_original_cost := original |})]
  | (ch, info) :: rest =>
      if (ch =? channel)%string then
        (ch, {| start_row := start_row info; end_row := current_row;
                cdap_actual_cost := cdap_actual_cost info;
                mi_original_cost := mi_original_cost info |}) :: rest
      else (ch, info) :: record_channel channel current_row actual_cost original rest
  end.

Definition append (cells : list xl_value) (sheet : worksheet) : worksheet :=
  {| title := title sheet; appended := appended sheet ++ [cells];
     merged := merged sheet; assigned := assigned sheet; centred := centred sheet |}.

(** The body of the loop over [result['cdap_base_data']]; the state is the
    sheet, [channel_merge_info] and [current_row]. *)
Definition export_row_step (st : worksheet * list (string * merge_info) * nat) (row : out_row)
  : worksheet * list (string * merge_info) * nat :=
  let '(sheet, channel_merge_info, current_row) := st in
  (append (cells row) sheet,
   record_channel (channel (out_head row)) current_row (col7 row) (col8 row)
                  channel_merge_info,
   S current_row).

(** The body of the loop over [channel_merge_info.items()]. *)
Definition merge_step (sheet : worksheet) (item : string * merge_info) : worksheet :=
  let info := snd item in
  if (start_row info <? end_row info)%nat then
    {| title := title sheet; appended := appended sheet;
       merged := merged sheet
                 ++ [{| range_column := "H"; range_first := start_row info;
                        range_last := end_row info |};
                     {| range_column := "I"; range_first := start_row info;
                        range_last := end_row info |}];
       assigned := assigned sheet
                   ++ [("H"%string, start_row info, XFloat (cdap_actual_cost info));
                       ("I"%string, start_row info, XFloat (mi_original_cost info))];
       centred := centred sheet ++ [("H"%string, start_row info);
                                    ("I"%string, start_row info)] |}
  else sheet.

(** The body of the loop over [validation_results] that fills the CDAP
    sheet; [current_row] runs on from one result to the next. *)
Definition export_result_step (st : worksheet * nat) (result : validation_result)
  : worksheet * nat :=
  let '(sheet, current_row) := st in
  let '(sheet, channel_merge_info, current_row) :=
    fold_left export_row_step (cdap_base_data result) (sheet, [], current_row) in
  (fold_left merge_step channel_merge_info sheet, current_row).

Definition base_headers : list xl_value :=
  [XStr "表名"; XStr "注册日期"; XStr "行为日期"; XStr "渠道"; XStr "来源";
   XStr "广告系列id"; XStr "活跃用户数";
   XStr "花费美元（cdap当前逻辑带channel)"; XStr "原始花费（cdap当前逻辑带channel）";
   XStr "花费美元（辅助逻辑带channel）"; XStr "花费原始币种（辅助逻辑带channel）";
   XStr "日充值美元"; XStr "日充值原始币种"].

Definition ads_headers : list xl_value :=
  [XStr "表名"; XStr "注册日期"; XStr "行为日期"; XStr "渠道"; XStr "来源";
   XStr "广告系列id"; XStr "活跃用户数（ads）";
   XStr "花费美元（ads当前逻辑）"; XStr "花费原始币种（ads当前逻辑）";
   XStr "花费美元（ads正确逻辑）"; XStr "花费原始币种（ads正确逻辑）";
   XStr "日充值美元（ads）"; XStr "日充值原始币种（ads）"].

Definition new_sheet (title : string) : worksheet :=
  {| title := title; appended := []; merged := []; assigned := []; centred := [] |}.

(** [export_to_excel], up to [wb.save]: the two sheets of the workbook. *)
Definition export_to_excel (validation_results : list validation_result)
  : worksheet * worksheet :=
  let cdap_base_sheet := append base_headers (new_sheet "CDAP-ROAS趋势(同期群)") in
  let '(cdap_base_sheet, _) :=
    fold_left export_result_step validation_results (cdap_base_sheet, 2%nat) in
  let ads_backend_sheet := append ads_headers (new_sheet "ADS-同期群ROAS") in
  let ads_backend_sheet :=
    fold_left (fun sheet result =>
                 fold_left (fun sheet row => append (cells row) sheet)
                           (ads_backend_data result) sheet)
              validation_results ads_backend_sheet in
  (cdap_base_sheet, ads_backend_sheet).

(** The rows of a channel among [data], whose first row has the number
    [offset] in the sheet: they start at row [first], with the row
    [first_row], end at row [last], and none lies outside. *)
Definition channel_span (offset : nat) (data : list out_row) (ch : string)
    (first last : nat) (first_row : out_row) : Prop :=
  exists i j last_row,
    first = (offset + i)%nat /\ last = (offset + j)%nat /\ (i <= j)%nat
    /\ data !! i = Some first_row /\ data !! j = Some last_row
    /\ channel (out_head first_row) = ch /\ channel (out_head last_row) = ch
    /\ forall k row, data !! k = Some row -> channel (out_head row) = ch ->
                     (i <= k <= j)%nat.

(** What [channel_merge_info] is meant to hold once the rows [seen] of a
    result are appended from row [offset] on: one entry for every channel
    met, with its span and the two amounts of its first row. *)
Definition merge_info_sound (offset : nat) (seen : list out_row)
    (channel_merge_info : list (string * merge_info)) : Prop :=
  NoDup (map fst channel_merge_info)
  /\ (forall row, row ∈ seen -> channel (out_head row) ∈ map fst channel_merge_info)
  /\ forall ch info, (ch, info) ∈ channel_merge_info ->
       exists first_row,
         channel_span offset seen ch (start_row info) (end_row info) first_row
         /\ cdap_actual_cost info = col7 first_row
         /\ mi_original_cost info = col8 first_row.

(** The processed rows of the results, in the order they are appended. *)
Definition all_cdap_rows (validation_results : list validation_result) : list out_row :=
  concat (map cdap_base_data validation_results).

Definition all_ads_rows (validation_results : list validation_result) : list out_row :=
  concat (map ads_backend_data validation_results).

(** The number of the sheet row at which the rows of the result of index
    [t] start: row 1 is the header. *)
Definition block_offset (validation_results : list validation_result) (t : nat) : nat :=
  (2 + length (all_cdap_rows (take t validation_results)))%nat.

(** What the CDAP sheet is meant to be once the results [done] are written:
    the header and the rows in order; a merged range in each of the columns
    H and I for every channel that has more than one row in a result, from
    the first to the last of these rows; and an assignment to the first
    cell of each range. *)
Definition cdap_sheet_sound (done : list validation_result) (sheet : worksheet) : Prop :=
  appended sheet = base_headers :: map cells (all_cdap_rows done)
  /\ (forall r, r ∈ merged sheet <->
        exists t result ch first_row,
          done !! t = Some result
          /\ channel_span (block_offset done t) (cdap_base_data result) ch
                          (range_first r) (range_last r) first_row
          /\ (range_first r < range_last r)%nat
          /\ (range_column r = "H" \/ range_column r = "I"))
  /\ (forall col k v, (col, k, v) ∈ assigned sheet <->
        exists t result ch last first_row,
          done !! t = Some result
          /\ channel_span (block_offset done t) (cdap_base_data result) ch k last
                          first_row
          /\ (k < last)%nat
          /\ ((col = "H" /\ v = XFloat (col7 first_row))
              \/ (col = "I" /\ v = XFloat (col8 first_row)))).

(** What [validate_single_channel] is meant to return for a channel and a
    date: what the two detail queries return. *)
Definition validated (db : Store) (tables : DetailTables) (dates channel : string)
    (result : validation_result) : Prop :=
  vr_channel result = channel /\ vr_dates result = dates /\ differences result = []
  /\ value (query_cdap_base_detail_data db tables channel dates)
     = Ok (cdap_base_data result)
  /\ value (query_ads_backend_detail_data db tables channel dates)
     = Ok (ads_backend_data result).

(** [run_validation], from the parameters of the configuration to the
    workbook it saves: [ValueError] when [date] or [channels] is empty. *)
Definition run_validation (db : Store) (tables : DetailTables)
    (dates : string) (channels : list string) : M (worksheet * worksheet) :=
  if negb (truthy (Some dates)) || (length channels =? 0)%nat then raise ValueError
  else
    do validation_results <- validate_channels db tables channels dates ;;
    ret (export_to_excel validation_results).

(** ** The ADS engine of the older script

    Every row carries the cost of its campaign; nothing is set to zero. *)

Module LegacyEngine.

(** The cost of a campaign in the older script; [cost_usd] can be the
    amount as it came. *)
Record cost_info : Type := {
  cost_usd : pyval;
  original_cost : float;
  currency : string;
  rate : float;
  extra_rate : float
}.

(** A row of the older [query_ads_backend_detail_data] once [id] is
    dropped: the head, [history_active_offset_days] and [threshold_value]. *)
Record detail_row : Type := {
  head : row_head;
  offset_days : Z;
  threshold_value : Z
}.

(** A processed row: the cells of the row, then [cost_usd], [original_cost],
    [currency], [rate] and [extra_rate]. *)
Record processed_row : Type := {
  detail : detail_row;
  cost : cost_info
}.

(** [get_pn_by_campaign_id]: no table is read. *)
Definition get_pn_by_campaign_id (campaign_id : option string) : string := "IN".

(** [result.update(conversion_result)] *)
Definition update (result : cost_info) (c : Legacy.conversion) : cost_info :=
  {| cost_usd := Legacy.cost_usd c;
     original_cost := original_cost result;
     currency := Legacy.currency c;
     rate := Legacy.rate c;
     extra_rate := Legacy.extra_rate c |}.

Definition default_cost_info : cost_info :=
  {| cost_usd := PFloat 0; original_cost := 0; currency := "USD"; rate := 1;
     extra_rate := 1 |}.

Section Script.

Variable db : Store.

(** [query_campaign_cost] is that of v1, word for word.  The [except] clause
    returns the dictionary as it stands when the exception arrives. *)
Definition calculate_campaign_cost_with_details
    (dates : string) (campaign_id : option string) : M cost_info :=
  let result := default_cost_info in
  try_except Exception
    (do cost_amount <- query_campaign_cost db dates campaign_id ;;
     let result := {| cost_usd := cost_usd result; original_cost := cost_amount;
                      currency := currency result; rate := rate result;
                      extra_rate := extra_rate result |} in
     if PrimFloat.eqb cost_amount 0 then ret result
     else
       let pn := get_pn_by_campaign_id campaign_id in
       if negb (truthy (Some pn)) then
         ret {| cost_usd := PFloat cost_amount; original_cost := cost_amount;
                currency := currency result; rate := rate result;
                extra_rate := extra_rate result |}
       else
         try_except Exception
           (do conversion_result <-
              Legacy.currency_to_usd_with_details db dates (PFloat cost_amount) (Some pn) ;;
            ret (update result conversion_result))
           (ret result))
    (ret result).

Definition calculate_campaign_cost_usd (dates : string) (campaign_id : option string)
  : M pyval :=
  do result <- calculate_campaign_cost_with_details dates campaign_id ;;
  ret (cost_usd result).

(** The first loop: the cost of every campaign met, computed when the
    campaign is met first. *)
Definition campaign_cost_step (campaign_costs : gmap (option string) cost_info)
    (row : detail_row) : M (gmap (option string) cost_info) :=
  let campaign_id := campaign_id (head row) in
  let dates := dates (head row) in
  match campaign_costs !! campaign_id with
  | Some _ => ret campaign_costs
  | None =>
      do cost_info <- calculate_campaign_cost_with_details dates campaign_id ;;
      ret (<[campaign_id := cost_info]> campaign_costs)
  end.

(** The second loop: [campaign_costs[campaign_id]] next to every row. *)
Definition attach_cost_step (campaign_costs : gmap (option string) cost_info)
    (processed_results : list processed_row) (row : detail_row)
  : M (list processed_row) :=
  match campaign_costs !! campaign_id (head row) with
  | Some cost_info =>
      ret (processed_results ++ [{| detail := row; cost := cost_info |}])
  | None => raise KeyError
  end.

Definition process_ads_data_with_cost (results : list detail_row) : M (list processed_row) :=
  match results with
  | [] => ret []
  | _ :: _ =>
      do campaign_costs <- for_each campaign_cost_step results ∅ ;;
      for_each (attach_cost_step campaign_costs) results []
  end.

End Script.

(** The first of the rows [seen] that has a campaign. *)
Definition first_of_campaign (campaign : option string) (seen : list detail_row)
  : option detail_row :=
  List.head (filter (fun row => campaign_id (head row) = campaign) seen).

(** What [campaign_costs] is meant to hold once the rows [seen] are read:
    under every campaign met, the cost of that campaign on the date of the
    first row that has it, and nothing else. *)
Definition campaign_costs_sound (db : Store) (seen : list detail_row)
    (campaign_costs : gmap (option string) cost_info) : Prop :=
  forall campaign,
    match first_of_campaign campaign seen with
    | Some first_row =>
        exists info,
          campaign_costs !! campaign = Some info
          /\ value (calculate_campaign_cost_with_details db (dates (head first_row))
                      campaign) = Ok info
    | None => campaign_costs !! campaign = None
    end.

End LegacyEngine.

(** ** Sample data

    A store in which every ledger sum is 1000 (5000 for a whole channel) and
    every project has the extra rate 1.1; the project of a channel, the
    currency of a project and the rate row are left to choose. *)

Definition store_with (pn currency : option string) (rate_cell : option pyval) : Store :=
  {| sum_cost_by_campaign := fun _ _ => Ok (Some (PFloat 1000));
     sum_cost_by_campaign_channel := fun _ _ _ => Ok (Some (PFloat 1000));
     sum_cost_by_channel := fun _ _ => Ok (Some (PFloat 5000));
     select_project := fun _ => Ok (Some (PFloat 1.1));
     select_rate := fun _ _ _ => Ok rate_cell;
     select_pn_by_channel := fun _ => Ok (Some pn);
     select_currency := fun _ => Ok (Some currency) |}.

(** Project "IN", in rupees, at 80 rupees to the dollar. *)
Definition rupee_store : Store :=
  store_with (Some "IN") (Some "INR") (Some (PFloat 80)).

(** A store whose every query raises. *)
Definition broken_store : Store :=
  {| sum_cost_by_campaign := fun _ _ => Raise DbError;
     sum_cost_by_campaign_channel := fun _ _ _ => Raise DbError;
     sum_cost_by_channel := fun _ _ => Raise DbError;
     select_project := fun _ => Raise DbError;
     select_rate := fun _ _ _ => Raise DbError;
     select_pn_by_channel := fun _ => Raise DbError;
     select_currency := fun _ => Raise DbError |}.

Definition sample_head : row_head :=
  {| table_name := "history_active_cohort_cost_calculate_trend";
     dates := "2025-11-10"; bdates := "2025-11-10"; channel := "fb_in";
     source := "facebook"; campaign_id := Some "c-17"; active := 5 |}.

Definition sample_cdap_row (day_recharge : pyval) : cdap_row :=
  {| cdap_head := sample_head; cdap_offset_days := 3;
     cdap_day_recharge := day_recharge; cdap_threshold_value := 1 |}.

Definition sample_ads_row (day_recharge : pyval) : ads_row :=
  {| ads_head := sample_head; ads_offset_days := 3;
     ads_day_recharge := day_recharge; ads_pn := Some "IN";
     ads_threshold_value := 1 |}.

(** Two raw ADS rows as the query returns them, [id] in cell 1, every cell
    written as text. *)
Definition sample_raw_rows : list (list string) :=
  [["history_active_cohort_cost_calculate_trend_campaign"; "101"; "2025-11-10";
    "2025-11-10"; "fb_in"; "facebook"; "c-17"; "5"; "3"; "100.0"; "IN"; "1"];
   ["history_active_cohort_cost_calculate_trend_campaign"; "102"; "2025-11-10";
    "2025-11-10"; "fb_in"; "facebook"; "c-17"; "4"; "3"; "50.0"; "IN"; "1"]].

(** Two CDAP rows of one key, "2025-11-10_fb_in_c-17", whose channels
    differ: "fb_in" with campaign "c-17", and "fb" with campaign "in_c-17". *)
Definition colliding_cdap_rows : list cdap_row :=
  [sample_cdap_row (PFloat 100);
   {| cdap_head := {| table_name := "history_active_cohort_cost_calculate_trend";
                      dates := "2025-11-10"; bdates := "2025-11-10"; channel := "fb";
                      source := "facebook"; campaign_id := Some "in_c-17"; active := 2 |};
      cdap_offset_days := 3; cdap_day_recharge := PFloat 100;
      cdap_threshold_value := 1 |}].

(** Two processed CDAP rows of one channel, as the engine returns them for
    [sample_cdap_row (PFloat 100.25)] and [sample_cdap_row PNone] at
    [rupee_store]. *)
Definition sample_processed_rows : list out_row :=
  [{| out_head := sample_head; col7 := 68.75; col8 := 5000; col9 := 13.75;
      col10 := 1000; col11 := 1.38; col12 := 100.25 |};
   {| out_head := sample_head; col7 := 68.75; col8 := 5000; col9 := 0;
      col10 := 0; col11 := 0; col12 := 0 |}].

(** Two rows with the same cells, a NaN recharge among them, and what the
    engines return for them at [rupee_store]: the second row is not equal to
    the first, and shows no cost. *)
Definition nan_cdap_rows : list cdap_row :=
  [sample_cdap_row (PFloat nan); sample_cdap_row (PFloat nan)].

Definition nan_cdap_processed : list out_row :=
  [{| out_head := sample_head; col7 := 68.75; col8 := 5000; col9 := 13.75;
      col10 := 1000; col11 := 0; col12 := nan |};
   {| out_head := sample_head; col7 := 68.75; col8 := 5000; col9 := 0;
      col10 := 0; col11 := 0; col12 := nan |}].

Definition nan_ads_rows : list ads_row :=
  [sample_ads_row (PFloat nan); sample_ads_row (PFloat nan)].

Definition nan_ads_processed : list out_row :=
  [{| out_head := sample_head; col7 := 13.75; col8 := 1000; col9 := 13.75;
      col10 := 1000; col11 := 0; col12 := nan |};
   {| out_head := sample_head; col7 := 0; col8 := 0; col9 := 0;
      col10 := 0; col11 := 0; col12 := nan |}].

(** Tables that answer every detail query with rows of the channel and the
    date asked for: two CDAP rows, and three ADS rows of which two have the
    same [id]. *)
Definition cdap_row_of (channel dates : string) (active : Z) (day_recharge : pyval)
  : cdap_row :=
  {| cdap_head := {| table_name := "history_active_cohort_cost_calculate_trend";
                     dates := dates; bdates := dates; channel := channel;
                     source := "facebook"; campaign_id := Some "c-17";
                     active := active |};
     cdap_offset_days := 3; cdap_day_recharge := day_recharge;
     cdap_threshold_value := 1 |}.

Definition ads_backend_row_of (id : Z) (channel dates : string) (active : Z)
    (day_recharge : pyval) : ads_backend_row :=
  {| backend_id := id;
     without_id :=
       {| ads_head := {| table_name := "history_active_cohort_cost_calculate_trend_campaign";
                         dates := dates; bdates := dates; channel := channel;
                         source := "facebook"; campaign_id := Some "c-17";
                         active := active |};
          ads_offset_days := 3; ads_day_recharge := day_recharge; ads_pn := Some "IN";
          ads_threshold_value := 1 |} |}.

Definition sample_tables : DetailTables :=
  {| select_cdap_base := fun channel dates =>
       Ok [cdap_row_of channel dates 5 (PFloat 100.25); cdap_row_of channel dates 4 PNone];
     select_ads_backend := fun channel dates =>
       Ok [ads_backend_row_of 101 channel dates 5 (PFloat 100.25);
           ads_backend_row_of 101 channel dates 5 (PFloat 100.25);
           ads_backend_row_of 102 channel dates 4 PNone] |}.

(** The result of validating a channel that has the two processed rows. *)
Definition sample_validation_result : validation_result :=
  {| vr_channel := "fb_in"; vr_dates := "2025-11-10";
     cdap_base_data := sample_processed_rows; ads_backend_data := [];
     differences := [] |}.

(** * Properties *)

(** ** The monad *)

Section MonadFacts.

Context {A B : Type}.

Lemma value_bind (m : M A) (k : A -> M B) :
  value (bind m k) = match value m with Ok a => value (k a) | Raise e => Raise e end.
Proof. destruct m as [[a|e] log]; simpl; [destruct (k a)|]; reflexivity. Qed.

Lemma queries_bind (m : M A) (k : A -> M B) :
  queries (bind m k)
  = queries m ++ match value m with Ok a => queries (k a) | Raise _ => [] end.
Proof.
  destruct m as [[a|e] log]; simpl; [destruct (k a); reflexivity|].
  symmetry; apply app_nil_r.
Qed.

Lemma value_catch_all (m : M A) (a : A) :
  value (try_except Exception m (ret a))
  = match value m with Ok x => Ok x | Raise _ => Ok a end.
Proof. destruct m as [[x|e] log]; reflexivity. Qed.

Lemma queries_catch_all (m : M A) (a : A) :
  queries (try_except Exception m (ret a)) = queries m.
Proof. destruct m as [[x|e] log]; simpl; [reflexivity | apply app_nil_r]. Qed.

(** A successful [bind] went through a successful first step. *)
Lemma bind_Ok (m : M A) (k : A -> M B) (b : B) :
  value (bind m k) = Ok b -> exists a, value m = Ok a /\ value (k a) = Ok b.
Proof. rewrite value_bind. destruct (value m); [eauto | discriminate]. Qed.

End MonadFacts.

(** ** The lookups never raise *)

Section LookupFacts.

Variable db : Store.

Lemma query_project_entity_returns pn :
  exists pe, value (query_project_entity db pn) = Ok pe.
Proof.
  unfold query_project_entity. rewrite value_catch_all.
  destruct (value _); eauto.
Qed.

Lemma query_rate_entity_returns d b s :
  exists r, value (query_rate_entity db d b s) = Ok r.
Proof.
  unfold query_rate_entity. rewrite value_catch_all.
  destruct (value _); eauto.
Qed.

Lemma get_currency_by_pn_returns pn :
  exists c, value (get_currency_by_pn db pn) = Ok c.
Proof.
  unfold get_currency_by_pn. rewrite value_catch_all.
  destruct (value _); eauto.
Qed.

Lemma get_pn_by_channel_returns ch :
  exists pn, value (get_pn_by_channel db ch) = Ok pn.
Proof.
  unfold get_pn_by_channel. rewrite value_catch_all.
  destruct (value _); eauto.
Qed.

Lemma query_campaign_cost_returns d c :
  exists cost, value (query_campaign_cost db d c) = Ok cost.
Proof.
  unfold query_campaign_cost. destruct c as [c|]; [|simpl; eauto].
  destruct (_ || _); [simpl; eauto|].
  rewrite value_catch_all. destruct (value _); eauto.
Qed.

Lemma query_campaign_cost_by_channel_returns d c ch :
  exists cost, value (query_campaign_cost_by_channel db d c ch) = Ok cost.
Proof.
  unfold query_campaign_cost_by_channel. destruct c as [c|]; [|simpl; eauto].
  destruct (_ || _); [simpl; eauto|].
  rewrite value_catch_all. destruct (value _); eauto.
Qed.

Lemma query_channel_total_cost_returns d ch :
  exists cost, value (query_channel_total_cost db d ch) = Ok cost.
Proof.
  unfold query_channel_total_cost.
  destruct (_ || _); [simpl; eauto|].
  rewrite value_catch_all. destruct (value _); eauto.
Qed.

(** ** Every way [currency_to_usd_with_details] can end *)

Lemma conversion_outcomes dates v pn :
  let out := value (currency_to_usd_with_details db dates v pn) in
  let partial c r e :=
    Ok {| cost_usd := 0; currency := c; rate := r; extra_rate := e |} in
  ((is_none v = true \/ pn = None) /\ out = partial None None None)
  \/ exists p pe,
      pn = Some p /\ is_none v = false
      /\ value (query_project_entity db p) = Ok pe
      /\ (let extra := Some (extra_rate_of pe) in
         (exists e, float_of v = Raise e
            /\ out = if ValueError_or_TypeError e then partial None None extra
                     else Raise e)
         \/ exists f c,
             float_of v = Ok f
             /\ value (get_currency_by_pn db p) = Ok c
             /\ ((truthy c = false /\ out = partial None None extra)
                 \/ exists cur looked_up,
                     c = Some cur /\ truthy c = true
                     /\ value (query_rate_entity db dates "USD" cur) = Ok looked_up
                     /\ ((rate_or_default cur looked_up = None
                          /\ out = partial (Some cur) None extra)
                         \/ exists r,
                             rate_or_default cur looked_up = Some r
                             /\ ((nonzero r = false
                                  /\ out = partial (Some cur) (Some r) extra)
                                 \/ (nonzero r = true
                                     /\ out = Ok {| cost_usd := round2 (f * extra_rate_of pe / r)%float;
                                                    currency := Some cur;
                                                    rate := Some r;
                                                    extra_rate := extra |}))))).
Proof.
  cbv zeta. unfold currency_to_usd_with_details.
  destruct pn as [p|]; [|left; split; [auto|destruct (is_none v); reflexivity]].
  destruct (is_none v) eqn:Hnone; [left; auto|right].
  destruct (query_project_entity_returns p) as [pe Hpe].
  exists p, pe. repeat split; try assumption.
  rewrite value_bind, Hpe.
  destruct (float_of v) as [f|e] eqn:Hf.
  2: { left. exists e. split; [reflexivity|].
       destruct (ValueError_or_TypeError e); reflexivity. }
  right. destruct (get_currency_by_pn_returns p) as [c Hc].
  exists f, c. repeat split; try assumption.
  rewrite value_bind, Hc.
  destruct c as [cur|]; [|left; auto].
  destruct (truthy (Some cur)) eqn:Htr; [right|left; auto].
  destruct (query_rate_entity_returns dates "USD" cur) as [looked_up Hrt].
  exists cur, looked_up. repeat split; try assumption.
  cbn [negb]. rewrite value_bind, Hrt.
  destruct (rate_or_default cur looked_up) as [r|]; [right|left; auto].
  exists r. split; [reflexivity|].
  destruct (nonzero r); [right|left]; auto.
Qed.

End LookupFacts.

(** ** What [float] can raise *)

Lemma float_of_str_raises s e : float_of_str s = Raise e -> e = ValueError.
Proof.
  unfold float_of_str.
  destruct (drop_underscores _ _) as [t|]; [|congruence].
  destruct (match t with
            | "-"%char :: r => (true, r)
            | "+"%char :: r => (false, r)
            | _ => (false, t)
            end) as [neg body].
  destruct (parse_decimal body) as [[m ex]|]; [discriminate|].
  destruct (_ || _); [discriminate|].
  destruct (_ =? _)%string; [discriminate | congruence].
Qed.

Lemma float_of_raises v e :
  float_of v = Raise e -> ValueError_or_TypeError e = true \/ e = OverflowError.
Proof.
  destruct v as [|z|f|s]; simpl.
  - intros [= <-]. auto.
  - destruct (is_infinity _); [intros [= <-]; auto | discriminate].
  - discriminate.
  - intros Hs. apply float_of_str_raises in Hs as ->. auto.
Qed.

(** ** The currency conversion *)

(** The older script reads no currency table: every project has a currency
    (rupees for "IN", dollars otherwise). *)
Lemma legacy_currency_always_found pn :
  truthy (Some (Legacy.get_currency_by_pn pn)) = true.
Proof. unfold Legacy.get_currency_by_pn. destruct (pn =? "IN")%string; reflexivity. Qed.

Section ConversionFacts.

Variable db : Store.

Lemma queries_query_project_entity pn :
  queries (query_project_entity db pn) = [SelectProject pn].
Proof.
  unfold query_project_entity. rewrite queries_catch_all, queries_bind.
  cbn [execute queries value snd fst].
  destruct (select_project db pn) as [[cell|]|e]; try reflexivity.
  destruct cell as [|z|f|s]; try reflexivity;
    rewrite queries_bind; unfold lift, queries, value; cbn [fst snd];
    match goal with |- context [float_of ?v] => destruct (float_of v) end;
    reflexivity.
Qed.

(** In the v1 script, a conversion that looks the currency of the project up
    and gets nothing back ([None] or the empty string; the lookup itself
    never raises) returns a record with [cost_usd = 0.0] and
    [currency = None].  The premise on the log says that the call got as far
    as the lookup. *)
Lemma unresolved_currency_v1 dates v p c :
  In (SelectCurrency p) (queries (currency_to_usd_with_details db dates v (Some p))) ->
  value (get_currency_by_pn db p) = Ok c ->
  truthy c = false ->
  exists r, value (currency_to_usd_with_details db dates v (Some p)) = Ok r
            /\ cost_usd r = 0%float /\ currency r = None.
Proof.
  intros Hlog Hc Hfalse.
  destruct (conversion_outcomes db dates v (Some p))
    as [[_ Hout] | (p' & pe & Hp & Hnone & Hpe & Hrest)].
  { eexists; split; [exact Hout | split; reflexivity]. }
  injection Hp as <-. cbv zeta in Hrest.
  destruct Hrest as [(e & Hf & Hout) | (f & c' & Hf & Hc' & Hrest)].
  - (* the amount was refused before the currency was looked up *)
    exfalso. revert Hlog. unfold currency_to_usd_with_details.
    rewrite Hnone, queries_bind, queries_query_project_entity, Hpe, Hf.
    destruct (ValueError_or_TypeError e); cbn; intros [Hq | []]; discriminate.
  - rewrite Hc in Hc'. injection Hc' as <-.
    destruct Hrest as [[_ Hout] | (cur & lu & _ & Htrue & _)]; [|congruence].
    eexists; split; [exact Hout | split; reflexivity].
Qed.

(** C9.  In the v1 script, a record returned with a [cost_usd] that is not
    zero has its currency, its rate and its extra rate filled in, and the rate
    is not zero. *)
Theorem nonzero_cost_has_metadata dates v pn r :
  value (currency_to_usd_with_details db dates v pn) = Ok r ->
  nonzero (cost_usd r) = true ->
  exists cur rt extra,
    currency r = Some cur /\ rate r = Some rt /\ extra_rate r = Some extra
    /\ nonzero rt = true.
Proof.
  intros Hr Hnz.
  destruct (conversion_outcomes db dates v pn)
    as [[_ Hout] | (p & pe & _ & _ & _ & Hrest)]; cbv zeta in *.
  { rewrite Hr in Hout. injection Hout as ->. discriminate Hnz. }
  destruct Hrest as [(e & _ & Hout) | (f & c & _ & _ & Hrest)].
  { rewrite Hr in Hout. destruct (ValueError_or_TypeError e); [|discriminate].
    injection Hout as ->. discriminate Hnz. }
  destruct Hrest as [[_ Hout] | (cur & lu & _ & _ & _ & Hrest)].
  { rewrite Hr in Hout. injection Hout as ->. discriminate Hnz. }
  destruct Hrest as [[_ Hout] | (rt & _ & [[_ Hout] | [Hrt Hout]])];
    rewrite Hr in Hout; injection Hout as ->; try discriminate Hnz.
  exists cur, rt, (extra_rate_of pe). auto.
Qed.



(** C6.  In the v1 script, when the currency of the project is found and the
    rate (looked up, or the default for INR) is not zero,
    [cost_usd = round(amount * extra_rate / rate, 2)], with [extra_rate] 1.0
    when the project has no entity; and for 1000, 1.1 and 80.0 this is
    exactly 13.75. *)
Theorem resolved_conversion_rounds_quotient dates v p f pe cur looked_up rt :
  float_of v = Ok f ->
  value (query_project_entity db p) = Ok pe ->
  value (get_currency_by_pn db p) = Ok (Some cur) ->
  truthy (Some cur) = true ->
  value (query_rate_entity db dates "USD" cur) = Ok looked_up ->
  rate_or_default cur looked_up = Some rt ->
  nonzero rt = true ->
  value (currency_to_usd_with_details db dates v (Some p))
  = Ok {| cost_usd := round2 (f * extra_rate_of pe / rt)%float;
          currency := Some cur; rate := Some rt;
          extra_rate := Some (extra_rate_of pe) |}
  /\ round2 (1000 * 1.1 / 80)%float = 13.75%float.
Proof.
  intros Hf Hpe Hc Htrue Hlu Hrt Hnz. split; [|reflexivity].
  destruct (conversion_outcomes db dates v (Some p))
    as [[[Hnone|Hp] _] | (p' & pe' & Hp & _ & Hpe' & Hrest)]; cbv zeta in *.
  { destruct v; discriminate. }
  { discriminate. }
  injection Hp as <-. rewrite Hpe in Hpe'. injection Hpe' as <-.
  destruct Hrest as [(e & Hf' & _) | (f' & c & Hf' & Hc' & Hrest)]; [congruence|].
  rewrite Hf in Hf'. injection Hf' as <-.
  rewrite Hc in Hc'. injection Hc' as <-.
  destruct Hrest as [[Hfalse _] | (cur' & lu & Hcur & _ & Hlu' & Hrest)]; [congruence|].
  injection Hcur as <-. rewrite Hlu in Hlu'. injection Hlu' as <-.
  destruct Hrest as [[Hnone _] | (rt' & Hrt' & [[Hz _] | [_ Hout]])];
    [congruence | congruence |].
  rewrite Hrt in Hrt'. injection Hrt' as <-. exact Hout.
Qed.

(** C5, amended.  When the rate table has no row for the currency: the v1
    script goes on with 78.5 when the currency is INR in any letter case, and
    for any other currency (written in ASCII) returns a zero cost with the
    currency set and [rate = None].  The older script, whose currency is
    INR for project "IN" and USD for every other project, goes on with 78.5
    for INR too, and for USD returns the amount as it came, unconverted,
    with its default rate 1.0. *)
Theorem missing_rate_fallback dates v p pe :
  value (query_project_entity db p) = Ok pe ->
  (forall f cur,
     float_of v = Ok f ->
     value (get_currency_by_pn db p) = Ok (Some cur) ->
     truthy (Some cur) = true ->
     value (query_rate_entity db dates "USD" cur) = Ok None ->
     (upper cur = "INR" ->
        value (currency_to_usd_with_details db dates v (Some p))
        = Ok {| cost_usd := round2 (f * extra_rate_of pe / 78.5)%float;
                currency := Some cur; rate := Some 78.5%float;
                extra_rate := Some (extra_rate_of pe) |})
     /\ (isascii cur = true -> upper cur <> "INR" ->
        value (currency_to_usd_with_details db dates v (Some p))
        = Ok {| cost_usd := 0; currency := Some cur; rate := None;
                extra_rate := Some (extra_rate_of pe) |}))
  /\ (forall extra_money,
       Legacy.times v (extra_rate_of pe) = Ok extra_money ->
       value (query_rate_entity db dates "USD" (Legacy.get_currency_by_pn p)) = Ok None ->
       (p = "IN" ->
          value (Legacy.currency_to_usd_with_details db dates v (Some p))
          = Ok {| Legacy.cost_usd := PFloat (round2 (extra_money / 78.5)%float);
                  Legacy.currency := "INR"; Legacy.rate := 78.5%float;
                  Legacy.extra_rate := extra_rate_of pe |})
       /\ (p <> "IN" ->
          value (Legacy.currency_to_usd_with_details db dates v (Some p))
          = Ok {| Legacy.cost_usd := v; Legacy.currency := "USD";
                  Legacy.rate := 1; Legacy.extra_rate := extra_rate_of pe |})).
Proof.
  intros Hpe. split.
  - intros f cur Hf Hc Htrue Hlu.
    assert (Hnone : is_none v = false) by (destruct v; [discriminate|reflexivity..]).
    assert (Hv1 :
      value (currency_to_usd_with_details db dates v (Some p))
      = match rate_or_default cur None with
        | Some r =>
            if nonzero r
            then Ok {| cost_usd := round2 (f * extra_rate_of pe / r)%float;
                       currency := Some cur; rate := Some r;
                       extra_rate := Some (extra_rate_of pe) |}
            else Ok {| cost_usd := 0; currency := Some cur; rate := Some r;
                       extra_rate := Some (extra_rate_of pe) |}
        | None => Ok {| cost_usd := 0; currency := Some cur; rate := None;
                        extra_rate := Some (extra_rate_of pe) |}
        end).
    { unfold currency_to_usd_with_details.
      rewrite Hnone, value_bind, Hpe, Hf, value_bind, Hc, Htrue. cbn [negb].
      rewrite value_bind, Hlu.
      destruct (rate_or_default cur None) as [r|]; [|reflexivity].
      destruct (nonzero r); reflexivity. }
    unfold rate_or_default in Hv1. split.
    + intros Hinr. rewrite Hv1. apply String.eqb_eq in Hinr. rewrite Hinr. reflexivity.
    + intros _ Hother. rewrite Hv1. apply String.eqb_neq in Hother. rewrite Hother.
      reflexivity.
  - intros extra_money Ht Hlu.
    assert (Hnone : is_none v = false).
    { destruct v; [discriminate Ht|reflexivity..]. }
    assert (Hlegacy :
      value (Legacy.currency_to_usd_with_details db dates v (Some p))
      = match rate_or_default (Legacy.get_currency_by_pn p) None with
        | Some r =>
            if nonzero r
            then Ok {| Legacy.cost_usd := PFloat (round2 (extra_money / r)%float);
                       Legacy.currency := Legacy.get_currency_by_pn p;
                       Legacy.rate := r; Legacy.extra_rate := extra_rate_of pe |}
            else Ok {| Legacy.cost_usd := v;
                       Legacy.currency := Legacy.get_currency_by_pn p;
                       Legacy.rate := r; Legacy.extra_rate := extra_rate_of pe |}
        | None => Ok {| Legacy.cost_usd := v;
                        Legacy.currency := Legacy.get_currency_by_pn p;
                        Legacy.rate := 1; Legacy.extra_rate := extra_rate_of pe |}
        end).
    { unfold Legacy.currency_to_usd_with_details.
      rewrite Hnone, value_bind, Hpe, value_bind. unfold lift at 1, value at 1.
      cbn [fst]. rewrite Ht, legacy_currency_always_found. cbn [negb].
      rewrite value_bind, Hlu.
      destruct (rate_or_default _ None) as [r|]; [|reflexivity].
      destruct (nonzero r); reflexivity. }
    split.
    + intros ->. rewrite Hlegacy. reflexivity.
    + intros Hother. rewrite Hlegacy. unfold Legacy.get_currency_by_pn.
      apply String.eqb_neq in Hother. rewrite Hother. reflexivity.
Qed.

(** C10.  In the v1 script, when the ledger sum is not zero and [pn] is
    [None], both cost calculations return [cost_usd = 0.0] next to an
    [original_cost] equal to the ledger sum. *)
Theorem unresolved_pn_keeps_original_cost dates campaign_id channel cost :
  (value (query_campaign_cost db dates campaign_id) = Ok cost ->
   PrimFloat.eqb cost 0 = false ->
   value (calculate_campaign_cost_with_details db dates campaign_id None)
   = Ok {| ci_cost_usd := 0; original_cost := cost; ci_currency := None;
           ci_rate := None; ci_extra_rate := None |})
  /\ (value (query_campaign_cost_by_channel db dates campaign_id channel) = Ok cost ->
      PrimFloat.eqb cost 0 = false ->
      value (calculate_campaign_cost_with_channel_details db dates campaign_id channel None)
      = Ok {| ci_cost_usd := 0; original_cost := cost; ci_currency := None;
              ci_rate := None; ci_extra_rate := None |}).
Proof.
  split; intros Hcost Hnz.
  - unfold calculate_campaign_cost_with_details.
    rewrite value_catch_all, value_bind, Hcost, Hnz, value_catch_all.
    reflexivity.
  - unfold calculate_campaign_cost_with_channel_details.
    rewrite value_catch_all, value_bind, Hcost, Hnz. reflexivity.
Qed.

(** C7.  Both cost lookups return 0.0 with an empty query log when
    [campaign_id] is [None], empty or blank; they return 0.0 when no row
    comes back, when the sum is [NULL] and when the query raises; and they
    never raise. *)
Theorem cost_lookups_default_to_zero dates campaign_id channel :
  ((campaign_id = None \/ exists c, campaign_id = Some c /\ strip c = "") ->
     query_campaign_cost db dates campaign_id = (Ok 0%float, [])
     /\ query_campaign_cost_by_channel db dates campaign_id channel = (Ok 0%float, []))
  /\ (forall c, campaign_id = Some c ->
       (sum_cost_by_campaign db dates c = Ok None
        \/ sum_cost_by_campaign db dates c = Ok (Some PNone)
        \/ exists e, sum_cost_by_campaign db dates c = Raise e) ->
       value (query_campaign_cost db dates campaign_id) = Ok 0%float)
  /\ (forall c, campaign_id = Some c ->
       (sum_cost_by_campaign_channel db dates c channel = Ok None
        \/ sum_cost_by_campaign_channel db dates c channel = Ok (Some PNone)
        \/ exists e, sum_cost_by_campaign_channel db dates c channel = Raise e) ->
       value (query_campaign_cost_by_channel db dates campaign_id channel) = Ok 0%float)
  /\ (exists cost, value (query_campaign_cost db dates campaign_id) = Ok cost)
  /\ (exists cost,
        value (query_campaign_cost_by_channel db dates campaign_id channel) = Ok cost).
Proof.
  split; [|split; [|split; [|split]]].
  - intros [-> | (c & -> & Hblank)]; [split; reflexivity|].
    unfold query_campaign_cost, query_campaign_cost_by_channel.
    rewrite Hblank, orb_true_r. split; reflexivity.
  - intros c -> Hanswer. unfold query_campaign_cost.
    destruct (_ || _); [reflexivity|].
    rewrite value_catch_all, value_bind. cbn [execute value fst].
    destruct Hanswer as [-> | [-> | [e ->]]]; reflexivity.
  - intros c -> Hanswer. unfold query_campaign_cost_by_channel.
    destruct (_ || _); [reflexivity|].
    rewrite value_catch_all, value_bind. cbn [execute value fst].
    destruct Hanswer as [-> | [-> | [e ->]]]; reflexivity.
  - apply query_campaign_cost_returns.
  - apply query_campaign_cost_by_channel_returns.
Qed.

End ConversionFacts.

(** C2.  A conversion whose lookup of the project's currency returns nothing
    returns [cost_usd = 0.0] and [currency = None]; the amount is not passed
    through.  This is the v1 script.  In the older script the lookup
    [get_currency_by_pn] always returns a currency, so that none of its
    conversions is one where the currency cannot be found (its pass-through
    branch is never taken). *)
Theorem unresolved_currency_zero_cost :
  (forall db dates v p c,
     In (SelectCurrency p) (queries (currency_to_usd_with_details db dates v (Some p))) ->
     value (get_currency_by_pn db p) = Ok c ->
     truthy c = false ->
     exists r, value (currency_to_usd_with_details db dates v (Some p)) = Ok r
               /\ cost_usd r = 0%float /\ currency r = None)
  /\ (forall pn, truthy (Some (Legacy.get_currency_by_pn pn)) = true).
Proof. split; [exact unresolved_currency_v1 | exact legacy_currency_always_found]. Qed.

(** *** The conversion at sample stores *)

Lemma unresolved_currency_zero_cost_witness :
  exists r,
    value (currency_to_usd_with_details
             (store_with (Some "IN") None (Some (PFloat 80)))
             "2025-11-10" (PFloat 1000) (Some "IN")) = Ok r
    /\ cost_usd r = 0%float /\ currency r = None.
Proof.
  apply (proj1 unresolved_currency_zero_cost _ _ _ _ None);
    [vm_compute; auto | reflexivity | reflexivity].
Defined.

Lemma nonzero_cost_has_metadata_witness :
  exists cur rt extra,
    Some "INR"%string = Some cur /\ Some 80%float = Some rt
    /\ Some 1.1%float = Some extra /\ nonzero rt = true.
Proof.
  exact (nonzero_cost_has_metadata rupee_store "2025-11-10" (PInt 1000) (Some "IN")
           {| cost_usd := 13.75; currency := Some "INR"; rate := Some 80%float;
              extra_rate := Some 1.1%float |}
           eq_refl eq_refl).
Defined.

(** C4 at sample stores: an [int] amount beyond the float range makes
    [float(source_money)] raise [OverflowError], which the handler for
    [ValueError] and [TypeError] lets through; an amount that is no number
    is caught, whatever the store does. *)
Lemma conversion_raises_on_huge_int :
  value (currency_to_usd_with_details rupee_store "2025-11-10"
           (PInt (10 ^ 400)) (Some "IN"))
  = Raise OverflowError.
Proof. vm_compute. reflexivity. Qed.

(** Where the range of a float ends for an [int]: the largest [int] that
    rounds to a float, and the next one. *)
Lemma float_of_int_at_the_end_of_the_range :
  float_of (PInt (2 ^ 1024 - 2 ^ 970 - 1)) = Ok 0x1.fffffffffffffp+1023%float
  /\ float_of (PInt (2 ^ 1024 - 2 ^ 970)) = Raise OverflowError
  /\ float_of (PInt (- (2 ^ 1024 - 2 ^ 970))) = Raise OverflowError.
Proof. repeat split; vm_compute; reflexivity. Qed.

Lemma conversion_of_text_at_broken_store :
  value (currency_to_usd_with_details broken_store "2025-11-10"
           (PStr "n/a") (Some "IN"))
  = Ok {| cost_usd := 0; currency := None; rate := None; extra_rate := Some 1%float |}.
Proof. vm_compute. reflexivity. Qed.


Lemma resolved_conversion_rounds_quotient_witness :
  value (currency_to_usd_with_details rupee_store "2025-11-10" (PInt 1000) (Some "IN"))
  = Ok {| cost_usd := 13.75; currency := Some "INR"; rate := Some 80%float;
          extra_rate := Some 1.1%float |}.
Proof.
  exact (proj1 (resolved_conversion_rounds_quotient rupee_store "2025-11-10"
                  (PInt 1000) "IN" 1000%float (Some {| pe_extra_rate := 1.1 |})
                  "INR" (Some 80%float) 80%float
                  eq_refl eq_refl eq_refl eq_refl eq_refl eq_refl eq_refl)).
Defined.

(** C5, as stated, fails on the older script: with no rate for a currency
    other than INR it returns the amount as it came, and [rate] is its
    default 1.0, not [None]. *)
Lemma legacy_passes_amount_through_without_rate :
  value (Legacy.currency_to_usd_with_details
           (store_with (Some "US") (Some "USD") None)
           "2025-11-10" (PFloat 100) (Some "US"))
  = Ok {| Legacy.cost_usd := PFloat 100; Legacy.currency := "USD";
          Legacy.rate := 1; Legacy.extra_rate := 1.1 |}.
Proof. vm_compute. reflexivity. Qed.

Lemma missing_rate_fallback_witness :
  value (currency_to_usd_with_details (store_with (Some "IN") (Some "inr") None)
           "2025-11-10" (PFloat 785) (Some "IN"))
  = Ok {| cost_usd := 11; currency := Some "inr"; rate := Some 78.5%float;
          extra_rate := Some 1.1%float |}.
Proof.
  exact (proj1 (proj1 (missing_rate_fallback
                         (store_with (Some "IN") (Some "inr") None)
                         "2025-11-10" (PFloat 785) "IN"
                         (Some {| pe_extra_rate := 1.1 |}) eq_refl)
                        785%float "inr" eq_refl eq_refl eq_refl eq_refl)
               eq_refl).
Defined.

Lemma unresolved_pn_keeps_original_cost_witness :
  value (calculate_campaign_cost_with_details rupee_store "2025-11-10" (Some "c-17") None)
  = Ok {| ci_cost_usd := 0; original_cost := 1000; ci_currency := None;
          ci_rate := None; ci_extra_rate := None |}
  /\ value (calculate_campaign_cost_with_channel_details rupee_store "2025-11-10"
              (Some "c-17") "fb_in" None)
     = Ok {| ci_cost_usd := 0; original_cost := 1000; ci_currency := None;
             ci_rate := None; ci_extra_rate := None |}.
Proof.
  pose proof (unresolved_pn_keeps_original_cost rupee_store "2025-11-10" (Some "c-17")
                "fb_in" 1000%float) as [Hplain Hchannel].
  split; [apply Hplain | apply Hchannel]; reflexivity.
Defined.

Lemma cost_lookups_default_to_zero_witness :
  query_campaign_cost rupee_store "2025-11-10" (Some "   ") = (Ok 0%float, [])
  /\ query_campaign_cost_by_channel rupee_store "2025-11-10" (Some "   ") "fb_in"
     = (Ok 0%float, []).
Proof.
  apply (proj1 (cost_lookups_default_to_zero rupee_store "2025-11-10" (Some "   ") "fb_in")).
  right. exists "   "%string. split; reflexivity.
Defined.

(** ** Successful runs *)

(** Inversion of a successful computation, one [bind] at a time. *)
Ltac invert_binds :=
  repeat match goal with
         | H : value (bind _ _) = Ok _ |- _ =>
             let a := fresh "a" in
             let Ha := fresh "Ha" in
             apply bind_Ok in H as (a & Ha & H); cbn beta in H
         | H : value (let '(_, _) := ?p in _) = Ok _ |- _ => destruct p
         end.

Lemma value_ret {A} (a b : A) : value (ret a) = Ok b -> a = b.
Proof. intros [= ->]. reflexivity. Qed.

Lemma getitem_Ok {V} (d : gmap string V) key v :
  value (getitem d key) = Ok v -> d !! key = Some v.
Proof. unfold getitem. destruct (d !! key); [intros [= ->]; reflexivity | discriminate]. Qed.

Lemma value_getitem {V} (d : gmap string V) key v :
  d !! key = Some v -> value (getitem d key) = Ok v.
Proof. unfold getitem. intros ->. reflexivity. Qed.

(** ** The grouping loop *)

Section GroupMapFacts.

Context {R : Type} (head_of : R -> row_head).

Implicit Types (row : R) (rows : list R) (group_map : list (string * list R)).

Lemma group_rows_of_append key key' row group_map :
  group_rows_of key (group_append key' row group_map)
  = if decide (key' = key) then
      Ok (match group_rows_of key group_map with Ok l => l | Raise _ => [] end ++ [row])
    else group_rows_of key group_map.
Proof.
  induction group_map as [|[k l] group_map IH]; simpl.
  - destruct (String.eqb_spec key' key), (decide (key' = key)); congruence.
  - destruct (String.eqb_spec k key') as [->|Hk]; simpl.
    + destruct (String.eqb_spec key' key), (decide (key' = key)); congruence.
    + destruct (String.eqb_spec k key) as [->|Hk'].
      * destruct (decide (key' = key)); congruence.
      * apply IH.
Qed.

Lemma keys_append key row group_map :
  map fst (group_append key row group_map)
  = if decide (key ∈ map fst group_map) then map fst group_map
    else map fst group_map ++ [key].
Proof.
  induction group_map as [|[k l] group_map IH].
  - destruct (decide (key ∈ map fst [])) as [Hin|_]; [inversion Hin | reflexivity].
  - cbn [group_append map fst]. destruct (String.eqb_spec k key) as [->|Hk].
    + destruct (decide (key ∈ key :: map fst group_map)) as [_|Hout]; [reflexivity|].
      exfalso. apply Hout. left.
    + cbn [map fst]. rewrite IH.
      destruct (decide (key ∈ map fst group_map)) as [Hin|Hout];
        destruct (decide (key ∈ k :: map fst group_map)) as [Hin'|Hout']; try reflexivity.
      * exfalso. apply Hout'. right. assumption.
      * exfalso. apply elem_of_cons in Hin' as [->|Hin']; contradiction.
Qed.

Lemma grouped_step seen group_map row :
  grouped head_of seen group_map ->
  grouped head_of (seen ++ [row]) (group_append (group_key (head_of row)) row group_map).
Proof.
  intros (Hnodup & Hkeys & Hrows). unfold grouped, rows_of_key in *.
  rewrite keys_append. split; [|split].
  - case_decide as Hout; [assumption|].
    apply NoDup_app. split; [assumption|]. split; [|apply NoDup_singleton].
    intros k Hk ->%list_elem_of_singleton. contradiction.
  - intros key. rewrite filter_app, filter_cons, filter_nil.
    destruct (decide (group_key (head_of row) = key)) as [<-|Hne].
    + split; [intros _; destruct (filter _ seen); discriminate|].
      intros _. case_decide as Hout; [assumption|].
      apply elem_of_app. right. left.
    + rewrite app_nil_r, <- Hkeys.
      case_decide as Hout; [reflexivity|].
      rewrite elem_of_app, list_elem_of_singleton. split; [|tauto].
      intros [Hin|Heq]; [assumption | congruence].
  - intros key. rewrite group_rows_of_append, filter_app, filter_cons, filter_nil.
    destruct (decide (group_key (head_of row) = key)) as [<-|Hne].
    + rewrite Hrows. destruct (filter _ seen); reflexivity.
    + rewrite app_nil_r. apply Hrows.
Qed.

(** The first loop groups the rows by key, each group in input order. *)
Lemma build_group_map_grouped rows : grouped head_of rows (build_group_map head_of rows).
Proof.
  unfold build_group_map.
  assert (Hgen : forall seen group_map,
    grouped head_of seen group_map ->
    grouped head_of (seen ++ rows)
      (fold_left (fun gm row => group_append (group_key (head_of row)) row gm)
                 rows group_map)).
  { induction rows as [|row rows IH]; intros seen gm Hgm; simpl.
    - rewrite app_nil_r. assumption.
    - replace (seen ++ row :: rows) with ((seen ++ [row]) ++ rows)
        by (rewrite <- app_assoc; reflexivity).
      apply IH, grouped_step, Hgm. }
  apply (Hgen [] []). split; [constructor|]. split.
  - intros key. split; [intros Hin; inversion Hin | intros Hne; contradiction].
  - reflexivity.
Qed.

Lemma group_rows_of_elem key (l : list R) group_map :
  NoDup (map fst group_map) -> (key, l) ∈ group_map -> group_rows_of key group_map = Ok l.
Proof.
  induction group_map as [|[k l'] gm IH]; intros Hnodup Hin; [inversion Hin|].
  apply NoDup_cons in Hnodup as [Hnew Hnodup]. cbn [group_rows_of].
  apply elem_of_cons in Hin as [[= <- <-]|Hin].
  - rewrite String.eqb_refl. reflexivity.
  - destruct (String.eqb_spec k key) as [->|_]; [|apply IH; assumption].
    exfalso. apply Hnew. apply list_elem_of_fmap. exists (key, l). auto.
Qed.

(** An entry of the dictionary holds the rows of its key, and there is one. *)
Lemma group_rows_of_Ok_elem key (l : list R) group_map :
  group_rows_of key group_map = Ok l -> (key, l) ∈ group_map.
Proof.
  induction group_map as [|[k l'] gm IH]; [discriminate|]. cbn [group_rows_of].
  destruct (String.eqb_spec k key) as [->|_].
  - intros [= ->]. left.
  - intros Hl. right. apply IH, Hl.
Qed.

Lemma grouped_item rows group_map key l :
  grouped head_of rows group_map -> (key, l) ∈ group_map ->
  l = rows_of_key head_of key rows /\ l <> [].
Proof.
  intros (Hnodup & _ & Hrows) Hin.
  pose proof (group_rows_of_elem _ _ _ Hnodup Hin) as Hl. rewrite Hrows in Hl.
  destruct (rows_of_key head_of key rows); [discriminate|].
  injection Hl as <-. split; [reflexivity | discriminate].
Qed.

Lemma first_row_head (l : list R) r : first_row l = Ok r -> head l = Some r.
Proof. destruct l; [discriminate | intros [= ->]; reflexivity]. Qed.

(** The first row of a group has the key of the group. *)
Lemma grouped_base_key rows group_map key l base_row :
  grouped head_of rows group_map -> (key, l) ∈ group_map ->
  first_row l = Ok base_row -> group_key (head_of base_row) = key.
Proof.
  intros Hgm Hin Hbase. destruct (grouped_item _ _ _ _ Hgm Hin) as [-> _].
  apply first_row_head, head_Some_elem_of in Hbase.
  unfold rows_of_key in Hbase. apply list_elem_of_filter in Hbase as [Hkey _]. exact Hkey.
Qed.

Lemma costs_sound_insert cost_of group_map costs key l base_row cost :
  (key, l) ∈ group_map -> first_row l = Ok base_row -> cost_of base_row cost ->
  costs_sound cost_of group_map costs ->
  costs_sound cost_of group_map (<[key := cost]> costs).
Proof.
  intros Hin Hbase Hcost Hsound k c. rewrite lookup_insert.
  case_decide as Hk; [|apply Hsound].
  intros [= <-]. subst k. eauto.
Qed.

(** Reading the cost of a row's group gives the cost of the first row, in
    input order, that has the key of the row. *)
Lemma costs_sound_lookup cost_of rows group_map costs key l base_row cost :
  grouped head_of rows group_map ->
  costs_sound cost_of group_map costs ->
  group_rows_of key group_map = Ok l -> first_row l = Ok base_row ->
  costs !! key = Some cost ->
  head (rows_of_key head_of key rows) = Some base_row /\ cost_of base_row cost.
Proof.
  intros Hgm Hsound Hl Hbase Hcost.
  destruct (Hsound _ _ Hcost) as (l' & b' & Hin & Hb' & Hc).
  destruct Hgm as (Hnodup & Hkeys & Hrows).
  rewrite (group_rows_of_elem _ _ _ Hnodup Hin) in Hl. injection Hl as ->.
  rewrite Hbase in Hb'. injection Hb' as <-. split; [|assumption].
  pose proof (group_rows_of_elem _ _ _ Hnodup Hin) as Hl. rewrite Hrows in Hl.
  destruct (rows_of_key head_of key rows); [discriminate|].
  injection Hl as ->. apply first_row_head, Hbase.
Qed.

End GroupMapFacts.

(** ** Rows as objects *)

(** The head of a filtered list is the first element that passes. *)
Lemma head_filter_first {A} (P : A -> Prop) `{forall x, Decision (P x)} (l : list A) x :
  List.head (filter P l) = Some x ->
  exists j, l !! j = Some x /\ P x
            /\ forall i y, (i < j)%nat -> l !! i = Some y -> ~ P y.
Proof.
  induction l as [|a l IH]; [discriminate|].
  rewrite filter_cons. destruct (decide (P a)) as [Ha|Ha].
  - intros [= <-]. exists 0%nat. split; [reflexivity|]. split; [assumption|].
    intros i y Hi. lia.
  - intros Hhead. destruct (IH Hhead) as (j & Hj & Hx & Hbefore).
    exists (S j). split; [exact Hj|]. split; [assumption|].
    intros [|i] y Hi; [intros [= <-]; assumption|].
    cbn. apply Hbefore. lia.
Qed.

Section ObjectFacts.

Context {R : Type}.

Implicit Types (rows : list R) (x : object R).

Lemma lookup_objects rows i :
  objects rows !! i = (fun row => {| place := i; this := row |}) <$> rows !! i.
Proof. apply list_lookup_imap. Qed.

Lemma lookup_objects_Some rows i x :
  objects rows !! i = Some x <-> place x = i /\ rows !! i = Some (this x).
Proof.
  rewrite lookup_objects. destruct (rows !! i) as [row|]; cbn.
  - split.
    + intros [= <-]. split; reflexivity.
    + intros [<- [= ->]]. destruct x; reflexivity.
  - split; [discriminate | intros [_ [=]]].
Qed.

Lemma elem_of_objects rows x : x ∈ objects rows <-> rows !! place x = Some (this x).
Proof.
  rewrite list_elem_of_lookup. split.
  - intros [i [<- Hrow]%lookup_objects_Some]. exact Hrow.
  - intros Hrow. exists (place x). apply lookup_objects_Some. auto.
Qed.

Lemma this_objects rows : map this (objects rows) = rows.
Proof.
  apply list_eq. intros i.
  change (map this (objects rows)) with (this <$> objects rows).
  rewrite list_lookup_fmap, lookup_objects.
  destruct (rows !! i); reflexivity.
Qed.

Lemma length_objects rows : length (objects rows) = length rows.
Proof. apply length_imap. Qed.

Lemma objects_nil rows : objects rows = [] <-> rows = [].
Proof.
  split; [|intros ->; reflexivity].
  intros Hnil. apply length_zero_iff_nil. rewrite <- length_objects, Hnil. reflexivity.
Qed.

(** A property of every row at its place is a property of every object. *)
Lemma Forall2_objects {B} (P : object R -> B -> Prop) rows (out : list B) :
  Forall2 P (objects rows) out ->
  Forall2 (fun row o => exists i, rows !! i = Some row
                                  /\ P {| place := i; this := row |} o) rows out.
Proof.
  intros Hall. apply Forall2_same_length_lookup. split.
  - rewrite <- (length_objects rows). eapply Forall2_length, Hall.
  - intros i row o Hrow Ho. exists i. split; [exact Hrow|].
    eapply Forall2_lookup_lr; [exact Hall| |exact Ho].
    apply lookup_objects_Some. auto.
Qed.

Lemma Forall2_objects_this {B} (P : R -> B -> Prop) rows (out : list B) :
  Forall2 (fun x o => P (this x) o) (objects rows) out -> Forall2 P rows out.
Proof.
  intros Hall. apply Forall2_objects in Hall.
  eapply Forall2_impl; [exact Hall|]. intros row o (i & _ & HP). exact HP.
Qed.

(** The first row of a key is the row of that key no row of the key comes
    before. *)
Lemma first_of_key_Some (head_of : R -> row_head) key rows x :
  first_of_key head_of key rows = Some x ->
  rows !! place x = Some (this x)
  /\ group_key (head_of (this x)) = key
  /\ forall j row, (j < place x)%nat -> rows !! j = Some row ->
                   group_key (head_of row) <> key.
Proof.
  unfold first_of_key, rows_of_key. intros Hhead.
  apply head_filter_first in Hhead as (j & [Hplace Hrow]%lookup_objects_Some & Hkey & Hbefore).
  subst j. split; [exact Hrow|]. split; [exact Hkey|].
  intros j row Hlt Hj.
  apply (Hbefore j {| place := j; this := row |} Hlt).
  apply lookup_objects_Some. auto.
Qed.

End ObjectFacts.

(** ** The attribution engines *)

Section EngineFacts.

Variable db : Store.

Lemma lift_Ok {A} (r : result A) a : value (lift r) = Ok a -> r = Ok a.
Proof. exact id. Qed.

Lemma cache_pn_sound cache ch cache' :
  pn_cache_sound db cache ->
  value (cache_pn db cache ch) = Ok cache' ->
  pn_cache_sound db cache' /\ is_Some (cache' !! ch).
Proof.
  intros Hsound. unfold cache_pn.
  destruct (cache !! ch) as [pn|] eqn:Hch.
  - intros Hret. apply value_ret in Hret as <-. split; [assumption | eauto].
  - intros Hbind. apply bind_Ok in Hbind as (pn & Hpn & Hret).
    apply value_ret in Hret as <-. split.
    + intros ch' pn'. rewrite lookup_insert.
      case_decide as Heq; [intros [= <-]; subst; assumption | apply Hsound].
    + rewrite lookup_insert_eq. eauto.
Qed.

(** *** The CDAP engine *)

Lemma cdap_group_step_sound gm st item st' :
  item ∈ gm ->
  pn_cache_sound db (channel_pn_cache st) ->
  costs_sound (fun b => cdap_group_cost db (this b)) gm (group_costs st) ->
  value (cdap_group_step db st item) = Ok st' ->
  pn_cache_sound db (channel_pn_cache st')
  /\ costs_sound (fun b => cdap_group_cost db (this b)) gm (group_costs st').
Proof.
  intros Hitem Hsound Hcosts. unfold cdap_group_step. destruct item as [key group_rows].
  intros Hstep. invert_binds. apply value_ret in Hstep as <-. cbn.
  match goal with H : value (cache_pn _ _ _) = Ok _ |- _ =>
    apply (cache_pn_sound _ _ _ Hsound) in H as [Hsound' _] end.
  split; [assumption|].
  eapply costs_sound_insert; [exact Hitem | apply lift_Ok; eassumption | | assumption].
  match goal with H : value (getitem _ _) = Ok ?pn |- _ =>
    apply getitem_Ok, Hsound' in H; exists pn end.
  split; assumption.
Qed.

Lemma cdap_groups_loop_sound gm items : forall st st',
  (forall item, item ∈ items -> item ∈ gm) ->
  pn_cache_sound db (channel_pn_cache st) ->
  costs_sound (fun b => cdap_group_cost db (this b)) gm (group_costs st) ->
  value (for_each (cdap_group_step db) items st) = Ok st' ->
  pn_cache_sound db (channel_pn_cache st')
  /\ costs_sound (fun b => cdap_group_cost db (this b)) gm (group_costs st').
Proof.
  induction items as [|item items IH]; intros st st' Hsub Hsound Hcosts Hloop.
  - apply value_ret in Hloop as <-. auto.
  - cbn [for_each] in Hloop. apply bind_Ok in Hloop as (st1 & Hstep & Hloop).
    eapply cdap_group_step_sound in Hstep as [Hsound1 Hcosts1]; try eassumption.
    + eapply IH; try eassumption. intros i Hi. apply Hsub. right. assumption.
    + apply Hsub. left.
Qed.

Lemma cdap_row_step_processed rows gm st acc row st' acc' :
  grouped (fun r => cdap_head (this r)) (objects rows) gm ->
  pn_cache_sound db (channel_pn_cache st) ->
  costs_sound (fun b => cdap_group_cost db (this b)) gm (group_costs st) ->
  value (cdap_row_step db gm (st, acc) row) = Ok (st', acc') ->
  pn_cache_sound db (channel_pn_cache st')
  /\ group_costs st' = group_costs st
  /\ exists o, acc' = acc ++ [o] /\ cdap_processed db rows row o.
Proof.
  intros Hgm Hsound Hcosts. unfold cdap_row_step.
  intros Hstep. invert_binds.
  apply value_ret in Hstep. injection Hstep as <- <-. cbn.
  match goal with H : value (cache_pn _ _ _) = Ok _ |- _ =>
    apply (cache_pn_sound _ _ _ Hsound) in H as [Hsound' _] end.
  split; [assumption|]. split; [reflexivity|].
  eexists. split; [reflexivity|]. split; [reflexivity|]. cbn. split.
  - match goal with
    | Hg : value (lift (group_rows_of _ gm)) = Ok ?l,
      Hb : value (lift (first_row ?l)) = Ok ?b,
      Hc : value (getitem (group_costs st) _) = Ok ?c |- _ =>
        apply lift_Ok in Hg, Hb; apply getitem_Ok in Hc;
        destruct (costs_sound_lookup _ _ _ _ _ _ _ _ _ Hgm Hcosts Hg Hb Hc);
        exists b, c
    end.
    auto.
  - match goal with H : value (getitem _ (channel _)) = Ok ?pn |- _ =>
      match type of pn with option string =>
        apply getitem_Ok, Hsound' in H; exists pn end end.
    eauto 10.
Qed.

Lemma cdap_rows_loop_processed all_rows gm rows : forall st acc st' out,
  grouped (fun r => cdap_head (this r)) (objects all_rows) gm ->
  pn_cache_sound db (channel_pn_cache st) ->
  costs_sound (fun b => cdap_group_cost db (this b)) gm (group_costs st) ->
  value (for_each (cdap_row_step db gm) rows (st, acc)) = Ok (st', out) ->
  exists outs, out = acc ++ outs /\ Forall2 (cdap_processed db all_rows) rows outs.
Proof.
  induction rows as [|row rows IH]; intros st acc st' out Hgm Hsound Hcosts Hloop.
  - apply value_ret in Hloop. injection Hloop as <- <-.
    exists []. split; [symmetry; apply app_nil_r | constructor].
  - cbn [for_each] in Hloop. apply bind_Ok in Hloop as ([st1 acc1] & Hstep & Hloop).
    eapply cdap_row_step_processed in Hstep as (Hsound1 & Hsame & o & -> & Ho);
      try eassumption.
    apply IH in Hloop as (outs & -> & Hall); try assumption;
      [|rewrite Hsame; assumption].
    exists (o :: outs). split; [rewrite <- app_assoc; reflexivity|].
    constructor; assumption.
Qed.

(** Every row the CDAP engine returns is the processed form of the input
    row at its place. *)
Lemma process_cdap_processed rows out :
  value (process_cdap_data_with_cost db rows) = Ok out ->
  Forall2 (cdap_processed db rows) (objects rows) out.
Proof.
  intros Hrun.
  destruct rows as [|row rows]; [apply value_ret in Hrun as <-; constructor|].
  unfold process_cdap_data_with_cost in Hrun.
  apply bind_Ok in Hrun as (st & Hgroups & Hrun).
  apply bind_Ok in Hrun as ([st' outs] & Hrows & Hret).
  apply value_ret in Hret as <-.
  pose proof (build_group_map_grouped (fun r => cdap_head (this r))
                (objects (row :: rows))) as Hgm.
  eapply cdap_groups_loop_sound in Hgroups as [Hsound Hcosts].
  - eapply cdap_rows_loop_processed in Hrows as (outs' & -> & Hall); eassumption.
  - auto.
  - intros ch pn Hin; cbn in Hin; rewrite lookup_empty in Hin; discriminate.
  - intros key cost Hin; cbn in Hin; rewrite lookup_empty in Hin; discriminate.
Qed.

(** *** The ADS engine *)

Lemma ads_group_step_sound gm st item st' :
  item ∈ gm -> ads_state_sound db gm st ->
  value (ads_group_step db st item) = Ok st' -> ads_state_sound db gm st'.
Proof.
  intros Hitem [Hwithout Hwith]. unfold ads_group_step.
  destruct item as [key group_rows].
  intros Hstep. invert_binds. apply value_ret in Hstep as <-.
  split; cbn;
    (eapply costs_sound_insert;
       [exact Hitem | apply lift_Ok; eassumption | eassumption | assumption]).
Qed.

Lemma ads_groups_loop_sound gm items : forall st st',
  (forall item, item ∈ items -> item ∈ gm) -> ads_state_sound db gm st ->
  value (for_each (ads_group_step db) items st) = Ok st' -> ads_state_sound db gm st'.
Proof.
  induction items as [|item items IH]; intros st st' Hsub Hsound Hloop.
  - apply value_ret in Hloop as <-. assumption.
  - cbn [for_each] in Hloop. apply bind_Ok in Hloop as (st1 & Hstep & Hloop).
    eapply IH; [| |exact Hloop].
    + intros i Hi. apply Hsub. right. assumption.
    + eapply ads_group_step_sound; [|eassumption..]. apply Hsub. left.
Qed.

Lemma ads_row_step_processed rows gm st acc row acc' :
  grouped (fun r => ads_head (this r)) (objects rows) gm -> ads_state_sound db gm st ->
  value (ads_row_step db gm st acc row) = Ok acc' ->
  exists o, acc' = acc ++ [o] /\ ads_processed db rows row o.
Proof.
  intros Hgm [Hwithout Hwith]. unfold ads_row_step. intros Hstep. invert_binds.
  apply value_ret in Hstep as <-.
  eexists. split; [reflexivity|]. split; [reflexivity|]. cbn. split; [|eauto 10].
  match goal with
  | Hg : value (lift (group_rows_of _ gm)) = Ok ?l,
    Hb : value (lift (first_row ?l)) = Ok ?b,
    H1 : value (getitem (group_costs_without_channel st) _) = Ok ?c1,
    H2 : value (getitem (group_costs_with_channel st) _) = Ok ?c2 |- _ =>
      apply lift_Ok in Hg, Hb; apply getitem_Ok in H1, H2;
      destruct (costs_sound_lookup _ _ _ _ _ _ _ _ _ Hgm Hwithout Hg Hb H1);
      destruct (costs_sound_lookup _ _ _ _ _ _ _ _ _ Hgm Hwith Hg Hb H2);
      exists b, c1, c2
  end.
  auto 10.
Qed.

Lemma ads_rows_loop_processed all_rows gm st rows : forall acc out,
  grouped (fun r => ads_head (this r)) (objects all_rows) gm -> ads_state_sound db gm st ->
  value (for_each (ads_row_step db gm st) rows acc) = Ok out ->
  exists outs, out = acc ++ outs /\ Forall2 (ads_processed db all_rows) rows outs.
Proof.
  induction rows as [|row rows IH]; intros acc out Hgm Hsound Hloop.
  - apply value_ret in Hloop as <-. exists [].
    split; [symmetry; apply app_nil_r | constructor].
  - cbn [for_each] in Hloop. apply bind_Ok in Hloop as (acc' & Hstep & Hloop).
    eapply ads_row_step_processed in Hstep as (o & -> & Ho); try eassumption.
    apply IH in Hloop as (outs & -> & Hall); try assumption.
    exists (o :: outs). split; [rewrite <- app_assoc; reflexivity|].
    constructor; assumption.
Qed.

(** Every row the ADS engine returns is the processed form of the input row
    at its place. *)
Lemma process_ads_processed rows out :
  value (process_ads_data_with_cost db rows) = Ok out ->
  Forall2 (ads_processed db rows) (objects rows) out.
Proof.
  intros Hrun.
  destruct rows as [|row rows]; [apply value_ret in Hrun as <-; constructor|].
  unfold process_ads_data_with_cost in Hrun.
  apply bind_Ok in Hrun as (st & Hgroups & Hrun).
  pose proof (build_group_map_grouped (fun r => ads_head (this r))
                (objects (row :: rows))) as Hgm.
  eapply ads_groups_loop_sound in Hgroups.
  - eapply ads_rows_loop_processed in Hrun as (outs & -> & Hall); eassumption.
  - auto.
  - split; intros key cost Hin; cbn in Hin; rewrite lookup_empty in Hin; discriminate.
Qed.

(** *** The engines return *)

Lemma conversion_of_float_returns d x pn :
  exists r, value (currency_to_usd_with_details db d (PFloat x) pn) = Ok r.
Proof.
  destruct (conversion_outcomes db d (PFloat x) pn)
    as [[_ Hout] | (p & pe & _ & _ & _ & Hrest)]; cbv zeta in *; [eauto|].
  destruct Hrest as [(e & Hf & _) | (f & c & _ & _ & Hrest)]; [discriminate Hf|].
  destruct Hrest as [[_ Hout] | (cur & lu & _ & _ & _ & Hrest)]; [eauto|].
  destruct Hrest as [[_ Hout] | (rt & _ & [[_ Hout] | [_ Hout]])]; eauto.
Qed.

Lemma calculate_campaign_cost_with_details_returns d c pn :
  exists r, value (calculate_campaign_cost_with_details db d c pn) = Ok r.
Proof.
  unfold calculate_campaign_cost_with_details. rewrite value_catch_all.
  destruct (value _); eauto.
Qed.

Lemma calculate_campaign_cost_with_channel_details_returns d c ch pn :
  exists r, value (calculate_campaign_cost_with_channel_details db d c ch pn) = Ok r.
Proof.
  unfold calculate_campaign_cost_with_channel_details. rewrite value_catch_all.
  destruct (value _); eauto.
Qed.

Lemma cache_channel_total_cost_returns cache d ch pn :
  exists cache',
    value (cache_channel_total_cost db cache d ch pn) = Ok cache'
    /\ is_Some (cache' !! ch)
    /\ forall ch', is_Some (cache !! ch') -> is_Some (cache' !! ch').
Proof.
  unfold cache_channel_total_cost. destruct (cache !! ch) as [c|] eqn:Hch.
  - exists cache. split; [reflexivity|]. split; [rewrite Hch; eauto | auto].
  - rewrite value_bind.
    destruct (query_channel_total_cost_returns db d ch) as [total ->].
    destruct (_ && _).
    + rewrite value_bind.
      destruct (conversion_of_float_returns d total pn) as [info ->].
      eexists. split; [reflexivity|]. split; [rewrite lookup_insert_eq; eauto|].
      intros ch' Hsome. rewrite lookup_insert. case_decide; eauto.
    + eexists. split; [reflexivity|]. split; [rewrite lookup_insert_eq; eauto|].
      intros ch' Hsome. rewrite lookup_insert. case_decide; eauto.
Qed.

Lemma recharge_conversion_of_returns d x pn :
  exists conv, value (recharge_conversion_of db d x pn) = Ok conv.
Proof.
  unfold recharge_conversion_of. destruct (_ && _); [apply conversion_of_float_returns|].
  destruct pn as [p|]; [|simpl; eauto]. destruct (truthy (Some p)); [|simpl; eauto].
  rewrite value_bind. destruct (get_currency_by_pn_returns db p) as [c ->].
  rewrite value_bind. destruct (query_project_entity_returns db p) as [pe ->].
  rewrite value_bind.
  assert (Hrate : exists r,
    value match c with
          | Some cur => if truthy c then query_rate_entity db d "USD" cur else ret None
          | None => ret None
          end = Ok r).
  { destruct c as [cur|]; [|simpl; eauto].
    destruct (truthy (Some cur)); [apply query_rate_entity_returns | simpl; eauto]. }
  destruct Hrate as [r ->]. simpl. eauto.
Qed.

(** A cell that [float] turns into a float or refuses with [ValueError] or
    [TypeError]: anything but an [int] beyond the float range. *)
Lemma day_recharge_of_returns cell :
  recharge_fits cell ->
  exists x, value (day_recharge_of cell) = Ok x.
Proof.
  intros Hov. unfold day_recharge_of, try_except, lift, value.
  destruct (float_of (or_zero cell)) as [x|e] eqn:Hf; [simpl; eauto|].
  destruct (float_of_raises _ _ Hf) as [-> | ->]; [simpl; eauto | contradiction].
Qed.

(** **** The ADS engine *)

Lemma ads_group_step_returns st key l :
  l <> [] ->
  exists st',
    value (ads_group_step db st (key, l)) = Ok st'
    /\ ads_has_costs st' key
    /\ forall k, ads_has_costs st k -> ads_has_costs st' k.
Proof.
  intros Hl. destruct l as [|base_row l]; [contradiction|].
  unfold ads_group_step. rewrite value_bind. cbn [lift value fst first_row].
  rewrite value_bind.
  destruct (cache_channel_total_cost_returns (ads_channel_total_cost_cache st)
              (dates (ads_head (this base_row))) (channel (ads_head (this base_row)))
              (ads_pn (this base_row))) as (cache & -> & _).
  rewrite value_bind.
  destruct (calculate_campaign_cost_with_details_returns
              (dates (ads_head (this base_row))) (campaign_id (ads_head (this base_row)))
              (ads_pn (this base_row))) as [c1 ->].
  rewrite value_bind.
  destruct (calculate_campaign_cost_with_channel_details_returns
              (dates (ads_head (this base_row))) (campaign_id (ads_head (this base_row)))
              (channel (ads_head (this base_row))) (ads_pn (this base_row))) as [c2 ->].
  eexists. split; [reflexivity|]. unfold ads_has_costs. cbn. split.
  - rewrite !lookup_insert_eq. eauto.
  - intros k [H1 H2]. rewrite !lookup_insert. case_decide; eauto.
Qed.

Lemma ads_groups_loop_returns items : forall st,
  (forall key l, (key, l) ∈ items -> l <> []) ->
  exists st',
    value (for_each (ads_group_step db) items st) = Ok st'
    /\ (forall key, key ∈ map fst items -> ads_has_costs st' key)
    /\ forall k, ads_has_costs st k -> ads_has_costs st' k.
Proof.
  induction items as [|[key l] items IH]; intros st Hitems.
  - exists st. split; [reflexivity|]. split; [intros k Hk; inversion Hk | auto].
  - cbn [for_each]. rewrite value_bind.
    destruct (ads_group_step_returns st key l) as (st1 & -> & Hkey & Hmono);
      [apply (Hitems key); left|].
    destruct (IH st1) as (st' & Hloop & Hkeys & Hmono').
    { intros k l' Hin. apply (Hitems k). right. assumption. }
    exists st'. split; [assumption|]. split.
    + intros k [->|Hk]%elem_of_cons; [apply Hmono', Hkey | apply Hkeys, Hk].
    + intros k Hk. apply Hmono', Hmono, Hk.
Qed.

Lemma ads_row_step_returns gm st acc row l :
  group_rows_of (group_key (ads_head (this row))) gm = Ok l -> l <> [] ->
  ads_has_costs st (group_key (ads_head (this row))) ->
  recharge_fits (ads_day_recharge (this row)) ->
  exists acc', value (ads_row_step db gm st acc row) = Ok acc'.
Proof.
  intros Hl Hne [[c1 Hc1] [c2 Hc2]] Hov. unfold ads_row_step.
  rewrite value_bind. cbn [lift value fst]. rewrite Hl.
  destruct l as [|base_row l]; [contradiction|].
  rewrite value_bind. cbn [lift value fst first_row].
  rewrite value_bind, (value_getitem _ _ _ Hc1).
  rewrite value_bind, (value_getitem _ _ _ Hc2).
  rewrite value_bind. destruct (day_recharge_of_returns _ Hov) as [x ->].
  rewrite value_bind.
  destruct (recharge_conversion_of_returns (dates (ads_head (this row))) x (ads_pn (this row)))
    as [conv ->].
  eexists. reflexivity.
Qed.

Lemma process_ads_nonempty rows :
  rows <> [] ->
  process_ads_data_with_cost db rows =
  let group_map := build_group_map (fun r => ads_head (this r)) (objects rows) in
  do st <- for_each (ads_group_step db) group_map
             {| group_costs_without_channel := ∅; group_costs_with_channel := ∅;
                ads_channel_total_cost_cache := ∅ |} ;;
  for_each (ads_row_step db group_map st) (objects rows) [].
Proof. destruct rows; [contradiction | reflexivity]. Qed.

(** The ADS engine returns, unless the recharge of a row is an [int] too
    large for a float. *)
Lemma process_ads_returns rows :
  Forall (fun row => recharge_fits (ads_day_recharge row)) rows ->
  exists out, value (process_ads_data_with_cost db rows) = Ok out.
Proof.
  intros Hcells. destruct (decide (rows = [])) as [->|Hne]; [simpl; eauto|].
  rewrite (process_ads_nonempty rows Hne).
  set (head_of := fun r : object ads_row => ads_head (this r)).
  set (gm := build_group_map head_of (objects rows)).
  pose proof (build_group_map_grouped head_of (objects rows)) as Hgm. fold gm in Hgm.
  cbv zeta. rewrite value_bind.
  destruct (ads_groups_loop_returns gm
              {| group_costs_without_channel := ∅; group_costs_with_channel := ∅;
                 ads_channel_total_cost_cache := ∅ |})
    as (st & -> & Hkeys & _).
  { intros key l Hin. eapply grouped_item; eassumption. }
  assert (Hloop : forall todo acc,
    (forall row, row ∈ todo -> row ∈ objects rows) ->
    exists out, value (for_each (ads_row_step db gm st) todo acc) = Ok out).
  { induction todo as [|row todo IH]; intros acc Hsub; [simpl; eauto|].
    cbn [for_each]. rewrite value_bind.
    assert (Hrow : row ∈ objects rows) by (apply Hsub; left).
    destruct Hgm as (Hnodup & Hin & Hgroup).
    assert (Hmine : rows_of_key head_of (group_key (head_of row)) (objects rows) <> []).
    { intros Hnil.
      assert (Hrow' : row ∈ rows_of_key head_of (group_key (head_of row)) (objects rows))
        by (apply list_elem_of_filter; auto).
      rewrite Hnil in Hrow'. inversion Hrow'. }
    destruct (ads_row_step_returns gm st acc row
                (rows_of_key head_of (group_key (head_of row)) (objects rows)))
      as [acc' ->].
    - rewrite Hgroup. destruct (rows_of_key _ _ (objects rows)); [contradiction | reflexivity].
    - assumption.
    - apply Hkeys, Hin, Hmine.
    - rewrite Forall_forall in Hcells. apply Hcells.
      apply elem_of_objects, list_elem_of_lookup_2 in Hrow. exact Hrow.
    - apply IH. intros r Hr. apply Hsub. right. assumption. }
  apply Hloop. auto.
Qed.

(** **** The CDAP engine *)

Lemma cache_pn_returns cache ch :
  exists cache', value (cache_pn db cache ch) = Ok cache' /\ is_Some (cache' !! ch).
Proof.
  unfold cache_pn. destruct (cache !! ch) as [pn|] eqn:Hch.
  - exists cache. split; [reflexivity | rewrite Hch; eauto].
  - rewrite value_bind. destruct (get_pn_by_channel_returns db ch) as [pn ->].
    eexists. split; [reflexivity|]. rewrite lookup_insert_eq. eauto.
Qed.

Lemma cdap_group_step_returns st key l :
  l <> [] ->
  exists st',
    value (cdap_group_step db st (key, l)) = Ok st'
    /\ cdap_has_costs st' (key, l)
    /\ forall item, cdap_has_costs st item -> cdap_has_costs st' item.
Proof.
  intros Hl. destruct l as [|base_row l]; [contradiction|].
  unfold cdap_group_step. rewrite value_bind. cbn [lift value fst first_row].
  rewrite value_bind.
  destruct (cache_pn_returns (channel_pn_cache st) (channel (cdap_head (this base_row))))
    as (pns & -> & [pn Hpn]).
  rewrite value_bind, (value_getitem _ _ _ Hpn).
  rewrite value_bind.
  destruct (cache_channel_total_cost_returns (channel_total_cost_cache st)
              (dates (cdap_head (this base_row))) (channel (cdap_head (this base_row))) pn)
    as (totals & -> & Hmine & Hmono).
  rewrite value_bind.
  destruct (calculate_campaign_cost_with_channel_details_returns
              (dates (cdap_head (this base_row))) (campaign_id (cdap_head (this base_row)))
              (channel (cdap_head (this base_row))) pn) as [cost ->].
  eexists. split; [reflexivity|]. unfold cdap_has_costs. cbn. split.
  - split; [rewrite lookup_insert_eq; eauto|]. intros b [= <-]. exact Hmine.
  - intros item [Hcost Htotal]. split.
    + rewrite lookup_insert. case_decide; eauto.
    + intros b Hb. apply Hmono, Htotal, Hb.
Qed.

Lemma cdap_groups_loop_returns items : forall st,
  (forall key l, (key, l) ∈ items -> l <> []) ->
  exists st',
    value (for_each (cdap_group_step db) items st) = Ok st'
    /\ (forall item, item ∈ items -> cdap_has_costs st' item)
    /\ forall item, cdap_has_costs st item -> cdap_has_costs st' item.
Proof.
  induction items as [|[key l] items IH]; intros st Hitems.
  - exists st. split; [reflexivity|]. split; [intros k Hk; inversion Hk | auto].
  - cbn [for_each]. rewrite value_bind.
    destruct (cdap_group_step_returns st key l) as (st1 & -> & Hkey & Hmono);
      [apply (Hitems key); left|].
    destruct (IH st1) as (st' & Hloop & Hkeys & Hmono').
    { intros k l' Hin. apply (Hitems k). right. assumption. }
    exists st'. split; [assumption|]. split.
    + intros item [->|Hk]%elem_of_cons; [apply Hmono', Hkey | apply Hkeys, Hk].
    + intros item Hk. apply Hmono', Hmono, Hk.
Qed.

Lemma cdap_row_step_returns gm st acc row l :
  group_rows_of (group_key (cdap_head (this row))) gm = Ok l -> l <> [] ->
  is_Some (group_costs st !! group_key (cdap_head (this row))) ->
  is_Some (channel_total_cost_cache st !! channel (cdap_head (this row))) ->
  recharge_fits (cdap_day_recharge (this row)) ->
  exists st' acc',
    value (cdap_row_step db gm (st, acc) row) = Ok (st', acc')
    /\ group_costs st' = group_costs st
    /\ channel_total_cost_cache st' = channel_total_cost_cache st.
Proof.
  intros Hl Hne [cost Hcost] [total Htotal] Hov. unfold cdap_row_step.
  rewrite value_bind. cbn [lift value fst]. rewrite Hl.
  destruct l as [|base_row l]; [contradiction|].
  rewrite value_bind. cbn [lift value fst first_row].
  rewrite value_bind, (value_getitem _ _ _ Hcost).
  rewrite value_bind.
  destruct (cache_pn_returns (channel_pn_cache st) (channel (cdap_head (this row))))
    as (pns & -> & [pn Hpn]).
  rewrite value_bind, (value_getitem _ _ _ Hpn).
  rewrite value_bind. destruct (day_recharge_of_returns _ Hov) as [x ->].
  rewrite value_bind.
  destruct (recharge_conversion_of_returns (dates (cdap_head (this row))) x pn) as [conv ->].
  rewrite value_bind, (value_getitem _ _ _ Htotal).
  do 2 eexists. split; [reflexivity|]. split; reflexivity.
Qed.

Lemma process_cdap_nonempty rows :
  rows <> [] ->
  process_cdap_data_with_cost db rows =
  let group_map := build_group_map (fun r => cdap_head (this r)) (objects rows) in
  do st <- for_each (cdap_group_step db) group_map
             {| group_costs := ∅; channel_pn_cache := ∅;
                channel_total_cost_cache := ∅ |} ;;
  do final <- for_each (cdap_row_step db group_map) (objects rows) (st, []) ;;
  ret (snd final).
Proof. destruct rows; [contradiction | reflexivity]. Qed.

(** The CDAP engine returns when the rows that share a key share their
    channel, unless the recharge of a row is an [int] too large for a
    float. *)
Lemma process_cdap_returns rows :
  one_channel_per_key rows ->
  Forall (fun row => recharge_fits (cdap_day_recharge row)) rows ->
  exists out, value (process_cdap_data_with_cost db rows) = Ok out.
Proof.
  intros Hchannel Hcells. destruct (decide (rows = [])) as [->|Hne]; [simpl; eauto|].
  rewrite (process_cdap_nonempty rows Hne).
  set (head_of := fun r : object cdap_row => cdap_head (this r)).
  set (gm := build_group_map head_of (objects rows)).
  pose proof (build_group_map_grouped head_of (objects rows)) as Hgm. fold gm in Hgm.
  cbv zeta. rewrite value_bind.
  destruct (cdap_groups_loop_returns gm
              {| group_costs := ∅; channel_pn_cache := ∅;
                 channel_total_cost_cache := ∅ |})
    as (st & -> & Hitems & _).
  { intros key l Hin. eapply grouped_item; eassumption. }
  assert (Hloop : forall todo st' acc,
    (forall row, row ∈ todo -> row ∈ objects rows) ->
    group_costs st' = group_costs st ->
    channel_total_cost_cache st' = channel_total_cost_cache st ->
    exists final, value (for_each (cdap_row_step db gm) todo (st', acc)) = Ok final).
  { induction todo as [|row todo IH]; intros st' acc Hsub Hcosts Htotals; [simpl; eauto|].
    cbn [for_each]. rewrite value_bind.
    assert (Hrow : row ∈ objects rows) by (apply Hsub; left).
    pose proof Hgm as (_ & _ & Hgroup).
    specialize (Hgroup (group_key (head_of row))).
    destruct (rows_of_key head_of (group_key (head_of row)) (objects rows))
      as [|base_row l] eqn:Hmine.
    { assert (Hrow' : row ∈ rows_of_key head_of (group_key (head_of row)) (objects rows))
        by (apply list_elem_of_filter; auto).
      rewrite Hmine in Hrow'. inversion Hrow'. }
    destruct (Hitems _ (group_rows_of_Ok_elem _ _ _ Hgroup)) as [Hcost Htotal].
    assert (Hbase : base_row ∈ rows_of_key head_of (group_key (head_of row)) (objects rows))
      by (rewrite Hmine; left).
    apply list_elem_of_filter in Hbase as [Hkey Hbase].
    apply elem_of_objects, list_elem_of_lookup_2 in Hrow, Hbase.
    destruct (cdap_row_step_returns gm st' acc row (base_row :: l))
      as (st2 & acc2 & -> & Hcosts2 & Htotals2).
    - exact Hgroup.
    - discriminate.
    - rewrite Hcosts. exact Hcost.
    - rewrite Htotals, <- (Hchannel (this base_row) (this row) Hbase Hrow Hkey).
      apply Htotal. reflexivity.
    - rewrite Forall_forall in Hcells. apply Hcells, Hrow.
    - apply IH.
      + intros r Hr. apply Hsub. right. assumption.
      + congruence.
      + congruence. }
  rewrite value_bind.
  destruct (Hloop (objects rows) st [] (fun _ H => H) eq_refl eq_refl) as [final ->].
  simpl. eauto.
Qed.

(** C8, amended.  In both engines the recharge columns of every processed
    row come from that row alone: the amount is [float] of its own
    [day_recharge] cell (0.0 for [NULL] and for a cell [float] refuses), and
    the converted amount is the conversion of that amount on the row's own
    date with the project of the row (ADS) or of the row's channel (CDAP).
    Neither the position of the row in its group nor any other row takes
    part.  Rows come out in the order they went in.  The engines do return:
    the ADS engine whenever no recharge cell is an [int] too large for a
    float, the CDAP engine when moreover rows of one key have one channel. *)
Theorem recharge_depends_on_own_row_only :
  (forall rows,
     one_channel_per_key rows ->
     Forall (fun row => recharge_fits (cdap_day_recharge row)) rows ->
     exists out, value (process_cdap_data_with_cost db rows) = Ok out)
  /\ (forall rows out,
     value (process_cdap_data_with_cost db rows) = Ok out ->
     Forall2 (fun row o =>
       out_head o = cdap_head row
       /\ exists pn day_recharge conv,
         value (get_pn_by_channel db (channel (cdap_head row))) = Ok pn
         /\ value (day_recharge_of (cdap_day_recharge row)) = Ok day_recharge
         /\ value (recharge_conversion_of db (dates (cdap_head row)) day_recharge pn)
            = Ok conv
         /\ col11 o = cost_usd conv /\ col12 o = day_recharge) rows out)
  /\ (forall rows,
     Forall (fun row => recharge_fits (ads_day_recharge row)) rows ->
     exists out, value (process_ads_data_with_cost db rows) = Ok out)
  /\ (forall rows out,
     value (process_ads_data_with_cost db rows) = Ok out ->
     Forall2 (fun row o =>
       out_head o = ads_head row
       /\ exists day_recharge conv,
         value (day_recharge_of (ads_day_recharge row)) = Ok day_recharge
         /\ value (recharge_conversion_of db (dates (ads_head row)) day_recharge
                                          (ads_pn row)) = Ok conv
         /\ col11 o = cost_usd conv /\ col12 o = day_recharge) rows out).
Proof.
  split; [exact process_cdap_returns|]. split; [|split; [exact process_ads_returns|]].
  - intros rows out Hrun. apply process_cdap_processed in Hrun.
    apply Forall2_objects_this.
    eapply Forall2_impl; [exact Hrun|]. intros row o (Hhead & _ & Hrecharge). auto.
  - intros rows out Hrun. apply process_ads_processed in Hrun.
    apply Forall2_objects_this.
    eapply Forall2_impl; [exact Hrun|]. intros row o (Hhead & _ & Hrecharge). auto.
Qed.

End EngineFacts.

(** ** How often the cost of a group is looked up *)

Section LogFacts.

Lemma lookups_app l1 l2 :
  group_cost_lookups (l1 ++ l2) = group_cost_lookups l1 ++ group_cost_lookups l2.
Proof. apply omap_app. Qed.

Lemma lookups_bind {A B} (m : M A) (k : A -> M B) :
  group_cost_lookups (queries (bind m k))
  = group_cost_lookups (queries m)
    ++ match value m with
       | Ok a => group_cost_lookups (queries (k a))
       | Raise _ => []
       end.
Proof. rewrite queries_bind, lookups_app. destruct (value m); reflexivity. Qed.

Lemma quiet_bind {A B} (m : M A) (k : A -> M B) :
  quiet m -> (forall a, quiet (k a)) -> quiet (bind m k).
Proof.
  unfold quiet. intros Hm Hk. rewrite lookups_bind, Hm.
  destruct (value m); [apply Hk | reflexivity].
Qed.

Lemma quiet_try_except {A} catches (m h : M A) :
  quiet m -> quiet h -> quiet (try_except catches m h).
Proof.
  unfold quiet, try_except, queries. destruct m as [[a|e] log]; [auto|].
  destruct (catches e); [|auto]. destruct h as [r log']. cbn [snd].
  intros Hm Hh. rewrite lookups_app, Hm, Hh. reflexivity.
Qed.

Lemma quiet_lift {A} (r : result A) : quiet (lift r).
Proof. reflexivity. Qed.

Lemma quiet_getitem {V} (d : gmap string V) key : quiet (getitem d key).
Proof. unfold getitem. destruct (d !! key); reflexivity. Qed.

Lemma quiet_for_each {A S} (step : S -> A -> M S) l :
  (forall st a, quiet (step st a)) -> forall st, quiet (for_each step l st).
Proof.
  intros Hstep. induction l as [|a l IH]; intros st; [reflexivity|].
  apply quiet_bind; auto.
Qed.

End LogFacts.

Create HintDb quiet.

#[local] Hint Resolve quiet_getitem : quiet.

(** Splits a computation along its [bind]s, [try]s and case distinctions,
    and closes the parts that run no cost query. *)
Ltac quiet_steps :=
  repeat first
    [ reflexivity
    | solve [auto with quiet]
    | apply quiet_bind; [|intro]
    | apply quiet_try_except
    | match goal with
      | |- quiet (match ?x with _ => _ end) => destruct x
      | |- quiet (let '(_, _) := ?x in _) => destruct x
      end ].

Section QuietLookups.

Variable db : Store.

Lemma quiet_query_project_entity pn : quiet (query_project_entity db pn).
Proof. unfold query_project_entity. quiet_steps. Qed.

Lemma quiet_query_rate_entity d b s : quiet (query_rate_entity db d b s).
Proof. unfold query_rate_entity. quiet_steps. Qed.

Lemma quiet_get_currency_by_pn pn : quiet (get_currency_by_pn db pn).
Proof. unfold get_currency_by_pn. quiet_steps. Qed.

Lemma quiet_get_pn_by_channel ch : quiet (get_pn_by_channel db ch).
Proof. unfold get_pn_by_channel. quiet_steps. Qed.

Lemma quiet_query_campaign_cost d c : quiet (query_campaign_cost db d c).
Proof. unfold query_campaign_cost. quiet_steps. Qed.

Lemma quiet_query_channel_total_cost d ch : quiet (query_channel_total_cost db d ch).
Proof. unfold query_channel_total_cost. quiet_steps. Qed.

Hint Resolve quiet_query_project_entity quiet_query_rate_entity
  quiet_get_currency_by_pn quiet_get_pn_by_channel quiet_query_campaign_cost
  quiet_query_channel_total_cost : quiet.

Lemma quiet_currency_to_usd_with_details d v pn :
  quiet (currency_to_usd_with_details db d v pn).
Proof. unfold currency_to_usd_with_details. quiet_steps. Qed.

Hint Resolve quiet_currency_to_usd_with_details : quiet.

Lemma quiet_calculate_campaign_cost_with_details d c pn :
  quiet (calculate_campaign_cost_with_details db d c pn).
Proof. unfold calculate_campaign_cost_with_details. quiet_steps. Qed.

Lemma quiet_cache_pn cache ch : quiet (cache_pn db cache ch).
Proof. unfold cache_pn. quiet_steps. Qed.

Lemma quiet_cache_channel_total_cost cache d ch pn :
  quiet (cache_channel_total_cost db cache d ch pn).
Proof. unfold cache_channel_total_cost. quiet_steps. Qed.

Lemma quiet_day_recharge_of cell : quiet (day_recharge_of cell).
Proof. unfold day_recharge_of. quiet_steps. Qed.

Lemma quiet_recharge_conversion_of d x pn : quiet (recharge_conversion_of db d x pn).
Proof. unfold recharge_conversion_of. quiet_steps. Qed.

Hint Resolve quiet_calculate_campaign_cost_with_details quiet_cache_pn
  quiet_cache_channel_total_cost quiet_day_recharge_of
  quiet_recharge_conversion_of : quiet.

Lemma quiet_cdap_row_step gm acc row : quiet (cdap_row_step db gm acc row).
Proof. unfold cdap_row_step. quiet_steps. Qed.

Lemma quiet_ads_row_step gm st acc row : quiet (ads_row_step db gm st acc row).
Proof. unfold ads_row_step. quiet_steps. Qed.

End QuietLookups.


(** A loop over the groups whose body looks a cost up at most once, and
    only for the key of the group at hand, looks no cost up twice. *)
Lemma lookups_once_per_key {R S : Type} (step : S -> string * list R -> M S) items :
  (forall st item, (length (group_cost_lookups (queries (step st item))) <= 1)%nat) ->
  (forall st key l t,
     (key, l) ∈ items -> t ∈ group_cost_lookups (queries (step st (key, l))) ->
     key_of_lookup t = key) ->
  NoDup (map fst items) ->
  forall st,
    NoDup (group_cost_lookups (queries (for_each step items st)))
    /\ forall t, t ∈ group_cost_lookups (queries (for_each step items st)) ->
                 key_of_lookup t ∈ map fst items.
Proof.
  intros Hone Hkey. induction items as [|[key l] items IH]; intros Hnodup st.
  - split; [constructor | intros t Ht; inversion Ht].
  - apply NoDup_cons in Hnodup as [Hnew Hnodup]. cbn [for_each].
    rewrite lookups_bind.
    assert (Hrest : forall st1,
      NoDup (group_cost_lookups (queries (for_each step items st1)))
      /\ forall t, t ∈ group_cost_lookups (queries (for_each step items st1)) ->
                   key_of_lookup t ∈ map fst items).
    { apply IH; [|assumption]. intros st1 k l' t Hin. apply Hkey. right. assumption. }
    assert (Hhere : forall t, t ∈ group_cost_lookups (queries (step st (key, l))) ->
                              key_of_lookup t = key).
    { intros t. apply Hkey. left. }
    specialize (Hone st (key, l)).
    destruct (group_cost_lookups (queries (step st (key, l)))) as [|t [|t' ts]];
      [| |simpl in Hone; lia].
    + destruct (value (step st (key, l))) as [st1|e].
      * destruct (Hrest st1) as [Hnd Hin]. split; [assumption|].
        intros t Ht. right. apply Hin, Ht.
      * split; [constructor | intros t Ht; inversion Ht].
    + assert (Ht : key_of_lookup t = key) by (apply Hhere; left).
      destruct (value (step st (key, l))) as [st1|e].
      * destruct (Hrest st1) as [Hnd Hin]. split.
        -- constructor; [|assumption]. intros Hdup. apply Hin in Hdup.
           rewrite Ht in Hdup. contradiction.
        -- intros t' [->|Ht']%elem_of_cons; [rewrite Ht; left | right; apply Hin, Ht'].
      * split; [apply NoDup_singleton|].
        intros t' ->%list_elem_of_singleton. rewrite Ht. left.
Qed.

Section LookupCount.

Variable db : Store.

Lemma lookups_query_campaign_cost_by_channel d c ch :
  group_cost_lookups (queries (query_campaign_cost_by_channel db d c ch)) = []
  \/ exists c', c = Some c'
       /\ group_cost_lookups (queries (query_campaign_cost_by_channel db d c ch))
          = [(d, c', ch)].
Proof.
  unfold query_campaign_cost_by_channel. destruct c as [c'|]; [|left; reflexivity].
  destruct (_ || _); [left; reflexivity|right].
  exists c'. split; [reflexivity|].
  rewrite queries_catch_all, lookups_bind. cbn [execute queries value fst snd].
  destruct (sum_cost_by_campaign_channel db d c' ch) as [[cell|]|e]; reflexivity.
Qed.

Lemma lookups_calculate_campaign_cost_with_channel_details d c ch pn :
  group_cost_lookups
    (queries (calculate_campaign_cost_with_channel_details db d c ch pn)) = []
  \/ exists c', c = Some c'
       /\ group_cost_lookups
            (queries (calculate_campaign_cost_with_channel_details db d c ch pn))
          = [(d, c', ch)].
Proof.
  unfold calculate_campaign_cost_with_channel_details.
  rewrite queries_catch_all, lookups_bind.
  assert (Hrest : forall cost,
    quiet (let result := set_original_cost cost empty_cost_info in
           if PrimFloat.eqb cost 0 then ret result
           else if negb (truthy pn) then ret result
           else try_except Exception
                  (bind (currency_to_usd_with_details db d (PFloat cost) pn)
                        (fun conversion_result => ret (update result conversion_result)))
                  (ret result))).
  { intros cost. cbv zeta. destruct (PrimFloat.eqb cost 0); [reflexivity|].
    destruct (negb (truthy pn)); [reflexivity|].
    apply quiet_try_except; [|reflexivity].
    apply quiet_bind; [apply quiet_currency_to_usd_with_details | reflexivity]. }
  cbv zeta in Hrest. unfold quiet in Hrest.
  destruct (value (query_campaign_cost_by_channel db d c ch)) as [cost|e].
  - rewrite !Hrest, !app_nil_r. apply lookups_query_campaign_cost_by_channel.
  - rewrite !app_nil_r. apply lookups_query_campaign_cost_by_channel.
Qed.

(** The CDAP loop body looks up the cost of the group at hand, at most once. *)
Lemma lookups_cdap_group_step st key l L :
  group_cost_lookups (queries (cdap_group_step db st (key, l))) = L ->
  L = []
  \/ exists base_row c,
       first_row l = Ok base_row /\ campaign_id (cdap_head (this base_row)) = Some c
       /\ L = [(dates (cdap_head (this base_row)), c, channel (cdap_head (this base_row)))].
Proof.
  unfold cdap_group_step. rewrite lookups_bind, quiet_lift. cbn [app lift value fst].
  destruct (first_row l) as [base_row|e]; [|intros <-; left; reflexivity].
  rewrite lookups_bind, (quiet_cache_pn db). cbn [app].
  destruct (value (cache_pn _ _ _)) as [cache|e]; [|intros <-; left; reflexivity].
  rewrite lookups_bind, quiet_getitem. cbn [app].
  destruct (value (getitem _ _)) as [pn|e]; [|intros <-; left; reflexivity].
  rewrite lookups_bind, (quiet_cache_channel_total_cost db). cbn [app].
  destruct (value (cache_channel_total_cost _ _ _ _ _)) as [total|e];
    [|intros <-; left; reflexivity].
  rewrite lookups_bind.
  assert (Hret : forall A (a : A), group_cost_lookups (queries (ret a)) = [])
    by reflexivity.
  destruct (lookups_calculate_campaign_cost_with_channel_details
              (dates (cdap_head (this base_row))) (campaign_id (cdap_head (this base_row)))
              (channel (cdap_head (this base_row))) pn) as [Hnone | (c & Hc & Hone)].
  - intros <-. left. rewrite Hnone. destruct (value _); [apply Hret | reflexivity].
  - intros <-. right. exists base_row, c. split; [reflexivity|]. split; [assumption|].
    rewrite Hone. destruct (value _); [rewrite Hret|]; reflexivity.
Qed.

(** So does the ADS loop body. *)
Lemma lookups_ads_group_step st key l L :
  group_cost_lookups (queries (ads_group_step db st (key, l))) = L ->
  L = []
  \/ exists base_row c,
       first_row l = Ok base_row /\ campaign_id (ads_head (this base_row)) = Some c
       /\ L = [(dates (ads_head (this base_row)), c, channel (ads_head (this base_row)))].
Proof.
  unfold ads_group_step. rewrite lookups_bind, quiet_lift. cbn [app lift value fst].
  destruct (first_row l) as [base_row|e]; [|intros <-; left; reflexivity].
  rewrite lookups_bind, (quiet_cache_channel_total_cost db). cbn [app].
  destruct (value (cache_channel_total_cost _ _ _ _ _)) as [total|e];
    [|intros <-; left; reflexivity].
  rewrite lookups_bind, (quiet_calculate_campaign_cost_with_details db). cbn [app].
  destruct (value (calculate_campaign_cost_with_details _ _ _ _)) as [c1|e];
    [|intros <-; left; reflexivity].
  rewrite lookups_bind.
  assert (Hret : forall A (a : A), group_cost_lookups (queries (ret a)) = [])
    by reflexivity.
  destruct (lookups_calculate_campaign_cost_with_channel_details
              (dates (ads_head (this base_row))) (campaign_id (ads_head (this base_row)))
              (channel (ads_head (this base_row))) (ads_pn (this base_row))) as [Hnone | (c & Hc & Hone)].
  - intros <-. left. rewrite Hnone. destruct (value _); [apply Hret | reflexivity].
  - intros <-. right. exists base_row, c. split; [reflexivity|]. split; [assumption|].
    rewrite Hone. destruct (value _); [rewrite Hret|]; reflexivity.
Qed.

(** X1.  Each engine runs the cost query of a group, qualified by channel,
    at most once: no two such queries of a run have the same date, campaign
    and channel. *)
Lemma group_cost_looked_up_once :
  (forall rows,
     NoDup (group_cost_lookups (queries (process_cdap_data_with_cost db rows))))
  /\ (forall rows,
     NoDup (group_cost_lookups (queries (process_ads_data_with_cost db rows)))).
Proof.
  split; intros rows; (destruct rows as [|row rows]; [constructor|]).
  - unfold process_cdap_data_with_cost. cbv zeta.
    set (head_of := fun r : object cdap_row => cdap_head (this r)).
    set (gm := build_group_map head_of (objects (row :: rows))).
    pose proof (build_group_map_grouped head_of (objects (row :: rows))) as Hgm.
    fold gm in Hgm. rewrite lookups_bind.
    destruct (lookups_once_per_key (cdap_group_step db) gm) with
      (st := {| group_costs := ∅; channel_pn_cache := ∅; channel_total_cost_cache := ∅ |})
      as [Hnodup _].
    + intros st [key l]. destruct (lookups_cdap_group_step st key l _ eq_refl)
        as [-> | (b & c & _ & _ & ->)]; simpl; lia.
    + intros st key l t Hin Ht.
      destruct (lookups_cdap_group_step st key l _ eq_refl)
        as [Hnone | (b & c & Hb & Hc & Hone)].
      * rewrite Hnone in Ht. inversion Ht.
      * rewrite Hone in Ht. apply list_elem_of_singleton in Ht as ->.
        rewrite <- (grouped_base_key head_of _ _ _ _ _ Hgm Hin Hb).
        unfold group_key, key_of_lookup, head_of. rewrite Hc. reflexivity.
    + apply Hgm.
    + destruct (value (for_each _ gm _)) as [st|e]; [|rewrite app_nil_r; assumption].
      rewrite lookups_bind.
      rewrite (quiet_for_each (cdap_row_step db gm) (objects (row :: rows))
                 (fun acc r => quiet_cdap_row_step db gm acc r) (st, [])).
      destruct (value _); rewrite !app_nil_r; assumption.
  - unfold process_ads_data_with_cost. cbv zeta.
    set (head_of := fun r : object ads_row => ads_head (this r)).
    set (gm := build_group_map head_of (objects (row :: rows))).
    pose proof (build_group_map_grouped head_of (objects (row :: rows))) as Hgm.
    fold gm in Hgm. rewrite lookups_bind.
    destruct (lookups_once_per_key (ads_group_step db) gm) with
      (st := {| group_costs_without_channel := ∅; group_costs_with_channel := ∅;
                ads_channel_total_cost_cache := ∅ |})
      as [Hnodup _].
    + intros st [key l]. destruct (lookups_ads_group_step st key l _ eq_refl)
        as [-> | (b & c & _ & _ & ->)]; simpl; lia.
    + intros st key l t Hin Ht.
      destruct (lookups_ads_group_step st key l _ eq_refl)
        as [Hnone | (b & c & Hb & Hc & Hone)].
      * rewrite Hnone in Ht. inversion Ht.
      * rewrite Hone in Ht. apply list_elem_of_singleton in Ht as ->.
        rewrite <- (grouped_base_key head_of _ _ _ _ _ Hgm Hin Hb).
        unfold group_key, key_of_lookup, head_of. rewrite Hc. reflexivity.
    + apply Hgm.
    + destruct (value (for_each _ gm _)) as [st|e]; [|rewrite app_nil_r; assumption].
      rewrite (quiet_for_each (ads_row_step db gm st) (objects (row :: rows))
                 (fun acc r => quiet_ads_row_step db gm st acc r) []).
      rewrite app_nil_r. assumption.
Qed.

End LookupCount.

(** ** Which rows carry the cost of their group *)

Lemma zeroed_keeps_currency (c : cost_info) :
  ci_cost_usd (zeroed c) = 0%float /\ original_cost (zeroed c) = 0%float
  /\ ci_currency (zeroed c) = ci_currency c /\ ci_rate (zeroed c) = ci_rate c
  /\ ci_extra_rate (zeroed c) = ci_extra_rate c.
Proof. repeat split. Qed.

(** A row equals itself, whatever its cells: the first row of a group is
    always taken as first. *)
Lemma same_row_refl {R} (cells_eqb : R -> R -> bool) (row : object R) :
  same_row cells_eqb row row = true.
Proof. unfold same_row. rewrite Nat.eqb_refl. reflexivity. Qed.

Lemma same_row_at {R} (cells_eqb : R -> R -> bool) i j (a b : R) :
  same_row cells_eqb {| place := i; this := a |} {| place := j; this := b |}
  = (i =? j)%nat || cells_eqb a b.
Proof. reflexivity. Qed.

Section CostColumns.

Variable db : Store.

Local Open Scope nat_scope.

(** X2.  In the CDAP engine the row at place [i] shows in columns 9 and 10
    the cost of its group, which is that of the first row of the input with
    its key, when it is that first row or equals it cell by cell ([==]: a
    NaN cell equals no cell of another row), and 0.0 otherwise.  The rows
    come out one for one. *)
Lemma cdap_cost_columns rows out :
  value (process_cdap_data_with_cost db rows) = Ok out ->
  length out = length rows
  /\ forall i row o, rows !! i = Some row -> out !! i = Some o ->
       exists j base_row cost,
         rows !! j = Some base_row
         /\ group_key (cdap_head base_row) = group_key (cdap_head row)
         /\ (forall k earlier, k < j -> rows !! k = Some earlier ->
                group_key (cdap_head earlier) <> group_key (cdap_head row))
         /\ cdap_group_cost db base_row cost
         /\ (i = j \/ cdap_row_eqb row base_row = true ->
             col9 o = ci_cost_usd cost /\ col10 o = original_cost cost)
         /\ (i <> j -> cdap_row_eqb row base_row = false ->
             col9 o = 0%float /\ col10 o = 0%float).
Proof.
  intros Hrun. apply process_cdap_processed in Hrun. split.
  { rewrite <- (length_objects rows). symmetry. eapply Forall2_length, Hrun. }
  intros i row o Hrow Ho.
  assert (Hobj : objects rows !! i = Some {| place := i; this := row |})
    by (apply lookup_objects_Some; auto).
  destruct (Forall2_lookup_lr _ _ _ _ _ _ Hrun Hobj Ho)
    as (_ & (base & cost & Hbase & Hcost & H9 & H10) & _).
  apply first_of_key_Some in Hbase as (Hj & Hkey & Hbefore).
  destruct base as [j base_row]. cbn [place this] in *.
  rewrite same_row_at in H9, H10.
  exists j, base_row, cost. do 4 (split; [assumption|]).
  rewrite H9, H10. split.
  - intros [-> | ->]; [rewrite Nat.eqb_refl | rewrite orb_true_r]; split; reflexivity.
  - intros Hij ->. apply Nat.eqb_neq in Hij. rewrite Hij. split; reflexivity.
Qed.

(** X3.  In the ADS engine the row at place [i] shows in columns 7 to 10
    the two costs of its group, without and with the channel, which are
    those of the first row of the input with its key, when it is that first
    row or equals it cell by cell, and 0.0 in all four columns otherwise.
    The rows come out one for one. *)
Lemma ads_cost_columns rows out :
  value (process_ads_data_with_cost db rows) = Ok out ->
  length out = length rows
  /\ forall i row o, rows !! i = Some row -> out !! i = Some o ->
       exists j base_row without_channel with_channel,
         rows !! j = Some base_row
         /\ group_key (ads_head base_row) = group_key (ads_head row)
         /\ (forall k earlier, k < j -> rows !! k = Some earlier ->
                group_key (ads_head earlier) <> group_key (ads_head row))
         /\ ads_group_cost_without_channel db base_row without_channel
         /\ ads_group_cost_with_channel db base_row with_channel
         /\ (i = j \/ ads_row_eqb row base_row = true ->
             col7 o = ci_cost_usd without_channel
             /\ col8 o = original_cost without_channel
             /\ col9 o = ci_cost_usd with_channel
             /\ col10 o = original_cost with_channel)
         /\ (i <> j -> ads_row_eqb row base_row = false ->
             col7 o = 0%float /\ col8 o = 0%float
             /\ col9 o = 0%float /\ col10 o = 0%float).
Proof.
  intros Hrun. apply process_ads_processed in Hrun. split.
  { rewrite <- (length_objects rows). symmetry. eapply Forall2_length, Hrun. }
  intros i row o Hrow Ho.
  assert (Hobj : objects rows !! i = Some {| place := i; this := row |})
    by (apply lookup_objects_Some; auto).
  destruct (Forall2_lookup_lr _ _ _ _ _ _ Hrun Hobj Ho)
    as (_ & (base & c1 & c2 & Hbase & Hc1 & Hc2 & H7 & H8 & H9 & H10) & _).
  apply first_of_key_Some in Hbase as (Hj & Hkey & Hbefore).
  destruct base as [j base_row]. cbn [place this] in *.
  rewrite same_row_at in H7, H8, H9, H10.
  exists j, base_row, c1, c2. do 5 (split; [assumption|]).
  rewrite H7, H8, H9, H10. split.
  - intros [-> | ->]; [rewrite Nat.eqb_refl | rewrite orb_true_r]; repeat split.
  - intros Hij ->. apply Nat.eqb_neq in Hij. rewrite Hij. repeat split.
Qed.

End CostColumns.

(** ** Deduplication *)

Section DeduplicationFacts.

Context {A : Type} `{Countable A}.

Implicit Types (results : list (list A)) (ids : gset A).

Lemma wide_cells (row : list A) : wide row -> exists cell0 row_id tail, row = cell0 :: row_id :: tail.
Proof.
  destruct row as [|cell0 [|row_id tail]]; unfold wide; simpl; try lia. eauto.
Qed.

Lemma dedup_loop_keeps_first results : Forall wide results -> forall ids acc,
  dedup_loop results ids acc = Ok (acc ++ map drop_id (keep_first results ids)).
Proof.
  induction 1 as [|row results Hrow _ IH]; intros ids acc; simpl.
  - rewrite app_nil_r. reflexivity.
  - destruct (wide_cells row Hrow) as (cell0 & row_id & tail & ->).
    destruct (decide (row_id ∈ ids)); rewrite IH; [reflexivity|].
    simpl. rewrite <- app_assoc. reflexivity.
Qed.

Lemma keep_first_sublist results : forall ids, sublist (keep_first results ids) results.
Proof.
  induction results as [|row results IH]; intros ids; simpl; [constructor|].
  destruct row as [|cell0 [|row_id tail]]; try (constructor; apply IH).
  destruct (decide (row_id ∈ ids)); constructor; apply IH.
Qed.

Lemma keep_first_fresh results : forall ids,
  NoDup (omap id_of (keep_first results ids))
  /\ forall i, i ∈ omap id_of (keep_first results ids) -> i ∉ ids.
Proof.
  induction results as [|row results IH]; intros ids; simpl.
  - split; [constructor | intros i Hi; inversion Hi].
  - destruct row as [|cell0 [|row_id tail]]; simpl; try apply IH.
    destruct (decide (row_id ∈ ids)) as [Hin|Hout]; [apply IH|].
    simpl. destruct (IH ({[row_id]} ∪ ids)) as [Hnodup Hfresh]. split.
    + constructor; [|assumption]. intros Hi. apply Hfresh in Hi.
      apply Hi, elem_of_union_l, elem_of_singleton. reflexivity.
    + intros i Hi. apply elem_of_cons in Hi as [-> | Hi]; [assumption|].
      apply Hfresh in Hi. intros Hids. apply Hi, elem_of_union_r, Hids.
Qed.

Lemma keep_first_fixed results : forall ids,
  NoDup (omap id_of results) ->
  (forall i, i ∈ omap id_of results -> i ∉ ids) ->
  keep_first results ids = results.
Proof.
  induction results as [|row results IH]; intros ids Hnodup Hfresh; simpl; [reflexivity|].
  destruct row as [|cell0 [|row_id tail]]; simpl in *; try (f_equal; apply IH; assumption).
  apply NoDup_cons in Hnodup as [Hnew Hnodup].
  destruct (decide (row_id ∈ ids)) as [Hin|Hout].
  - exfalso. apply (Hfresh row_id); [apply elem_of_cons; left; reflexivity | assumption].
  - f_equal. apply IH; [assumption|].
    intros i Hi. specialize (Hfresh i (proj2 (elem_of_cons _ _ _) (or_intror Hi))).
    intros [Hi' | Hi']%elem_of_union; [|contradiction].
    apply elem_of_singleton in Hi' as ->. contradiction.
Qed.

(** C3, amended.  On rows that all have an identifier, the step returns the
    first row of each identifier, in the order of the input, with the
    identifier dropped.  Keeping the first row of each identifier is
    idempotent as long as the identifier is still there: the rows kept have
    pairwise distinct identifiers, and keeping first among them removes
    nothing. *)
Theorem keep_first_idempotent results :
  Forall (fun row => (2 <= length row)%nat) results ->
  deduplicate results = Ok (map drop_id (keep_first results ∅))
  /\ keep_first (keep_first results ∅) ∅ = keep_first results ∅
  /\ NoDup (omap id_of (keep_first results ∅))
  /\ sublist (keep_first results ∅) results.
Proof.
  intros Hwide. split; [|split; [|split]].
  - unfold deduplicate. rewrite (dedup_loop_keeps_first results Hwide). reflexivity.
  - apply keep_first_fixed; [apply keep_first_fresh | intros i _; apply not_elem_of_empty].
  - apply keep_first_fresh.
  - apply keep_first_sublist.
Qed.

End DeduplicationFacts.


(** ** The engines and the deduplication at sample rows *)

(** C3, as stated, fails: the step drops the identifier, so run on its own
    output it reads [dates] (cell 1) as the identifier; the two rows of one
    date collapse into one, and every row loses its date. *)
Lemma deduplicate_twice_differs :
  deduplicate sample_raw_rows
  = Ok [["history_active_cohort_cost_calculate_trend_campaign"; "2025-11-10";
         "2025-11-10"; "fb_in"; "facebook"; "c-17"; "5"; "3"; "100.0"; "IN"; "1"];
        ["history_active_cohort_cost_calculate_trend_campaign"; "2025-11-10";
         "2025-11-10"; "fb_in"; "facebook"; "c-17"; "4"; "3"; "50.0"; "IN"; "1"]]
  /\ deduplicate
       [["history_active_cohort_cost_calculate_trend_campaign"; "2025-11-10";
         "2025-11-10"; "fb_in"; "facebook"; "c-17"; "5"; "3"; "100.0"; "IN"; "1"];
        ["history_active_cohort_cost_calculate_trend_campaign"; "2025-11-10";
         "2025-11-10"; "fb_in"; "facebook"; "c-17"; "4"; "3"; "50.0"; "IN"; "1"]]
     = Ok [["history_active_cohort_cost_calculate_trend_campaign"; "2025-11-10";
            "fb_in"; "facebook"; "c-17"; "5"; "3"; "100.0"; "IN"; "1"]].
Proof. split; vm_compute; reflexivity. Qed.

Lemma keep_first_idempotent_witness :
  deduplicate sample_raw_rows = Ok (map drop_id (keep_first sample_raw_rows ∅))
  /\ keep_first (keep_first sample_raw_rows ∅) ∅ = keep_first sample_raw_rows ∅
  /\ NoDup (omap id_of (keep_first sample_raw_rows ∅))
  /\ sublist (keep_first sample_raw_rows ∅) sample_raw_rows.
Proof.
  apply keep_first_idempotent.
  repeat constructor; simpl; lia.
Defined.

(** C1.  The code at a group of two rows with the same cells: both are
    taken for the first row of the group, and both carry the cost of the
    group, 13.75 USD for 1000 in the ledger, in the CDAP engine and in both
    cost columns of the ADS engine. *)
Theorem equal_rows_both_carry_group_cost :
  (exists o1 o2,
     value (process_cdap_data_with_cost rupee_store
              [sample_cdap_row (PFloat 100); sample_cdap_row (PFloat 100)])
     = Ok [o1; o2]
     /\ (col9 o1, col10 o1) = (13.75, 1000)%float
     /\ (col9 o2, col10 o2) = (13.75, 1000)%float)
  /\ (exists o1 o2,
     value (process_ads_data_with_cost rupee_store
              [sample_ads_row (PFloat 100); sample_ads_row (PFloat 100)])
     = Ok [o1; o2]
     /\ (col7 o1, col8 o1, col9 o1, col10 o1) = (13.75, 1000, 13.75, 1000)%float
     /\ (col7 o2, col8 o2, col9 o2, col10 o2) = (13.75, 1000, 13.75, 1000)%float)
  /\ queries (process_cdap_data_with_cost rupee_store
                [sample_cdap_row (PFloat 100); sample_cdap_row (PFloat 100)])
     = [SelectPnByChannel "fb_in"; SumCostByChannel "2025-11-10" "fb_in";
        SelectProject "IN"; SelectCurrency "IN"; SelectRate "2025-11-10" "USD" "INR";
        SumCostByCampaignChannel "2025-11-10" "c-17" "fb_in";
        SelectProject "IN"; SelectCurrency "IN"; SelectRate "2025-11-10" "USD" "INR";
        SelectProject "IN"; SelectCurrency "IN"; SelectRate "2025-11-10" "USD" "INR";
        SelectProject "IN"; SelectCurrency "IN"; SelectRate "2025-11-10" "USD" "INR"].
Proof.
  split; [|split].
  - do 2 eexists. split; [vm_compute; reflexivity|]. split; reflexivity.
  - do 2 eexists. split; [vm_compute; reflexivity|]. split; reflexivity.
  - vm_compute. reflexivity.
Qed.

(** C8, as stated, fails: two rows of one group whose recharges differ
    (100.25 and 100.5 rupees, at 80 rupees to the dollar and an extra rate of
    1.1) convert to the same amount, since the conversion rounds to cents. *)
Lemma different_recharges_convert_alike :
  exists o1 o2,
    value (process_cdap_data_with_cost rupee_store
             [sample_cdap_row (PFloat 100.25); sample_cdap_row (PFloat 100.5)])
    = Ok [o1; o2]
    /\ group_key (out_head o1) = group_key (out_head o2)
    /\ (col12 o1, col12 o2) = (100.25, 100.5)%float
    /\ (col11 o1, col11 o2) = (1.38, 1.38)%float.
Proof.
  do 2 eexists. split; [vm_compute; reflexivity|]. repeat split; reflexivity.
Qed.

(** Rows of one key whose channels differ: the CDAP engine looks the total
    of the second row's channel up in a cache that holds the first row's
    channel only, and raises [KeyError]. *)
Lemma colliding_keys_raise :
  map (fun row => group_key (cdap_head row)) colliding_cdap_rows
  = ["2025-11-10_fb_in_c-17"; "2025-11-10_fb_in_c-17"]%string
  /\ value (process_cdap_data_with_cost rupee_store colliding_cdap_rows) = Raise KeyError.
Proof. split; vm_compute; reflexivity. Qed.

Lemma recharge_depends_on_own_row_only_witness :
  (exists out,
     value (process_cdap_data_with_cost rupee_store
              [sample_cdap_row (PFloat 100.25); sample_cdap_row PNone]) = Ok out)
  /\ Forall2 (fun row o =>
      out_head o = ads_head row
      /\ exists day_recharge conv,
        value (day_recharge_of (ads_day_recharge row)) = Ok day_recharge
        /\ value (recharge_conversion_of rupee_store (dates (ads_head row)) day_recharge
                                         (ads_pn row)) = Ok conv
        /\ col11 o = cost_usd conv /\ col12 o = day_recharge)
    [sample_ads_row (PFloat 100.25); sample_ads_row PNone]
    [{| out_head := sample_head; col7 := 13.75; col8 := 1000; col9 := 13.75;
        col10 := 1000; col11 := 1.38; col12 := 100.25 |};
     {| out_head := sample_head; col7 := 0; col8 := 0; col9 := 0;
        col10 := 0; col11 := 0; col12 := 0 |}].
Proof.
  destruct (recharge_depends_on_own_row_only rupee_store)
    as (Hcdap & _ & _ & Hads).
  split.
  - apply Hcdap.
    + intros r1 r2 H1 H2 _.
      apply elem_of_cons in H1 as [->|H1]; [|apply list_elem_of_singleton in H1 as ->];
        (apply elem_of_cons in H2 as [->|H2]; [|apply list_elem_of_singleton in H2 as ->]);
        reflexivity.
    + repeat constructor; discriminate.
  - apply Hads. vm_compute. reflexivity.
Defined.

(** * More properties of the scripts *)

(** ** The groups of the engines *)

(** X4.  The grouping loop of both engines keeps every row, once: the keys
    of [group_map] are pairwise distinct, the group of a key is the list of
    the rows of that key in the order of the input and is never empty, and
    every row is in the group of its key. *)
Theorem group_map_partitions_rows {R : Type} (head_of : R -> row_head) (rows : list R) :
  NoDup (map fst (build_group_map head_of rows))
  /\ (forall key l,
        (key, l) ∈ build_group_map head_of rows
        <-> l = rows_of_key head_of key rows /\ l <> [])
  /\ (forall key l,
        group_rows_of key (build_group_map head_of rows) = Ok l
        <-> (key, l) ∈ build_group_map head_of rows)
  /\ (forall row, row ∈ rows ->
        exists l, (group_key (head_of row), l) ∈ build_group_map head_of rows
                  /\ row ∈ l).
Proof.
  pose proof (build_group_map_grouped head_of rows) as Hgm.
  set (gm := build_group_map head_of rows) in *.
  pose proof Hgm as (Hnodup & Hkeys & Hrows).
  assert (Hiff : forall key l,
    (key, l) ∈ gm <-> l = rows_of_key head_of key rows /\ l <> []).
  { intros key l. split.
    - intros Hin. eapply grouped_item; eassumption.
    - intros [-> Hne]. apply group_rows_of_Ok_elem. rewrite Hrows.
      destruct (rows_of_key head_of key rows); [contradiction | reflexivity]. }
  split; [exact Hnodup|]. split; [exact Hiff|]. split.
  - intros key l. split; [apply group_rows_of_Ok_elem | apply group_rows_of_elem, Hnodup].
  - intros row Hrow. exists (rows_of_key head_of (group_key (head_of row)) rows).
    assert (Hin : row ∈ rows_of_key head_of (group_key (head_of row)) rows).
    { apply list_elem_of_filter. auto. }
    split; [|exact Hin]. apply Hiff. split; [reflexivity|].
    intros Hnil. rewrite Hnil in Hin. inversion Hin.
Qed.

Lemma Forall2_both {A B} (P Q : A -> B -> Prop) l k :
  Forall2 P l k -> Forall2 Q l k -> Forall2 (fun a b => P a b /\ Q a b) l k.
Proof.
  intros HP. induction HP; intros HQ; inversion HQ; subst; constructor; auto.
Qed.

(** ** The channel totals of the CDAP engine *)

Section ChannelTotalFacts.

Variable db : Store.

Lemma cache_channel_total_cost_sound rows cache base_row pn cache' :
  channel_totals_sound db rows cache ->
  base_row ∈ rows ->
  value (get_pn_by_channel db (channel (cdap_head base_row))) = Ok pn ->
  value (cache_channel_total_cost db cache (dates (cdap_head base_row))
           (channel (cdap_head base_row)) pn) = Ok cache' ->
  channel_totals_sound db rows cache'.
Proof.
  intros Hsound Hin Hpn. unfold cache_channel_total_cost.
  destruct (cache !! channel (cdap_head base_row)) as [old|] eqn:Hold.
  { intros Hret. apply value_ret in Hret as <-. exact Hsound. }
  intros Hrun. apply bind_Ok in Hrun as (total & Htotal & Hrun).
  assert (Hentry : forall info,
    channel_total_entry db (dates (cdap_head base_row)) total pn info ->
    channel_totals_sound db rows (<[channel (cdap_head base_row) := info]> cache)).
  { intros info Hinfo ch info'. rewrite lookup_insert.
    case_decide as Hch; [|apply Hsound].
    intros [= <-]. subst ch. exists base_row, pn, total. auto. }
  unfold channel_total_entry in Hentry.
  destruct (PrimFloat.ltb 0 total && truthy pn).
  - apply bind_Ok in Hrun as (conv & Hconv & Hret).
    apply value_ret in Hret as <-. apply Hentry. eauto.
  - apply value_ret in Hrun as <-. apply Hentry. reflexivity.
Qed.

Lemma cdap_group_step_totals rows gm st item st' :
  grouped (fun r => cdap_head (this r)) (objects rows) gm -> item ∈ gm ->
  pn_cache_sound db (channel_pn_cache st) ->
  channel_totals_sound db rows (channel_total_cost_cache st) ->
  value (cdap_group_step db st item) = Ok st' ->
  pn_cache_sound db (channel_pn_cache st')
  /\ channel_totals_sound db rows (channel_total_cost_cache st').
Proof.
  intros Hgm Hitem Hpns Htotals. unfold cdap_group_step. destruct item as [key group_rows].
  intros Hstep. invert_binds. apply value_ret in Hstep as <-. cbn.
  match goal with H : value (cache_pn _ _ _) = Ok _ |- _ =>
    apply (cache_pn_sound db _ _ _ Hpns) in H as [Hpns' _] end.
  split; [assumption|].
  match goal with H : value (lift (first_row group_rows)) = Ok ?b |- _ =>
    apply lift_Ok in H; rename H into Hbase; rename b into base_row end.
  assert (Hin : this base_row ∈ rows).
  { destruct (grouped_item _ _ _ _ _ Hgm Hitem) as [-> _].
    apply first_row_head, head_Some_elem_of in Hbase.
    unfold rows_of_key in Hbase. apply list_elem_of_filter in Hbase as [_ Hbase].
    apply elem_of_objects, list_elem_of_lookup_2 in Hbase. exact Hbase. }
  match goal with H : value (getitem _ _) = Ok ?pn |- _ =>
    apply getitem_Ok, Hpns' in H; rename H into Hpn end.
  eapply cache_channel_total_cost_sound; eassumption.
Qed.

Lemma cdap_groups_loop_totals rows gm items : forall st st',
  grouped (fun r => cdap_head (this r)) (objects rows) gm ->
  (forall item, item ∈ items -> item ∈ gm) ->
  pn_cache_sound db (channel_pn_cache st) ->
  channel_totals_sound db rows (channel_total_cost_cache st) ->
  value (for_each (cdap_group_step db) items st) = Ok st' ->
  channel_totals_sound db rows (channel_total_cost_cache st').
Proof.
  induction items as [|item items IH]; intros st st' Hgm Hsub Hpns Htotals Hloop.
  - apply value_ret in Hloop as <-. assumption.
  - cbn [for_each] in Hloop. apply bind_Ok in Hloop as (st1 & Hstep & Hloop).
    eapply cdap_group_step_totals in Hstep as [Hpns1 Htotals1]; try eassumption.
    + eapply IH; try eassumption. intros i Hi. apply Hsub. right. assumption.
    + apply Hsub. left.
Qed.

(** A row shows the entry of its channel in a cache the loop over the rows
    leaves as it is. *)
Lemma cdap_row_step_totals gm st acc row st' acc' :
  value (cdap_row_step db gm (st, acc) row) = Ok (st', acc') ->
  channel_total_cost_cache st' = channel_total_cost_cache st
  /\ exists o info,
       acc' = acc ++ [o]
       /\ channel_total_cost_cache st !! channel (cdap_head (this row)) = Some info
       /\ col7 o = ci_cost_usd info /\ col8 o = original_cost info.
Proof.
  unfold cdap_row_step. intros Hstep. invert_binds.
  apply value_ret in Hstep. injection Hstep as <- <-. cbn.
  split; [reflexivity|].
  match goal with H : value (getitem (channel_total_cost_cache st) _) = Ok ?i |- _ =>
    apply getitem_Ok in H; eexists _, i; repeat split; exact H end.
Qed.

Lemma cdap_rows_loop_totals gm rows : forall st acc st' out,
  value (for_each (cdap_row_step db gm) rows (st, acc)) = Ok (st', out) ->
  exists outs,
    out = acc ++ outs
    /\ Forall2 (fun row o =>
         exists info,
           channel_total_cost_cache st !! channel (cdap_head (this row)) = Some info
           /\ col7 o = ci_cost_usd info /\ col8 o = original_cost info) rows outs.
Proof.
  induction rows as [|row rows IH]; intros st acc st' out Hloop.
  - apply value_ret in Hloop. injection Hloop as <- <-.
    exists []. split; [symmetry; apply app_nil_r | constructor].
  - cbn [for_each] in Hloop. apply bind_Ok in Hloop as ([st1 acc1] & Hstep & Hloop).
    apply cdap_row_step_totals in Hstep as (Hsame & o & info & -> & Hinfo & H7 & H8).
    apply IH in Hloop as (outs & -> & Hall). rewrite Hsame in Hall.
    exists (o :: outs). split; [rewrite <- app_assoc; reflexivity|].
    constructor; [eauto | assumption].
Qed.

(** The channel totals of a run: one dictionary, read by every row. *)
Lemma process_cdap_totals rows out :
  value (process_cdap_data_with_cost db rows) = Ok out ->
  exists totals,
    channel_totals_sound db rows totals
    /\ Forall2 (fun row o =>
         out_head o = cdap_head row
         /\ exists info,
              totals !! channel (cdap_head row) = Some info
              /\ col7 o = ci_cost_usd info /\ col8 o = original_cost info) rows out.
Proof.
  intros Hrun. pose proof (process_cdap_processed db rows out Hrun) as Hheads.
  destruct rows as [|row rows].
  { apply value_ret in Hrun as <-. exists ∅. split; [|constructor].
    intros ch info Hin. rewrite lookup_empty in Hin. discriminate. }
  unfold process_cdap_data_with_cost in Hrun.
  apply bind_Ok in Hrun as (st & Hgroups & Hrun).
  apply bind_Ok in Hrun as ([st' outs] & Hrows & Hret).
  apply value_ret in Hret as <-.
  pose proof (build_group_map_grouped (fun r => cdap_head (this r))
                (objects (row :: rows))) as Hgm.
  exists (channel_total_cost_cache st). split.
  - refine (cdap_groups_loop_totals _ _ _ _ _ Hgm (fun _ Hin => Hin) _ _ Hgroups).
    + intros ch pn Hin; cbn in Hin; rewrite lookup_empty in Hin; discriminate.
    + intros ch info Hin; cbn in Hin; rewrite lookup_empty in Hin; discriminate.
  - apply cdap_rows_loop_totals in Hrows as (outs' & -> & Hall).
    cbn [app snd] in *. apply Forall2_objects_this.
    eapply Forall2_impl; [exact (Forall2_both _ _ _ _ Hheads Hall)|].
    intros r o [(Hhead & _) Hinfo]. auto.
Qed.

(** A total that was converted is that of a positive amount. *)
Lemma channel_total_entry_positive d total pn info :
  channel_total_entry db d total pn info ->
  nonzero (ci_cost_usd info) = true -> PrimFloat.ltb 0 (original_cost info) = true.
Proof.
  unfold channel_total_entry. destruct (PrimFloat.ltb 0 total) eqn:Hpos; cbn [andb].
  - destruct (truthy pn); [|intros ->; discriminate].
    intros (conv & _ & ->) _. exact Hpos.
  - intros ->. discriminate.
Qed.

(** X5.  In the CDAP engine, columns 7 and 8 of a row are the total cost of
    its channel: the sum of the ledger for the channel on the date of one of
    the rows of that channel, and its conversion for the project of the
    channel when the sum is positive and the project is known; both are 0.0
    otherwise. *)
Theorem channel_total_columns rows out :
  value (process_cdap_data_with_cost db rows) = Ok out ->
  Forall2 (fun row o =>
    exists base_row pn total,
      base_row ∈ rows
      /\ channel (cdap_head base_row) = channel (cdap_head row)
      /\ value (get_pn_by_channel db (channel (cdap_head row))) = Ok pn
      /\ value (query_channel_total_cost db (dates (cdap_head base_row))
                  (channel (cdap_head row))) = Ok total
      /\ (if PrimFloat.ltb 0 total && truthy pn then
            exists conv,
              value (currency_to_usd_with_details db (dates (cdap_head base_row))
                       (PFloat total) pn) = Ok conv
              /\ col7 o = cost_usd conv /\ col8 o = total
          else col7 o = 0%float /\ col8 o = 0%float)) rows out.
Proof.
  intros Hrun. destruct (process_cdap_totals rows out Hrun) as (totals & Hsound & Hall).
  eapply Forall2_impl; [exact Hall|].
  intros row o (_ & info & Hinfo & H7 & H8).
  destruct (Hsound _ _ Hinfo) as (base_row & pn & total & Hin & Hch & Hpn & Htotal & Hentry).
  exists base_row, pn, total. do 4 (split; [assumption|]).
  unfold channel_total_entry in Hentry.
  destruct (PrimFloat.ltb 0 total && truthy pn).
  - destruct Hentry as (conv & Hconv & ->). exists conv. auto.
  - subst info. auto.
Qed.

(** Two rows of one channel show the same channel total. *)
Lemma process_cdap_one_total rows out :
  value (process_cdap_data_with_cost db rows) = Ok out ->
  forall o1 o2, o1 ∈ out -> o2 ∈ out ->
    channel (out_head o1) = channel (out_head o2) ->
    col7 o1 = col7 o2 /\ col8 o1 = col8 o2.
Proof.
  intros Hrun. destruct (process_cdap_totals rows out Hrun) as (totals & _ & Hall).
  assert (Hread : forall o, o ∈ out ->
    exists info, totals !! channel (out_head o) = Some info
                 /\ col7 o = ci_cost_usd info /\ col8 o = original_cost info).
  { intros o Ho. apply list_elem_of_lookup in Ho as [i Ho].
    destruct (Forall2_lookup_r _ _ _ _ _ Hall Ho) as (row & _ & Hhead & info & Hinfo).
    exists info. rewrite Hhead. exact Hinfo. }
  intros o1 o2 Ho1 Ho2 Hch.
  destruct (Hread o1 Ho1) as (i1 & Hi1 & -> & ->).
  destruct (Hread o2 Ho2) as (i2 & Hi2 & -> & ->).
  rewrite Hch, Hi2 in Hi1. injection Hi1 as ->. auto.
Qed.

(** X6.  In the output of the CDAP engine, two rows of one channel show the
    same channel total in columns 7 and 8, and a converted total that is not
    zero stands next to a positive original total. *)
Theorem rows_of_a_channel_show_one_total rows out :
  value (process_cdap_data_with_cost db rows) = Ok out ->
  (forall o1 o2, o1 ∈ out -> o2 ∈ out ->
     channel (out_head o1) = channel (out_head o2) ->
     col7 o1 = col7 o2 /\ col8 o1 = col8 o2)
  /\ (forall o, o ∈ out ->
       nonzero (col7 o) = true -> PrimFloat.ltb 0 (col8 o) = true).
Proof.
  intros Hrun. split; [exact (process_cdap_one_total rows out Hrun)|].
  destruct (process_cdap_totals rows out Hrun) as (totals & Hsound & Hall).
  intros o Ho. apply list_elem_of_lookup in Ho as [i Ho].
  destruct (Forall2_lookup_r _ _ _ _ _ Hall Ho) as (row & _ & _ & info & Hinfo & -> & ->).
  destruct (Hsound _ _ Hinfo) as (b & pn & total & _ & _ & _ & _ & Hentry).
  eapply channel_total_entry_positive; eassumption.
Qed.

End ChannelTotalFacts.

(** ** More on the deduplication of the ADS rows *)

Section MoreDeduplicationFacts.

Context {A : Type} `{Countable A}.

Implicit Types (results : list (list A)) (ids : gset A).

(** The loop stops with [IndexError] at a row that has no cell 1. *)
Lemma dedup_loop_short_row results : forall ids acc,
  ~ Forall wide results -> dedup_loop results ids acc = Raise IndexError.
Proof.
  induction results as [|row results IH]; intros ids acc Hshort.
  - exfalso. apply Hshort. constructor.
  - destruct row as [|cell0 [|row_id tail]]; simpl; try reflexivity.
    assert (Hrest : ~ Forall wide results).
    { intros Hall. apply Hshort. constructor; [unfold wide; simpl; lia | assumption]. }
    destruct (decide (row_id ∈ ids)); apply IH; assumption.
Qed.

(** The rows kept, with the set of identifiers met before: a row is kept
    when it is the first of the input to carry its identifier, and the
    identifier was not met before. *)
Lemma keep_first_elem results : forall ids row,
  Forall wide results ->
  row ∈ keep_first results ids
  <-> (exists i, id_of row = Some i /\ (i ∉ ids)
                /\ head (filter (fun r => id_of r = Some i) results) = Some row).
Proof.
  induction results as [|r results IH]; intros ids row Hwide.
  - simpl. split; [intros Hin; inversion Hin | intros (i & _ & _ & Hhead); discriminate].
  - apply Forall_cons in Hwide as [Hr Hwide].
    destruct (wide_cells r Hr) as (cell0 & row_id & tail & ->).
    cbn [keep_first]. destruct (decide (row_id ∈ ids)) as [Hin|Hout].
    + rewrite (IH ids row Hwide). split; intros (i & Hid & Hfresh & Hhead);
        exists i; (split; [assumption|]); (split; [assumption|]).
      * rewrite filter_cons_False; [assumption|].
        cbn. intros [= ->]. contradiction.
      * rewrite filter_cons_False in Hhead; [assumption|].
        cbn. intros [= ->]. contradiction.
    + rewrite elem_of_cons, (IH ({[row_id]} ∪ ids) row Hwide). split.
      * intros [-> | (i & Hid & Hfresh & Hhead)].
        -- exists row_id. split; [reflexivity|]. split; [assumption|].
           rewrite filter_cons_True; reflexivity.
        -- exists i. split; [assumption|]. split.
           ++ intros Hi. apply Hfresh, elem_of_union_r, Hi.
           ++ rewrite filter_cons_False; [assumption|].
              cbn. intros [= ->]. apply Hfresh, elem_of_union_l, elem_of_singleton.
              reflexivity.
      * intros (i & Hid & Hfresh & Hhead).
        destruct (decide (i = row_id)) as [->|Hother].
        -- rewrite filter_cons_True in Hhead by reflexivity.
           injection Hhead as <-. left. reflexivity.
        -- right. exists i. split; [assumption|]. split.
           ++ intros [Hi | Hi]%elem_of_union; [|contradiction].
              apply elem_of_singleton in Hi. contradiction.
           ++ rewrite filter_cons_False in Hhead; [assumption|].
              cbn. intros [= ->]. contradiction.
Qed.

(** X7.  The deduplication of the ADS rows needs cell 1 in every row: it
    raises [IndexError] as soon as one row has fewer than two cells, and
    otherwise returns at most as many rows as it was given, each one cell
    shorter than the row it comes from. *)
Theorem deduplicate_needs_identifiers results :
  (~ Forall wide results -> deduplicate results = Raise IndexError)
  /\ (Forall wide results ->
      exists kept,
        deduplicate results = Ok (map drop_id kept)
        /\ sublist kept results
        /\ (length kept <= length results)%nat
        /\ Forall (fun row => S (length (drop_id row)) = length row) kept).
Proof.
  split.
  - apply dedup_loop_short_row.
  - intros Hwide. exists (keep_first results ∅).
    pose proof (keep_first_sublist results ∅) as Hsub.
    split; [|split; [exact Hsub|split]].
    + unfold deduplicate. rewrite (dedup_loop_keeps_first results Hwide). reflexivity.
    + apply sublist_length, Hsub.
    + apply Forall_forall. intros row Hrow.
      assert (Hrow' : wide row).
      { rewrite Forall_forall in Hwide. apply Hwide.
        eapply elem_of_sublist; eassumption. }
      destruct (wide_cells row Hrow') as (cell0 & row_id & tail & ->). reflexivity.
Qed.

(** X8.  Among rows that all have an identifier, the rows the step keeps
    are exactly the rows that are the first of the input to carry their
    identifier; so every identifier of the input is still there. *)
Theorem keep_first_keeps_first_rows results :
  Forall wide results ->
  (forall row,
     row ∈ keep_first results ∅
     <-> (exists i, id_of row = Some i
                   /\ head (filter (fun r => id_of r = Some i) results) = Some row))
  /\ (forall i, i ∈ omap id_of results <-> i ∈ omap id_of (keep_first results ∅)).
Proof.
  intros Hwide.
  assert (Hkept : forall row,
    row ∈ keep_first results ∅
    <-> (exists i, id_of row = Some i
                  /\ head (filter (fun r => id_of r = Some i) results) = Some row)).
  { intros row. rewrite (keep_first_elem results ∅ row Hwide). split.
    - intros (i & Hid & _ & Hhead). eauto.
    - intros (i & Hid & Hhead). exists i. split; [assumption|].
      split; [apply not_elem_of_empty | assumption]. }
  split; [exact Hkept|].
  intros i. rewrite !list_elem_of_omap. split.
  - intros (row & Hrow & Hid).
    destruct (head (filter (fun r => id_of r = Some i) results)) as [first|] eqn:Hhead.
    + pose proof (head_Some_elem_of _ _ Hhead) as Hfirst.
      apply list_elem_of_filter in Hfirst as [Hfid _].
      exists first. split; [|assumption]. apply Hkept. eauto.
    + apply head_None in Hhead.
      assert (Hin : row ∈ filter (fun r => id_of r = Some i) results)
        by (apply list_elem_of_filter; auto).
      rewrite Hhead in Hin. inversion Hin.
  - intros (row & Hrow & Hid). exists row. split; [|assumption].
    eapply elem_of_sublist; [exact Hrow | apply keep_first_sublist].
Qed.

End MoreDeduplicationFacts.

(** ** The detail queries of the v1 script *)

Lemma dedup_rows_first results : forall ids acc,
  dedup_rows results ids acc = acc ++ map without_id (first_of_each_id results ids).
Proof.
  induction results as [|row results IH]; intros ids acc; simpl.
  - rewrite app_nil_r. reflexivity.
  - destruct (decide (backend_id row ∈ ids)); rewrite IH; [reflexivity|].
    simpl. rewrite <- app_assoc. reflexivity.
Qed.

Lemma first_of_each_id_sublist results : forall ids,
  sublist (first_of_each_id results ids) results.
Proof.
  induction results as [|row results IH]; intros ids; simpl; [constructor|].
  destruct (decide (backend_id row ∈ ids)); constructor; apply IH.
Qed.

Lemma first_of_each_id_ids results : forall ids i,
  i ∈ map backend_id (first_of_each_id results ids)
  <-> i ∈ map backend_id results /\ (i ∉ ids).
Proof.
  induction results as [|row results IH]; intros ids i; simpl.
  - split; [intros Hi; inversion Hi | intros [Hi _]; inversion Hi].
  - destruct (decide (backend_id row ∈ ids)) as [Hin|Hout]; simpl.
    + rewrite IH, elem_of_cons. split; [tauto|].
      intros [[-> | Hi] Hfresh]; [contradiction | tauto].
    + rewrite !elem_of_cons, IH, elem_of_union, elem_of_singleton. split.
      * intros [-> | [Hi Hfresh]]; [tauto|]. split; [tauto|]. intros Hids.
        apply Hfresh. right. assumption.
      * intros [[-> | Hi] Hfresh]; [tauto|].
        destruct (decide (i = backend_id row)) as [->|Hother]; [tauto|].
        right. split; [assumption|]. intros [-> | Hids]; contradiction.
Qed.

Lemma first_of_each_id_NoDup results : forall ids,
  NoDup (map backend_id (first_of_each_id results ids)).
Proof.
  induction results as [|row results IH]; intros ids; simpl; [constructor|].
  destruct (decide (backend_id row ∈ ids)); [apply IH|].
  simpl. constructor; [|apply IH].
  rewrite first_of_each_id_ids. intros [_ Hfresh].
  apply Hfresh, elem_of_union_l, elem_of_singleton. reflexivity.
Qed.

(** The rows kept are the rows that are the first of their [id]. *)
Lemma first_of_each_id_elem results : forall ids row,
  row ∈ first_of_each_id results ids
  <-> (backend_id row ∉ ids)
      /\ head (filter (fun r => backend_id r = backend_id row) results) = Some row.
Proof.
  induction results as [|r results IH]; intros ids row; cbn [first_of_each_id].
  - split; [intros Hin; inversion Hin | intros [_ [=]]].
  - rewrite filter_cons.
    destruct (decide (backend_id r ∈ ids)) as [Hin|Hout].
    + rewrite IH. destruct (decide (backend_id r = backend_id row)) as [Heq|Hne];
        [|reflexivity].
      rewrite <- Heq. split; intros [Hfresh _]; contradiction.
    + rewrite elem_of_cons, IH, not_elem_of_union, not_elem_of_singleton.
      destruct (decide (backend_id r = backend_id row)) as [Heq|Hne]; cbn [head].
      * split.
        -- intros [-> | [[Hother _] _]]; [auto | congruence].
        -- intros [_ [= ->]]. auto.
      * split.
        -- intros [-> | [[_ Hfresh] Hhead]]; [congruence | auto].
        -- intros [Hfresh Hhead]. right. auto.
Qed.

(** The loop on typed rows is the loop on tuples of cells of both scripts,
    however the cells are written, as long as different identifiers are
    written differently. *)
Lemma dedup_rows_is_dedup_loop {A : Type} `{Countable A}
    (id_cell : Z -> A) (cell0 : ads_row -> A) (cells_after : ads_row -> list A) :
  (forall i j, id_cell i = id_cell j -> i = j) ->
  forall results (ids : gset Z) acc,
    dedup_loop (map (raw_cells id_cell cell0 cells_after) results)
               (set_map id_cell ids)
               (map (fun row => cell0 row :: cells_after row) acc)
    = Ok (map (fun row => cell0 row :: cells_after row) (dedup_rows results ids acc)).
Proof.
  intros Hinj. induction results as [|row results IH]; intros ids acc; [reflexivity|].
  cbn [map dedup_loop dedup_rows raw_cells].
  assert (Hmem : id_cell (backend_id row) ∈ (set_map id_cell ids : gset A)
                 <-> backend_id row ∈ ids).
  { rewrite elem_of_map. split; [|eauto].
    intros (j & Heq & Hj). apply Hinj in Heq as ->. assumption. }
  destruct (decide (id_cell (backend_id row) ∈ (set_map id_cell ids : gset A)))
    as [Hin|Hout]; destruct (decide (backend_id row ∈ ids)) as [Hin'|Hout'];
    try tauto.
  - apply IH.
  - rewrite <- IH, set_map_union_L, set_map_singleton_L, map_app. reflexivity.
Qed.

Lemma value_lift {A} (r : result A) : value (lift r) = r.
Proof. reflexivity. Qed.

Section DetailQueryFacts.

Variable db : Store.
Variable tables : DetailTables.

(** Rows of one channel have one channel per key. *)
Lemma one_channel_one_per_key ch rows :
  Forall (fun row => channel (cdap_head row) = ch) rows -> one_channel_per_key rows.
Proof.
  intros Hall r1 r2 H1 H2 _. rewrite Forall_forall in Hall.
  rewrite (Hall r1 H1), (Hall r2 H2). reflexivity.
Qed.

Lemma Forall2_heads {R} (head_of : R -> row_head) (P : R -> out_row -> Prop) rows out :
  (forall row o, P row o -> out_head o = head_of row) ->
  Forall2 P rows out -> map out_head out = map head_of rows.
Proof.
  intros Hhead Hall. induction Hall as [|row o rows out Ho _ IH]; [reflexivity|].
  simpl. rewrite IH, (Hhead _ _ Ho). reflexivity.
Qed.

Lemma cdap_detail_query_fetched ch d rows :
  select_cdap_base tables ch d = Ok rows ->
  value (query_cdap_base_detail_data db tables ch d)
  = match value (process_cdap_data_with_cost db rows) with
    | Ok out => Ok out
    | Raise _ => Ok []
    end.
Proof.
  intros Hrows. unfold query_cdap_base_detail_data.
  rewrite value_catch_all, value_bind, value_lift, Hrows. reflexivity.
Qed.

(** What [query_cdap_base_detail_data] returns: nothing, or what the engine
    makes of the rows of the query. *)
Lemma cdap_detail_query_returns ch d :
  exists out,
    value (query_cdap_base_detail_data db tables ch d) = Ok out
    /\ (out = []
        \/ exists rows, select_cdap_base tables ch d = Ok rows
                        /\ value (process_cdap_data_with_cost db rows) = Ok out).
Proof.
  destruct (select_cdap_base tables ch d) as [rows|e] eqn:Hrows.
  - rewrite (cdap_detail_query_fetched ch d rows Hrows).
    destruct (value (process_cdap_data_with_cost db rows)) as [out|e] eqn:Hout.
    + exists out. split; [reflexivity|]. right. exists rows. auto.
    + exists []. auto.
  - exists []. split; [|auto].
    unfold query_cdap_base_detail_data, lift. rewrite Hrows. reflexivity.
Qed.

Lemma ads_detail_query_returns ch d :
  exists out, value (query_ads_backend_detail_data db tables ch d) = Ok out.
Proof.
  unfold query_ads_backend_detail_data. rewrite value_catch_all.
  destruct (value (bind _ _)); eauto.
Qed.

(** X9.  With its session open, [query_cdap_base_detail_data] never raises:
    it returns the empty list when the query or the processing of its rows
    raises, and otherwise
    what [process_cdap_data_with_cost] makes of the rows.  When the rows all
    have the channel asked for and no recharge is an [int] too large for a
    float, that is one processed row for each row, in order. *)
Theorem cdap_detail_query_never_raises ch d :
  (exists out, value (query_cdap_base_detail_data db tables ch d) = Ok out)
  /\ (forall e, select_cdap_base tables ch d = Raise e ->
       query_cdap_base_detail_data db tables ch d = (Ok [], []))
  /\ (forall rows,
       select_cdap_base tables ch d = Ok rows ->
       value (query_cdap_base_detail_data db tables ch d)
       = match value (process_cdap_data_with_cost db rows) with
         | Ok out => Ok out
         | Raise _ => Ok []
         end)
  /\ (forall rows,
       select_cdap_base tables ch d = Ok rows ->
       Forall (fun row => channel (cdap_head row) = ch) rows ->
       Forall (fun row => recharge_fits (cdap_day_recharge row)) rows ->
       exists out,
         value (query_cdap_base_detail_data db tables ch d) = Ok out
         /\ map out_head out = map cdap_head rows).
Proof.
  split; [|split; [|split]].
  - destruct (cdap_detail_query_returns ch d) as (out & Hout & _). eauto.
  - intros e He. unfold query_cdap_base_detail_data, lift. rewrite He. reflexivity.
  - apply cdap_detail_query_fetched.
  - intros rows Hrows Hch Hfits. rewrite (cdap_detail_query_fetched ch d rows Hrows).
    destruct (process_cdap_returns db rows (one_channel_one_per_key ch rows Hch) Hfits)
      as [out Hout].
    rewrite Hout. exists out. split; [reflexivity|].
    apply process_cdap_processed in Hout.
    apply (Forall2_heads cdap_head (fun row o => out_head o = cdap_head row));
      [auto|].
    apply Forall2_objects_this.
    eapply Forall2_impl; [exact Hout|]. intros row o (Hhead & _). exact Hhead.
Qed.

(** X10.  With its session open, [query_ads_backend_detail_data] never
    raises, and returns the empty list when its query raises.  Of the rows
    fetched it keeps the first of every [id], in the order fetched, each
    [id] once, and returns what [process_ads_data_with_cost] makes of these
    rows without their [id] (the empty list if that raises): one processed
    row for each, in order, when no recharge is an [int] too large for a
    float. *)
Theorem ads_detail_query_has_one_row_per_id ch d :
  (exists out, value (query_ads_backend_detail_data db tables ch d) = Ok out)
  /\ (forall e, select_ads_backend tables ch d = Raise e ->
       query_ads_backend_detail_data db tables ch d = (Ok [], []))
  /\ (forall rows,
       select_ads_backend tables ch d = Ok rows ->
       exists kept,
         sublist kept rows
         /\ NoDup (map backend_id kept)
         /\ (forall row,
               row ∈ kept
               <-> head (filter (fun r => backend_id r = backend_id row) rows)
                   = Some row)
         /\ (forall i, i ∈ map backend_id kept <-> i ∈ map backend_id rows)
         /\ value (query_ads_backend_detail_data db tables ch d)
            = match value (process_ads_data_with_cost db (map without_id kept)) with
              | Ok out => Ok out
              | Raise _ => Ok []
              end
         /\ (Forall (fun row => recharge_fits (ads_day_recharge (without_id row))) rows ->
             exists out,
               value (process_ads_data_with_cost db (map without_id kept)) = Ok out
               /\ map out_head out
                  = map (fun row => ads_head (without_id row)) kept)).
Proof.
  split; [|split].
  - apply ads_detail_query_returns.
  - intros e He. unfold query_ads_backend_detail_data, lift. rewrite He. reflexivity.
  - intros rows Hrows. exists (first_of_each_id rows ∅).
    pose proof (first_of_each_id_sublist rows ∅) as Hsub.
    split; [exact Hsub|]. split; [apply first_of_each_id_NoDup|].
    split; [|split; [|split]].
    + intros row. rewrite first_of_each_id_elem. split; [tauto|].
      intros Hhead. split; [apply not_elem_of_empty | exact Hhead].
    + intros i. rewrite first_of_each_id_ids. split; [tauto|].
      intros Hi. split; [assumption | apply not_elem_of_empty].
    + unfold query_ads_backend_detail_data.
      rewrite value_catch_all, value_bind, value_lift, Hrows.
      cbv zeta. rewrite dedup_rows_first. cbn [app].
      destruct (length _ =? 0)%nat eqn:Hlen; [|reflexivity].
      apply Nat.eqb_eq, nil_length_inv in Hlen. rewrite Hlen. reflexivity.
    + intros Hfits.
      assert (Hkept : Forall (fun row => recharge_fits (ads_day_recharge row))
                             (map without_id (first_of_each_id rows ∅))).
      { apply Forall_fmap, Forall_forall. intros row Hrow.
        rewrite Forall_forall in Hfits. apply Hfits.
        eapply elem_of_sublist; eassumption. }
      destruct (process_ads_returns db _ Hkept) as [out Hout].
      exists out. split; [exact Hout|].
      apply process_ads_processed in Hout.
      rewrite (Forall2_heads ads_head (fun row o => out_head o = ads_head row)
                 (map without_id (first_of_each_id rows ∅)) out (fun _ _ H => H)).
      * rewrite <- list_fmap_compose. reflexivity.
      * apply Forall2_objects_this.
        eapply Forall2_impl; [exact Hout|]. intros row o (Hhead & _). exact Hhead.
Qed.

End DetailQueryFacts.

(** ** The workbook *)

Section WorkbookFacts.

Local Open Scope nat_scope.

Lemma record_channel_keys c n a o info :
  map fst (record_channel c n a o info)
  = if decide (c ∈ map fst info) then map fst info else map fst info ++ [c].
Proof.
  induction info as [|[ch mi] info IH]; cbn [record_channel map fst].
  - destruct (decide (c ∈ [])) as [Hin|_]; [inversion Hin | reflexivity].
  - destruct (String.eqb_spec ch c) as [->|Hne]; cbn [map fst].
    + destruct (decide (c ∈ c :: map fst info)) as [_|Hout]; [reflexivity|].
      exfalso. apply Hout. left.
    + rewrite IH. destruct (decide (c ∈ map fst info)) as [Hin|Hout];
        destruct (decide (c ∈ ch :: map fst info)) as [Hin'|Hout']; try reflexivity.
      * exfalso. apply Hout'. right. assumption.
      * apply elem_of_cons in Hin' as [->|Hin']; contradiction.
Qed.

Lemma record_channel_elem c n a o info ch mi :
  NoDup (map fst info) ->
  (ch, mi) ∈ record_channel c n a o info ->
  (ch <> c /\ (ch, mi) ∈ info)
  \/ (ch = c /\ (c ∉ map fst info)
      /\ mi = {| start_row := n; end_row := n; cdap_actual_cost := a;
                 mi_original_cost := o |})
  \/ (ch = c /\ exists old,
        (c, old) ∈ info
        /\ mi = {| start_row := start_row old; end_row := n;
                   cdap_actual_cost := cdap_actual_cost old;
                   mi_original_cost := mi_original_cost old |}).
Proof.
  induction info as [|[k m] info IH]; intros Hnodup; simpl.
  - intros [= -> ->]%list_elem_of_singleton. right. left.
    split; [reflexivity|]. split; [apply not_elem_of_nil | reflexivity].
  - apply NoDup_cons in Hnodup as [Hnew Hnodup].
    destruct (String.eqb_spec k c) as [->|Hne].
    + intros [[= -> ->] | Hin]%elem_of_cons.
      * right. right. split; [reflexivity|]. exists m. split; [left | reflexivity].
      * left. split; [|right; assumption]. intros ->. apply Hnew.
        apply list_elem_of_fmap. exists (c, mi). auto.
    + intros [[= -> ->] | Hin]%elem_of_cons.
      * left. split; [assumption | left].
      * destruct (IH Hnodup Hin) as [[Hch Hold] | [(-> & Hout & ->) | (-> & old & Hold & ->)]].
        -- left. split; [assumption | right; assumption].
        -- right. left. split; [reflexivity|]. split; [|reflexivity].
           intros [->|Hc]%elem_of_cons; contradiction.
        -- right. right. split; [reflexivity|]. exists old.
           split; [right; assumption | reflexivity].
Qed.

Lemma channel_span_unique offset data ch first last row first' last' row' :
  channel_span offset data ch first last row ->
  channel_span offset data ch first' last' row' ->
  first = first' /\ last = last' /\ row = row'.
Proof.
  intros (i & j & rj & -> & -> & Hij & Hi & Hj & Hci & Hcj & Hall)
         (i' & j' & rj' & -> & -> & Hij' & Hi' & Hj' & Hci' & Hcj' & Hall').
  pose proof (Hall _ _ Hi' Hci'). pose proof (Hall _ _ Hj' Hcj').
  pose proof (Hall' _ _ Hi Hci). pose proof (Hall' _ _ Hj Hcj).
  assert (i = i') as <- by lia. assert (j = j') as <- by lia.
  rewrite Hi in Hi'. injection Hi' as <-. auto.
Qed.

Lemma merge_info_sound_nil offset : merge_info_sound offset [] [].
Proof.
  split; [constructor|]. split.
  - intros row Hrow. inversion Hrow.
  - intros ch info Hin. inversion Hin.
Qed.

Lemma merge_info_sound_step offset seen info row :
  merge_info_sound offset seen info ->
  merge_info_sound offset (seen ++ [row])
    (record_channel (channel (out_head row)) (offset + length seen)
                    (col7 row) (col8 row) info).
Proof.
  intros (Hnodup & Hkeys & Hspans).
  set (c := channel (out_head row)).
  assert (Hlast : (seen ++ [row]) !! length seen = Some row).
  { rewrite lookup_app_r by lia. rewrite Nat.sub_diag. reflexivity. }
  assert (Hcases : forall k r, (seen ++ [row]) !! k = Some r ->
            (k < length seen /\ seen !! k = Some r) \/ (k = length seen /\ r = row)).
  { intros k r Hk. destruct (decide (k < length seen)) as [Hlt|Hge].
    - left. rewrite lookup_app_l in Hk by assumption. auto.
    - right. pose proof (lookup_lt_Some _ _ _ Hk) as Hlen.
      rewrite length_app in Hlen. simpl in Hlen.
      assert (k = length seen) as -> by lia.
      rewrite Hlast in Hk. injection Hk as <-. auto. }
  split; [|split].
  - rewrite record_channel_keys. destruct (decide (c ∈ map fst info)); [assumption|].
    apply NoDup_app. split; [assumption|]. split; [|apply NoDup_singleton].
    intros x Hx ->%list_elem_of_singleton. contradiction.
  - intros r Hr. rewrite record_channel_keys.
    apply elem_of_app in Hr as [Hr | ->%list_elem_of_singleton].
    + destruct (decide (c ∈ map fst info)); [apply Hkeys, Hr|].
      apply elem_of_app. left. apply Hkeys, Hr.
    + fold c. destruct (decide (c ∈ map fst info)); [assumption|].
      apply elem_of_app. right. left.
  - intros ch mi Hin.
    destruct (record_channel_elem _ _ _ _ _ _ _ Hnodup Hin)
      as [[Hch Hold] | [(-> & Hout & ->) | (-> & old & Hold & ->)]].
    + destruct (Hspans _ _ Hold)
        as (fr & (i & j & rj & Hs & He & Hij & Hi & Hj & Hci & Hcj & Hall) & H7 & H8).
      exists fr. split; [|auto]. exists i, j, rj.
      split; [assumption|]. split; [assumption|]. split; [assumption|].
      split; [apply lookup_app_l_Some; assumption|].
      split; [apply lookup_app_l_Some; assumption|].
      split; [assumption|]. split; [assumption|].
      intros k r Hk Hr. destruct (Hcases k r Hk) as [[_ Hk'] | [-> ->]].
      * eapply Hall; eassumption.
      * exfalso. apply Hch. symmetry. exact Hr.
    + exists row. split; [|auto]. exists (length seen), (length seen), row.
      do 2 (split; [reflexivity|]). split; [lia|].
      do 2 (split; [assumption|]). do 2 (split; [reflexivity|]).
      intros k r Hk Hr. destruct (Hcases k r Hk) as [[_ Hk'] | [-> ->]]; [|lia].
      exfalso. apply Hout. rewrite <- Hr. apply Hkeys.
      eapply list_elem_of_lookup_2; eassumption.
    + destruct (Hspans _ _ Hold)
        as (fr & (i & j & rj & Hs & He & Hij & Hi & Hj & Hci & Hcj & Hall) & H7 & H8).
      exists fr. cbn. split; [|auto]. exists i, (length seen), row.
      pose proof (lookup_lt_Some _ _ _ Hi).
      split; [assumption|]. split; [reflexivity|]. split; [lia|].
      split; [apply lookup_app_l_Some; assumption|].
      split; [assumption|]. split; [assumption|]. split; [reflexivity|].
      intros k r Hk Hr. destruct (Hcases k r Hk) as [[Hlt Hk'] | [-> ->]]; [|lia].
      pose proof (Hall _ _ Hk' Hr). lia.
Qed.

(** The loop over the rows of a result appends them and leaves the other
    parts of the sheet alone. *)
Lemma export_rows_loop offset data : forall seen sheet info,
  merge_info_sound offset seen info ->
  exists info',
    fold_left export_row_step data (sheet, info, offset + length seen)
    = ({| title := title sheet; appended := appended sheet ++ map cells data;
          merged := merged sheet; assigned := assigned sheet;
          centred := centred sheet |},
       info', offset + length (seen ++ data))
    /\ merge_info_sound offset (seen ++ data) info'.
Proof.
  induction data as [|row data IH]; intros seen sheet info Hinfo.
  - exists info. rewrite !app_nil_r. destruct sheet. auto.
  - cbn [fold_left export_row_step].
    replace (S (offset + length seen)) with (offset + length (seen ++ [row]))
      by (rewrite length_app; simpl; lia).
    destruct (IH (seen ++ [row]) (append (cells row) sheet) _
                 (merge_info_sound_step _ _ _ row Hinfo)) as (info' & -> & Hinfo').
    exists info'. rewrite <- !app_assoc in *. cbn [append title appended merged assigned
      centred map app]. rewrite <- !app_assoc. auto.
Qed.

Lemma merge_step_spec sheet ch mi :
  title (merge_step sheet (ch, mi)) = title sheet
  /\ appended (merge_step sheet (ch, mi)) = appended sheet
  /\ merged (merge_step sheet (ch, mi))
     = merged sheet
       ++ (if start_row mi <? end_row mi then
             [{| range_column := "H"; range_first := start_row mi;
                 range_last := end_row mi |};
              {| range_column := "I"; range_first := start_row mi;
                 range_last := end_row mi |}]
           else [])
  /\ assigned (merge_step sheet (ch, mi))
     = assigned sheet
       ++ (if start_row mi <? end_row mi then
             [("H"%string, start_row mi, XFloat (cdap_actual_cost mi));
              ("I"%string, start_row mi, XFloat (mi_original_cost mi))]
           else []).
Proof.
  unfold merge_step. cbn [snd]. destruct (start_row mi <? end_row mi); cbn;
    rewrite ?app_nil_r; auto.
Qed.

(** The loop over [channel_merge_info.items()]: two ranges and two
    assignments for every entry that spans more than one row. *)
Lemma merge_loop info : forall sheet,
  title (fold_left merge_step info sheet) = title sheet
  /\ appended (fold_left merge_step info sheet) = appended sheet
  /\ (forall r, r ∈ merged (fold_left merge_step info sheet) <->
        r ∈ merged sheet
        \/ exists ch mi,
             (ch, mi) ∈ info /\ start_row mi < end_row mi
             /\ range_first r = start_row mi /\ range_last r = end_row mi
             /\ (range_column r = "H" \/ range_column r = "I"))
  /\ (forall col k v, (col, k, v) ∈ assigned (fold_left merge_step info sheet) <->
        (col, k, v) ∈ assigned sheet
        \/ exists ch mi,
             (ch, mi) ∈ info /\ start_row mi < end_row mi /\ k = start_row mi
             /\ ((col = "H" /\ v = XFloat (cdap_actual_cost mi))
                 \/ (col = "I" /\ v = XFloat (mi_original_cost mi)))).
Proof.
  induction info as [|[ch mi] info IH]; intros sheet; cbn [fold_left].
  - split; [reflexivity|]. split; [reflexivity|]. split.
    + intros r. split; [auto|]. intros [Hr | (ch & mi & Hin & _)]; [assumption|].
      inversion Hin.
    + intros col k v. split; [auto|]. intros [Hr | (ch & mi & Hin & _)]; [assumption|].
      inversion Hin.
  - destruct (IH (merge_step sheet (ch, mi))) as (Htitle & Hrows & Hmerged & Hassigned).
    destruct (merge_step_spec sheet ch mi) as (Htitle1 & Hrows1 & Hmerged1 & Hassigned1).
    rewrite Htitle1 in Htitle. rewrite Hrows1 in Hrows.
    split; [assumption|]. split; [assumption|].
    destruct (start_row mi <? end_row mi) eqn:Hspan.
    + apply Nat.ltb_lt in Hspan. split.
      * intros r. rewrite Hmerged, Hmerged1, elem_of_app, !elem_of_cons, elem_of_nil. split.
        -- intros [[Hr | [-> | [-> | []]]] | (c & m & Hin & Hrest)].
           ++ left. assumption.
           ++ right. exists ch, mi. cbn. split; [left|]. auto.
           ++ right. exists ch, mi. cbn. split; [left|]. auto.
           ++ right. exists c, m. split; [right; assumption | assumption].
        -- intros [Hr | (c & m & [[= -> ->] | Hin]%elem_of_cons & Hlt & Hf & Hl & Hcol)].
           ++ left. left. assumption.
           ++ left. right. destruct r as [col f l]. cbn in *. subst f l.
              destruct Hcol as [-> | ->]; auto.
           ++ right. exists c, m. auto.
      * intros col k v.
        rewrite Hassigned, Hassigned1, elem_of_app, !elem_of_cons, elem_of_nil. split.
        -- intros [[Hr | [[= -> -> ->] | [[= -> -> ->] | []]]] | (c & m & Hin & Hrest)].
           ++ left. assumption.
           ++ right. exists ch, mi. split; [left|]. auto.
           ++ right. exists ch, mi. split; [left|]. auto 6.
           ++ right. exists c, m. split; [right; assumption | assumption].
        -- intros [Hr | (c & m & [[= -> ->] | Hin]%elem_of_cons & Hlt & -> & Hval)].
           ++ left. left. assumption.
           ++ left. right. destruct Hval as [[-> ->] | [-> ->]]; auto.
           ++ right. exists c, m. auto.
    + apply Nat.ltb_ge in Hspan. rewrite app_nil_r in Hmerged1, Hassigned1. split.
      * intros r. rewrite Hmerged, Hmerged1. split.
        -- intros [Hr | (c & m & Hin & Hrest)]; [auto|].
           right. exists c, m. split; [right; assumption | assumption].
        -- intros [Hr | (c & m & [[= -> ->] | Hin]%elem_of_cons & Hlt & Hrest)];
             [auto | lia |]. right. exists c, m. auto.
      * intros col k v. rewrite Hassigned, Hassigned1. split.
        -- intros [Hr | (c & m & Hin & Hrest)]; [auto|].
           right. exists c, m. split; [right; assumption | assumption].
        -- intros [Hr | (c & m & [[= -> ->] | Hin]%elem_of_cons & Hlt & Hrest)];
             [auto | lia |]. right. exists c, m. auto.
Qed.

Lemma all_cdap_rows_snoc done result :
  all_cdap_rows (done ++ [result]) = all_cdap_rows done ++ cdap_base_data result.
Proof.
  unfold all_cdap_rows. rewrite map_app, concat_app. simpl.
  rewrite app_nil_r. reflexivity.
Qed.

Lemma block_offset_all done : block_offset done (length done) = 2 + length (all_cdap_rows done).
Proof. unfold block_offset. rewrite firstn_all. reflexivity. Qed.

Lemma block_offset_app done more t :
  t <= length done -> block_offset (done ++ more) t = block_offset done t.
Proof. intros Ht. unfold block_offset. rewrite take_app_le by assumption. reflexivity. Qed.

Lemma lookup_snoc_cases {A} (l : list A) x t y :
  (l ++ [x]) !! t = Some y
  <-> (t < length l /\ l !! t = Some y) \/ (t = length l /\ y = x).
Proof.
  split.
  - intros Ht. destruct (decide (t < length l)) as [Hlt|Hge].
    + left. rewrite lookup_app_l in Ht by assumption. auto.
    + right. pose proof (lookup_lt_Some _ _ _ Ht) as Hlen.
      rewrite length_app in Hlen. simpl in Hlen.
      assert (t = length l) as -> by lia.
      rewrite lookup_app_r, Nat.sub_diag in Ht by lia. injection Ht as <-. auto.
  - intros [[Hlt Ht] | [-> ->]].
    + apply lookup_app_l_Some. assumption.
    + rewrite lookup_app_r, Nat.sub_diag by lia. reflexivity.
Qed.

(** An entry of the dictionary for every channel that spans rows. *)
Lemma merge_info_of_span offset data info ch first last first_row :
  merge_info_sound offset data info ->
  channel_span offset data ch first last first_row ->
  exists mi, (ch, mi) ∈ info /\ start_row mi = first /\ end_row mi = last
             /\ cdap_actual_cost mi = col7 first_row
             /\ mi_original_cost mi = col8 first_row.
Proof.
  intros (_ & Hkeys & Hspans) Hspan.
  assert (Hin : ch ∈ map fst info).
  { destruct Hspan as (i & j & rj & _ & _ & _ & Hi & _ & <- & _).
    apply Hkeys. eapply list_elem_of_lookup_2. exact Hi. }
  apply list_elem_of_fmap in Hin as ([c mi] & -> & Hin). cbn [fst] in *.
  destruct (Hspans _ _ Hin) as (fr & Hspan' & H7 & H8).
  destruct (channel_span_unique _ _ _ _ _ _ _ _ _ Hspan' Hspan) as (Hs & He & ->).
  exists mi. auto.
Qed.

(** One turn of the loop over the results. *)
Lemma export_result_step_sound done sheet result :
  cdap_sheet_sound done sheet ->
  exists sheet',
    export_result_step (sheet, block_offset done (length done)) result
    = (sheet', block_offset (done ++ [result]) (length (done ++ [result])))
    /\ cdap_sheet_sound (done ++ [result]) sheet'.
Proof.
  intros (Hrows & Hmerged & Hassigned).
  set (offset := block_offset done (length done)).
  destruct (export_rows_loop offset (cdap_base_data result) [] sheet []
              (merge_info_sound_nil offset)) as (info & Hloop & Hinfo).
  cbn [length app] in Hloop, Hinfo. rewrite Nat.add_0_r in Hloop.
  unfold export_result_step. rewrite Hloop.
  set (sheet1 := {| title := title sheet;
                    appended := appended sheet ++ map cells (cdap_base_data result);
                    merged := merged sheet; assigned := assigned sheet;
                    centred := centred sheet |}).
  destruct (merge_loop info sheet1) as (_ & Hrows' & Hmerged' & Hassigned').
  exists (fold_left merge_step info sheet1). split.
  { f_equal. rewrite !block_offset_all, all_cdap_rows_snoc, length_app.
    unfold offset. rewrite block_offset_all. lia. }
  assert (Hoffset : block_offset (done ++ [result]) (length done) = offset).
  { apply block_offset_app. lia. }
  split; [|split].
  - rewrite Hrows'. cbn. rewrite Hrows, all_cdap_rows_snoc, map_app. reflexivity.
  - intros r. rewrite Hmerged'. cbn [merged sheet1]. rewrite Hmerged. split.
    + intros [(t & res & ch & fr & Ht & Hspan & Hrest)
             | (ch & mi & Hin & Hlt & Hf & Hl & Hcol)].
      * exists t, res, ch, fr. pose proof (lookup_lt_Some _ _ _ Ht).
        split; [apply lookup_app_l_Some; assumption|].
        rewrite block_offset_app by lia. auto.
      * destruct Hinfo as (_ & _ & Hspans).
        destruct (Hspans _ _ Hin) as (fr & Hspan & _).
        exists (length done), result, ch, fr.
        split; [apply lookup_snoc_cases; auto|].
        rewrite Hoffset, Hf, Hl. split; [assumption|]. split; [lia | assumption].
    + intros (t & res & ch & fr & Ht & Hspan & Hlt & Hcol).
      apply lookup_snoc_cases in Ht as [[Hlen Ht] | [-> ->]].
      * left. exists t, res, ch, fr. rewrite block_offset_app in Hspan by lia. auto.
      * right. rewrite Hoffset in Hspan.
        destruct (merge_info_of_span _ _ _ _ _ _ _ Hinfo Hspan)
          as (mi & Hin & Hs & He & _).
        exists ch, mi. rewrite Hs, He. auto.
  - intros col k v. rewrite Hassigned'. cbn [assigned sheet1]. rewrite Hassigned. split.
    + intros [(t & res & ch & last & fr & Ht & Hspan & Hrest)
             | (ch & mi & Hin & Hlt & -> & Hval)].
      * exists t, res, ch, last, fr. pose proof (lookup_lt_Some _ _ _ Ht).
        split; [apply lookup_app_l_Some; assumption|].
        rewrite block_offset_app by lia. auto.
      * destruct Hinfo as (_ & _ & Hspans).
        destruct (Hspans _ _ Hin) as (fr & Hspan & H7 & H8).
        exists (length done), result, ch, (end_row mi), fr.
        split; [apply lookup_snoc_cases; auto|].
        rewrite Hoffset, <- H7, <- H8. auto.
    + intros (t & res & ch & last & fr & Ht & Hspan & Hlt & Hval).
      apply lookup_snoc_cases in Ht as [[Hlen Ht] | [-> ->]].
      * left. exists t, res, ch, last, fr. rewrite block_offset_app in Hspan by lia. auto.
      * right. rewrite Hoffset in Hspan.
        destruct (merge_info_of_span _ _ _ _ _ _ _ Hinfo Hspan)
          as (mi & Hin & Hs & He & H7 & H8).
        exists ch, mi. rewrite Hs, He, H7, H8. auto.
Qed.

Lemma export_results_loop todo : forall done sheet,
  cdap_sheet_sound done sheet ->
  exists sheet' n,
    fold_left export_result_step todo (sheet, block_offset done (length done))
    = (sheet', n)
    /\ cdap_sheet_sound (done ++ todo) sheet'.
Proof.
  induction todo as [|result todo IH]; intros done sheet Hsheet.
  - exists sheet, (block_offset done (length done)). rewrite app_nil_r. auto.
  - cbn [fold_left].
    destruct (export_result_step_sound done sheet result Hsheet) as (sheet1 & -> & Hsheet1).
    destruct (IH _ _ Hsheet1) as (sheet' & n & Hloop & Hsheet').
    exists sheet', n. rewrite <- app_assoc in Hsheet'. auto.
Qed.

Lemma ads_sheet_loop results : forall sheet,
  fold_left (fun sheet result =>
               fold_left (fun sheet row => append (cells row) sheet)
                         (ads_backend_data result) sheet) results sheet
  = {| title := title sheet;
       appended := appended sheet ++ map cells (all_ads_rows results);
       merged := merged sheet; assigned := assigned sheet; centred := centred sheet |}.
Proof.
  assert (Hrows : forall data sheet,
    fold_left (fun sheet row => append (cells row) sheet) data sheet
    = {| title := title sheet; appended := appended sheet ++ map cells data;
         merged := merged sheet; assigned := assigned sheet;
         centred := centred sheet |}).
  { induction data as [|row data IH]; intros sheet; cbn [fold_left map].
    - rewrite app_nil_r. destruct sheet. reflexivity.
    - rewrite IH. cbn. rewrite <- app_assoc. reflexivity. }
  induction results as [|result results IH]; intros sheet; cbn [fold_left].
  - unfold all_ads_rows. cbn. rewrite app_nil_r. destruct sheet. reflexivity.
  - rewrite IH, Hrows. unfold all_ads_rows. cbn. rewrite map_app, app_assoc. reflexivity.
Qed.

(** The CDAP sheet of the workbook is sound. *)
Lemma export_to_excel_sound results :
  cdap_sheet_sound results (fst (export_to_excel results)).
Proof.
  unfold export_to_excel.
  assert (Hstart : cdap_sheet_sound []
            (append base_headers (new_sheet "CDAP-ROAS趋势(同期群)"))).
  { split; [reflexivity|]. split.
    - intros r. split; [intros Hr; inversion Hr|].
      intros (t & res & _ & _ & Ht & _). rewrite lookup_nil in Ht. discriminate.
    - intros col k v. split; [intros Hr; inversion Hr|].
      intros (t & res & _ & _ & _ & Ht & _). rewrite lookup_nil in Ht. discriminate. }
  destruct (export_results_loop results [] _ Hstart) as (sheet' & n & Hloop & Hsheet).
  change (block_offset [] (length [])) with 2 in Hloop. rewrite Hloop. exact Hsheet.
Qed.

Lemma lookup_map {A B} (f : A -> B) (l : list A) i : map f l !! i = f <$> l !! i.
Proof. exact (list_lookup_fmap f l i). Qed.

Lemma all_cdap_rows_split results t result :
  results !! t = Some result ->
  all_cdap_rows results
  = all_cdap_rows (take t results) ++ cdap_base_data result
    ++ all_cdap_rows (drop (S t) results).
Proof.
  intros Ht. rewrite <- (take_drop_middle results t result Ht) at 1.
  unfold all_cdap_rows. rewrite map_app, concat_app. reflexivity.
Qed.

Lemma block_offset_next results t result :
  results !! t = Some result ->
  block_offset results (S t) = block_offset results t + length (cdap_base_data result).
Proof.
  intros Ht. unfold block_offset. rewrite (take_S_r _ _ _ Ht), all_cdap_rows_snoc, length_app.
  lia.
Qed.

(** Row [k] of the result of index [t] is the row of the sheet whose number
    is [block_offset results t + k]. *)
Lemma block_row results sheet t result k row :
  cdap_sheet_sound results sheet ->
  results !! t = Some result -> cdap_base_data result !! k = Some row ->
  exists n, block_offset results t + k = S n /\ appended sheet !! n = Some (cells row).
Proof.
  intros (Hrows & _) Ht Hk.
  exists (S (length (all_cdap_rows (take t results)) + k)).
  split; [unfold block_offset; lia|].
  rewrite Hrows, lookup_cons, lookup_map.
  rewrite (all_cdap_rows_split results t result Ht).
  rewrite lookup_app_r by lia.
  replace (length (all_cdap_rows (take t results)) + k
           - length (all_cdap_rows (take t results))) with k by lia.
  rewrite (lookup_app_l_Some _ _ _ _ Hk). reflexivity.
Qed.

(** X12.  [export_to_excel] writes, in each sheet, the header and then one
    row for every processed row of every result, in order; it merges and
    assigns nothing in the ADS sheet; and row [k] of a result sits in the
    CDAP sheet at the row number the loop holds in [current_row] for it. *)
Theorem workbook_rows_in_order results :
  appended (fst (export_to_excel results))
  = base_headers :: map cells (all_cdap_rows results)
  /\ appended (snd (export_to_excel results))
     = ads_headers :: map cells (all_ads_rows results)
  /\ merged (snd (export_to_excel results)) = []
  /\ assigned (snd (export_to_excel results)) = []
  /\ (forall t result k row,
        results !! t = Some result -> cdap_base_data result !! k = Some row ->
        exists n, block_offset results t + k = S n
                  /\ appended (fst (export_to_excel results)) !! n = Some (cells row)).
Proof.
  pose proof (export_to_excel_sound results) as Hsound.
  split; [apply Hsound|].
  assert (Hads : snd (export_to_excel results)
                 = {| title := "ADS-同期群ROAS";
                      appended := ads_headers :: map cells (all_ads_rows results);
                      merged := []; assigned := []; centred := [] |}).
  { unfold export_to_excel.
    destruct (fold_left export_result_step results _) as [sheet n].
    cbn [snd]. rewrite ads_sheet_loop. reflexivity. }
  rewrite Hads. do 3 (split; [reflexivity|]).
  intros t result k row. apply block_row. exact Hsound.
Qed.

(** X13.  In the CDAP sheet a range is merged exactly for a channel that
    has more than one row in a result, once in column H and once in column
    I, from the first to the last row of that channel in the result; so a
    merged range lies within the rows of one result. *)
Theorem merged_ranges_span_channels results :
  (forall r, r ∈ merged (fst (export_to_excel results)) <->
     exists t result ch first_row,
       results !! t = Some result
       /\ channel_span (block_offset results t) (cdap_base_data result) ch
                       (range_first r) (range_last r) first_row
       /\ range_first r < range_last r
       /\ (range_column r = "H" \/ range_column r = "I"))
  /\ (forall r, r ∈ merged (fst (export_to_excel results)) ->
       exists t, t < length results
                 /\ block_offset results t <= range_first r
                 /\ range_first r < range_last r
                 /\ range_last r < block_offset results (S t)).
Proof.
  destruct (export_to_excel_sound results) as (_ & Hmerged & _).
  split; [exact Hmerged|].
  intros r Hr. apply Hmerged in Hr as (t & result & ch & fr & Ht & Hspan & Hlt & _).
  exists t. split; [eapply lookup_lt_Some; eassumption|].
  rewrite (block_offset_next results t result Ht).
  destruct Hspan as (i & j & rj & Hf & Hl & _ & _ & Hj & _).
  pose proof (lookup_lt_Some _ _ _ Hj). lia.
Qed.

(** X14.  Every value [export_to_excel] assigns to a cell after merging is
    the value the row of that cell was appended with: column H holds cell 7
    of the row, column I cell 8. *)
Theorem assignments_repeat_appended_values results col k v :
  (col, k, v) ∈ assigned (fst (export_to_excel results)) ->
  exists n row_cells,
    k = S n
    /\ appended (fst (export_to_excel results)) !! n = Some row_cells
    /\ ((col = "H"%string /\ row_cells !! 7 = Some v)
        \/ (col = "I"%string /\ row_cells !! 8 = Some v)).
Proof.
  pose proof (export_to_excel_sound results) as Hsound.
  destruct Hsound as (Hrows & _ & Hassigned).
  intros Hin. apply Hassigned in Hin as (t & result & ch & last & fr & Ht & Hspan & _ & Hval).
  destruct Hspan as (i & j & rj & -> & _ & _ & Hi & _).
  destruct (block_row results _ t result i fr (export_to_excel_sound results) Ht Hi)
    as (n & Hn & Hrow).
  exists n, (cells fr). split; [exact Hn|]. split; [exact Hrow|].
  destruct Hval as [[-> ->] | [-> ->]]; [left | right]; split; reflexivity.
Qed.

End WorkbookFacts.

(** ** A whole run of the v1 script *)

Section RunFacts.

Variable db : Store.
Variable tables : DetailTables.

Local Open Scope nat_scope.

Lemma validate_single_channel_returns ch d :
  exists result,
    value (validate_single_channel db tables ch d) = Ok result
    /\ validated db tables d ch result.
Proof.
  destruct (cdap_detail_query_returns db tables ch d) as (cdap & Hcdap & _).
  destruct (ads_detail_query_returns db tables ch d) as (ads & Hads).
  unfold validate_single_channel. rewrite value_bind, Hcdap, value_bind, Hads.
  eexists. split; [reflexivity|]. repeat split; assumption.
Qed.

Lemma validate_channels_loop d channels : forall acc,
  exists results,
    value (for_each (fun validation_results channel =>
                       do result <- validate_single_channel db tables channel d ;;
                       ret (validation_results ++ [result]))
                    channels acc) = Ok (acc ++ results)
    /\ Forall2 (validated db tables d) channels results.
Proof.
  induction channels as [|ch channels IH]; intros acc.
  - exists []. rewrite app_nil_r. split; [reflexivity | constructor].
  - cbn [for_each]. rewrite value_bind, value_bind.
    destruct (validate_single_channel_returns ch d) as (result & -> & Hresult).
    cbn [ret value fst].
    destruct (IH (acc ++ [result])) as (results & -> & Hall).
    exists (result :: results). rewrite <- app_assoc. split; [reflexivity|].
    constructor; assumption.
Qed.

(** X11.  [run_validation] raises [ValueError], before any query, when the
    date or the list of channels is empty; otherwise it does not raise, and
    the workbook it builds is that of one result for every channel, in
    order, each holding what the two detail queries return for the channel
    and the date. *)
Theorem run_validation_checks_parameters d channels :
  (d = ""%string \/ channels = [] ->
   run_validation db tables d channels = (Raise ValueError, []))
  /\ (d <> ""%string -> channels <> [] ->
      exists results,
        value (run_validation db tables d channels) = Ok (export_to_excel results)
        /\ Forall2 (validated db tables d) channels results).
Proof.
  split.
  - intros [-> | ->]; [reflexivity|]. unfold run_validation.
    rewrite orb_true_r. reflexivity.
  - intros Hd Hchannels. unfold run_validation.
    assert (Hdates : truthy (Some d) = true).
    { cbn. destruct (String.eqb_spec d ""); [contradiction | reflexivity]. }
    rewrite Hdates. destruct channels as [|ch channels]; [contradiction|].
    cbn [negb orb length Nat.eqb].
    destruct (validate_channels_loop d (ch :: channels) []) as (results & Hloop & Hall).
    exists results. unfold validate_channels. rewrite value_bind, Hloop.
    split; [reflexivity | exact Hall].
Qed.

(** X15.  In the workbook of a run, a merged range hides no amount: when
    the detail query answers with rows of the channel asked for, as its
    [WHERE] clause says, all rows of the sheet within a merged range hold the
    same values in columns H and I (cells 7 and 8). *)
Theorem merged_cells_hide_no_amount d channels sheets r n n' row_cells row_cells' :
  (forall ch rows, select_cdap_base tables ch d = Ok rows ->
                   Forall (fun row => channel (cdap_head row) = ch) rows) ->
  value (run_validation db tables d channels) = Ok sheets ->
  r ∈ merged (fst sheets) ->
  range_first r <= S n <= range_last r ->
  range_first r <= S n' <= range_last r ->
  appended (fst sheets) !! n = Some row_cells ->
  appended (fst sheets) !! n' = Some row_cells' ->
  row_cells !! 7 = row_cells' !! 7 /\ row_cells !! 8 = row_cells' !! 8.
Proof.
  intros Hwhere Hrun Hr Hn Hn' Hcells Hcells'.
  assert (Hresults : exists results,
    sheets = export_to_excel results /\ Forall2 (validated db tables d) channels results).
  { unfold run_validation in Hrun. destruct (_ || _); [discriminate|].
    apply bind_Ok in Hrun as (results & Hloop & Hret).
    apply value_ret in Hret as <-. exists results. split; [reflexivity|].
    destruct (validate_channels_loop d channels []) as (results' & Hloop' & Hall).
    unfold validate_channels in Hloop. rewrite Hloop in Hloop'.
    injection Hloop' as ->. exact Hall. }
  destruct Hresults as (results & -> & Hall).
  pose proof (export_to_excel_sound results) as Hsound.
  pose proof Hsound as (_ & Hmerged & _).
  apply Hmerged in Hr as (t & result & ch & fr & Ht & Hspan & _ & _).
  destruct Hspan as (i & j & rj & Hfirst & Hlast & _ & _ & Hj & _).
  pose proof (lookup_lt_Some _ _ _ Hj) as Hlen.
  (* the rows of the result come from one run of the engine on rows of one channel *)
  destruct (Forall2_lookup_r _ _ _ _ _ Hall Ht) as (c & _ & _ & _ & _ & Hcdap & _).
  destruct (cdap_detail_query_returns db tables c d) as (out & Hout & Hfrom).
  rewrite Hcdap in Hout. injection Hout as <-.
  destruct Hfrom as [Hnil | (rows & Hrows & Hprocessed)].
  { rewrite Hnil in Hlen. simpl in Hlen. lia. }
  assert (Hchannel : forall o, o ∈ cdap_base_data result -> channel (out_head o) = c).
  { intros o Ho. apply list_elem_of_lookup in Ho as [k Ho].
    destruct (Forall2_lookup_r _ _ _ _ _ (process_cdap_processed db _ _ Hprocessed) Ho)
      as (row & Hrow & Hhead & _).
    apply lookup_objects_Some in Hrow as [_ Hrow].
    rewrite Hhead. pose proof (Hwhere c rows Hrows) as Hc. rewrite Forall_forall in Hc.
    apply Hc. eapply list_elem_of_lookup_2; eassumption. }
  assert (Hrow : forall m cs,
    range_first r <= S m <= range_last r -> appended (fst (export_to_excel results)) !! m = Some cs ->
    exists o, o ∈ cdap_base_data result /\ cs = cells o).
  { intros m cs Hm Hcs.
    destruct (lookup_lt_is_Some_2 (cdap_base_data result) (S m - block_offset results t))
      as [o Ho]; [lia|].
    destruct (block_row results _ t result _ o Hsound Ht Ho) as (m' & Hm' & Hrow).
    assert (m' = m) as -> by lia. rewrite Hrow in Hcs. injection Hcs as <-.
    exists o. split; [eapply list_elem_of_lookup_2; eassumption | reflexivity]. }
  destruct (Hrow n row_cells Hn Hcells) as (o & Ho & ->).
  destruct (Hrow n' row_cells' Hn' Hcells') as (o' & Ho' & ->).
  destruct (process_cdap_one_total db rows _ Hprocessed o o' Ho Ho') as [H7 H8].
  { rewrite (Hchannel o Ho), (Hchannel o' Ho'). reflexivity. }
  unfold cells. cbn [lookup list_lookup]. rewrite H7, H8. split; reflexivity.
Qed.

End RunFacts.

(** ** The lookups of the configuration *)

Section ConfigurationLookups.

Variable db : Store.

Lemma queries_query_rate_entity d b s :
  queries (query_rate_entity db d b s) = [SelectRate d b s].
Proof.
  unfold query_rate_entity. rewrite queries_catch_all, queries_bind.
  cbn [execute queries value snd fst].
  destruct (select_rate db d b s) as [[cell|]|e]; try reflexivity.
  destruct cell as [|z|f|t]; try reflexivity;
    rewrite queries_bind; unfold lift, queries, value; cbn [fst snd];
    match goal with |- context [float_of ?v] => destruct (float_of v) end;
    reflexivity.
Qed.

Lemma queries_get_currency_by_pn pn :
  queries (get_currency_by_pn db pn) = [SelectCurrency pn].
Proof.
  unfold get_currency_by_pn. rewrite queries_catch_all, queries_bind.
  cbn [execute queries value snd fst].
  destruct (select_currency db pn) as [[c|]|e]; reflexivity.
Qed.

Lemma queries_get_pn_by_channel ch :
  queries (get_pn_by_channel db ch) = [SelectPnByChannel ch].
Proof.
  unfold get_pn_by_channel. rewrite queries_catch_all, queries_bind.
  cbn [execute queries value snd fst].
  destruct (select_pn_by_channel db ch) as [[c|]|e]; reflexivity.
Qed.

(** X19.  The four lookups of the configuration never raise and run one
    query each.  A rate is found exactly when the table answers with a cell
    that is not [NULL] and that [float] accepts; a project is found exactly
    when the table answers with a row whose [extra_rate] is [NULL] (then 1.0)
    or a cell [float] accepts.  The project of a channel and the currency of
    a project are what the table answers, and [None] when it has no row or
    raises. *)
Theorem configuration_lookups_never_raise :
  (forall d b s,
     queries (query_rate_entity db d b s) = [SelectRate d b s]
     /\ (exists found, value (query_rate_entity db d b s) = Ok found)
     /\ forall r, value (query_rate_entity db d b s) = Ok (Some r)
                  <-> exists cell, select_rate db d b s = Ok (Some cell)
                                   /\ cell <> PNone /\ float_of cell = Ok r)
  /\ (forall pn,
       queries (query_project_entity db pn) = [SelectProject pn]
       /\ (exists found, value (query_project_entity db pn) = Ok found)
       /\ forall pe, value (query_project_entity db pn) = Ok (Some pe)
                     <-> exists cell, select_project db pn = Ok (Some cell)
                                      /\ ((cell = PNone /\ pe_extra_rate pe = 1%float)
                                          \/ (cell <> PNone
                                              /\ float_of cell = Ok (pe_extra_rate pe))))
  /\ (forall ch,
       get_pn_by_channel db ch
       = (Ok match select_pn_by_channel db ch with
             | Ok (Some pn) => pn
             | _ => None
             end, [SelectPnByChannel ch]))
  /\ (forall pn,
       get_currency_by_pn db pn
       = (Ok match select_currency db pn with
             | Ok (Some currency) => currency
             | _ => None
             end, [SelectCurrency pn])).
Proof.
  split; [|split; [|split]].
  - intros d b s. split; [apply queries_query_rate_entity|].
    split; [apply query_rate_entity_returns|].
    intros r. unfold query_rate_entity. rewrite value_catch_all, value_bind.
    cbn [execute value fst].
    destruct (select_rate db d b s) as [[cell|]|e].
    + destruct cell as [|z|f|t].
      * split; [discriminate|]. intros (cell & [= <-] & Hcell & _). contradiction.
      * rewrite value_bind, value_lift.
        destruct (float_of (PInt z)) as [x|e] eqn:Hf; cbn [ret value fst]; split.
        -- intros [= <-]. exists (PInt z). auto.
        -- intros (cell & [= <-] & _ & Hx). congruence.
        -- discriminate.
        -- intros (cell & [= <-] & _ & Hx). congruence.
      * rewrite value_bind, value_lift. cbn [float_of ret value fst]. split.
        -- intros [= <-]. exists (PFloat f). auto.
        -- intros (cell & [= <-] & _ & Hx). cbn in Hx. congruence.
      * rewrite value_bind, value_lift.
        destruct (float_of (PStr t)) as [x|e] eqn:Hf; cbn [ret value fst]; split.
        -- intros [= <-]. exists (PStr t). auto.
        -- intros (cell & [= <-] & _ & Hx). congruence.
        -- discriminate.
        -- intros (cell & [= <-] & _ & Hx). congruence.
    + split; [discriminate|]. intros (cell & Hcell & _). discriminate.
    + split; [discriminate|]. intros (cell & Hcell & _). discriminate.
  - intros pn. split; [apply queries_query_project_entity|].
    split; [apply query_project_entity_returns|].
    intros [extra]. unfold query_project_entity. rewrite value_catch_all, value_bind.
    cbn [execute value fst pe_extra_rate].
    destruct (select_project db pn) as [[cell|]|e].
    + destruct cell as [|z|f|t].
      * cbn. split.
        -- intros [= <-]. exists PNone. auto.
        -- intros (cell & [= <-] & [[_ ->] | [Hcell _]]); [reflexivity | contradiction].
      * rewrite value_bind, value_lift.
        destruct (float_of (PInt z)) as [x|e] eqn:Hf; cbn [ret value fst]; split.
        -- intros [= <-]. exists (PInt z). split; [reflexivity|]. right. auto.
        -- intros (cell & [= <-] & [[Hcell _] | [_ Hx]]); [discriminate | congruence].
        -- discriminate.
        -- intros (cell & [= <-] & [[Hcell _] | [_ Hx]]); [discriminate | congruence].
      * rewrite value_bind, value_lift. cbn [float_of ret value fst]. split.
        -- intros [= <-]. exists (PFloat f). split; [reflexivity|]. right. auto.
        -- intros (cell & [= <-] & [[Hcell _] | [_ Hx]]); [discriminate|].
           cbn in Hx. congruence.
      * rewrite value_bind, value_lift.
        destruct (float_of (PStr t)) as [x|e] eqn:Hf; cbn [ret value fst]; split.
        -- intros [= <-]. exists (PStr t). split; [reflexivity|]. right. auto.
        -- intros (cell & [= <-] & [[Hcell _] | [_ Hx]]); [discriminate | congruence].
        -- discriminate.
        -- intros (cell & [= <-] & [[Hcell _] | [_ Hx]]); [discriminate | congruence].
    + split; [discriminate|]. intros (cell & Hcell & _). discriminate.
    + split; [discriminate|]. intros (cell & Hcell & _). discriminate.
  - intros ch. unfold get_pn_by_channel, execute.
    destruct (select_pn_by_channel db ch) as [[pn|]|e]; reflexivity.
  - intros pn. unfold get_currency_by_pn, execute.
    destruct (select_currency db pn) as [[c|]|e]; reflexivity.
Qed.

(** X18.  The v1 conversion asks for the project, then for the currency,
    then for the rate, each at most once, and stops asking where it stops
    converting; it never reads the ledger. *)
Theorem conversion_queries_in_order d v pn :
  queries (currency_to_usd_with_details db d v pn)
  = match pn with
    | None => []
    | Some p =>
        if is_none v then []
        else
          SelectProject p ::
          match float_of v with
          | Raise _ => []
          | Ok _ =>
              SelectCurrency p ::
              match value (get_currency_by_pn db p) with
              | Ok (Some cur) => if truthy (Some cur) then [SelectRate d "USD" cur] else []
              | _ => []
              end
          end
    end.
Proof.
  unfold currency_to_usd_with_details.
  destruct pn as [p|]; [|destruct (is_none v); reflexivity].
  destruct (is_none v); [reflexivity|].
  rewrite queries_bind, queries_query_project_entity.
  destruct (query_project_entity_returns db p) as [pe ->]. cbn [app]. f_equal.
  destruct (float_of v) as [f|e].
  2: { destruct (ValueError_or_TypeError e); reflexivity. }
  rewrite queries_bind, queries_get_currency_by_pn. cbn [app]. f_equal.
  destruct (get_currency_by_pn_returns db p) as [c ->].
  destruct c as [cur|]; [|reflexivity].
  destruct (truthy (Some cur)); [|reflexivity]. cbn [negb].
  rewrite queries_bind, queries_query_rate_entity.
  destruct (query_rate_entity_returns db d "USD" cur) as [rt ->].
  destruct (rate_or_default cur rt) as [r|]; [|reflexivity].
  destruct (nonzero r); reflexivity.
Qed.

End ConfigurationLookups.

(** ** The cost of a campaign *)

Section CampaignCostFacts.

Variable db : Store.

(** The conversion of a float that comes out non-zero. *)
Lemma conversion_of_float_nonzero d f pn r :
  value (currency_to_usd_with_details db d (PFloat f) pn) = Ok r ->
  nonzero (cost_usd r) = true ->
  exists cur rt extra,
    currency r = Some cur /\ rate r = Some rt /\ extra_rate r = Some extra
    /\ nonzero rt = true /\ cost_usd r = round2 (f * extra / rt)%float.
Proof.
  intros Hr Hnz.
  destruct (conversion_outcomes db d (PFloat f) pn)
    as [[_ Hout] | (p & pe & _ & _ & _ & Hrest)]; cbv zeta in *.
  { rewrite Hr in Hout. injection Hout as ->. discriminate Hnz. }
  destruct Hrest as [(e & Hf & _) | (f' & c & [= <-] & _ & Hrest)]; [discriminate Hf|].
  destruct Hrest as [[_ Hout] | (cur & lu & _ & _ & _ & Hrest)].
  { rewrite Hr in Hout. injection Hout as ->. discriminate Hnz. }
  destruct Hrest as [[_ Hout] | (rt & _ & [[_ Hout] | [Hrt Hout]])];
    rewrite Hr in Hout; injection Hout as ->; try discriminate Hnz.
  exists cur, rt, (extra_rate_of pe). auto.
Qed.

Lemma campaign_cost_shape (lookup : M float) pn_known d pn info :
  (exists c, value lookup = Ok c) ->
  value (try_except Exception
           (do cost_amount <- lookup ;;
            let result := set_original_cost cost_amount empty_cost_info in
            if PrimFloat.eqb cost_amount 0 then ret result
            else if negb pn_known then ret result
            else
              try_except Exception
                (do conversion_result <-
                   currency_to_usd_with_details db d (PFloat cost_amount) pn ;;
                 ret (update result conversion_result))
                (ret result))
           (ret empty_cost_info)) = Ok info ->
  value lookup = Ok (original_cost info)
  /\ (nonzero (ci_cost_usd info) = true ->
      nonzero (original_cost info) = true
      /\ exists cur rt extra,
           ci_currency info = Some cur /\ ci_rate info = Some rt
           /\ ci_extra_rate info = Some extra /\ nonzero rt = true
           /\ ci_cost_usd info = round2 (original_cost info * extra / rt)%float).
Proof.
  intros [c Hc]. rewrite value_catch_all, value_bind, Hc. cbv zeta.
  destruct (PrimFloat.eqb c 0) eqn:Hzero.
  { intros [= <-]. split; [reflexivity|]. discriminate. }
  destruct (negb pn_known).
  { intros [= <-]. split; [reflexivity|]. discriminate. }
  rewrite value_catch_all, value_bind.
  destruct (value (currency_to_usd_with_details db d (PFloat c) pn)) as [r|e] eqn:Hr.
  - intros [= <-].
    cbn [update set_original_cost empty_cost_info original_cost ci_cost_usd
         ci_currency ci_rate ci_extra_rate].
    split; [reflexivity|]. intros Hnz.
    split; [unfold nonzero; change PrimFloat.zero with 0%float; rewrite Hzero; reflexivity|].
    apply (conversion_of_float_nonzero d c pn r Hr Hnz).
  - intros [= <-]. split; [reflexivity|]. discriminate.
Qed.

(** X20.  What both cost calculations of v1 return hangs together:
    [original_cost] is the sum the ledger lookup returned, whatever became
    of the conversion; and a [cost_usd] that is not zero is
    [round(original_cost * extra_rate / rate, 2)] for the [extra_rate] and
    [rate] returned next to it, which are both there, as the currency is. *)
Theorem cost_info_hangs_together d campaign_id ch pn :
  (forall info,
     value (calculate_campaign_cost_with_details db d campaign_id pn) = Ok info ->
     value (query_campaign_cost db d campaign_id) = Ok (original_cost info)
     /\ (nonzero (ci_cost_usd info) = true ->
         nonzero (original_cost info) = true
         /\ exists cur rt extra,
              ci_currency info = Some cur /\ ci_rate info = Some rt
              /\ ci_extra_rate info = Some extra /\ nonzero rt = true
              /\ ci_cost_usd info = round2 (original_cost info * extra / rt)%float))
  /\ (forall info,
       value (calculate_campaign_cost_with_channel_details db d campaign_id ch pn)
       = Ok info ->
       value (query_campaign_cost_by_channel db d campaign_id ch)
       = Ok (original_cost info)
       /\ (nonzero (ci_cost_usd info) = true ->
           nonzero (original_cost info) = true
           /\ exists cur rt extra,
                ci_currency info = Some cur /\ ci_rate info = Some rt
                /\ ci_extra_rate info = Some extra /\ nonzero rt = true
                /\ ci_cost_usd info = round2 (original_cost info * extra / rt)%float)).
Proof.
  split; intros info Hinfo.
  - apply (campaign_cost_shape (query_campaign_cost db d campaign_id) true d pn info);
      [apply query_campaign_cost_returns | exact Hinfo].
  - apply (campaign_cost_shape (query_campaign_cost_by_channel db d campaign_id ch)
             (truthy pn) d pn info);
      [apply query_campaign_cost_by_channel_returns | exact Hinfo].
Qed.

End CampaignCostFacts.

(** ** The older script *)

Section LegacyEngineFacts.

Variable db : Store.

Lemma legacy_conversion_of_rupees d c :
  exists pe looked_up,
    value (query_project_entity db "IN") = Ok pe
    /\ value (query_rate_entity db d "USD" "INR") = Ok looked_up
    /\ value (Legacy.currency_to_usd_with_details db d (PFloat c) (Some "IN"%string))
       = Ok (let r := match looked_up with Some r => r | None => 78.5%float end in
             {| Legacy.cost_usd :=
                  if nonzero r then PFloat (round2 (c * extra_rate_of pe / r)%float)
                  else PFloat c;
                Legacy.currency := "INR"; Legacy.rate := r;
                Legacy.extra_rate := extra_rate_of pe |}).
Proof.
  destruct (query_project_entity_returns db "IN") as [pe Hpe].
  destruct (query_rate_entity_returns db d "USD" "INR") as [lu Hlu].
  exists pe, lu. split; [assumption|]. split; [assumption|].
  unfold Legacy.currency_to_usd_with_details. cbn [is_none].
  rewrite value_bind, Hpe, value_bind, value_lift. cbn [Legacy.times float_of].
  change (Legacy.get_currency_by_pn "IN") with "INR"%string.
  change (negb (truthy (Some "INR"%string))) with false. cbv iota.
  rewrite value_bind, Hlu. unfold rate_or_default.
  change (upper "INR" =? "INR")%string with true.
  destruct lu as [r|]; cbv zeta; cbv iota;
    match goal with |- context [nonzero ?r] => destruct (nonzero r) end; reflexivity.
Qed.

(** X16.  In the older script the cost of a campaign never raises, and is
    always reckoned in rupees: when the sum of the ledger is not zero the
    currency is "INR", the rate is the rate of the date or 78.5 when there is
    none, and [cost_usd] is [round(cost * extra_rate / rate, 2)], or the sum
    itself, unconverted, when the rate is 0.  When the sum is zero, the
    defaults ("USD", 1.0, 1.0) stay. *)
Theorem legacy_cost_is_reckoned_in_rupees d campaign_id :
  exists c pe looked_up,
    value (query_campaign_cost db d campaign_id) = Ok c
    /\ value (query_project_entity db "IN") = Ok pe
    /\ value (query_rate_entity db d "USD" "INR") = Ok looked_up
    /\ value (LegacyEngine.calculate_campaign_cost_with_details db d campaign_id)
       = Ok (if PrimFloat.eqb c 0 then
               {| LegacyEngine.cost_usd := PFloat 0; LegacyEngine.original_cost := c;
                  LegacyEngine.currency := "USD"; LegacyEngine.rate := 1;
                  LegacyEngine.extra_rate := 1 |}
             else
               let r := match looked_up with Some r => r | None => 78.5%float end in
               {| LegacyEngine.cost_usd :=
                    if nonzero r then PFloat (round2 (c * extra_rate_of pe / r)%float)
                    else PFloat c;
                  LegacyEngine.original_cost := c;
                  LegacyEngine.currency := "INR"; LegacyEngine.rate := r;
                  LegacyEngine.extra_rate := extra_rate_of pe |}).
Proof.
  destruct (query_campaign_cost_returns db d campaign_id) as [c Hc].
  destruct (legacy_conversion_of_rupees d c) as (pe & lu & Hpe & Hlu & Hconv).
  exists c, pe, lu. do 3 (split; [assumption|]).
  unfold LegacyEngine.calculate_campaign_cost_with_details.
  rewrite value_catch_all, value_bind, Hc. cbv zeta.
  destruct (PrimFloat.eqb c 0); [reflexivity|].
  change (negb (truthy (Some (LegacyEngine.get_pn_by_campaign_id campaign_id))))
    with false. cbv iota.
  change (LegacyEngine.get_pn_by_campaign_id campaign_id) with "IN"%string.
  rewrite value_catch_all, value_bind, Hconv. reflexivity.
Qed.

Lemma legacy_cost_returns d campaign_id :
  exists info,
    value (LegacyEngine.calculate_campaign_cost_with_details db d campaign_id) = Ok info.
Proof.
  unfold LegacyEngine.calculate_campaign_cost_with_details. rewrite value_catch_all.
  destruct (value (bind _ _)); eauto.
Qed.

Lemma first_of_campaign_snoc campaign seen row :
  LegacyEngine.first_of_campaign campaign (seen ++ [row])
  = match LegacyEngine.first_of_campaign campaign seen with
    | Some first_row => Some first_row
    | None => if decide (campaign_id (LegacyEngine.head row) = campaign) then Some row
              else None
    end.
Proof.
  unfold LegacyEngine.first_of_campaign. rewrite filter_app.
  destruct (filter _ seen) as [|first_row l]; [|reflexivity]. cbn [app].
  rewrite filter_cons, filter_nil.
  destruct (decide (campaign_id (LegacyEngine.head row) = campaign)); reflexivity.
Qed.

Lemma first_of_campaign_elem seen row :
  row ∈ seen ->
  exists first_row,
    LegacyEngine.first_of_campaign (campaign_id (LegacyEngine.head row)) seen
    = Some first_row.
Proof.
  intros Hrow. unfold LegacyEngine.first_of_campaign.
  destruct (filter _ seen) as [|first_row l] eqn:Hfilter; [|eauto].
  assert (Hin : row ∈ filter (fun r => campaign_id (LegacyEngine.head r)
                                        = campaign_id (LegacyEngine.head row)) seen)
    by (apply list_elem_of_filter; auto).
  rewrite Hfilter in Hin. inversion Hin.
Qed.

Lemma campaign_cost_step_sound seen costs row :
  LegacyEngine.campaign_costs_sound db seen costs ->
  exists costs',
    value (LegacyEngine.campaign_cost_step db costs row) = Ok costs'
    /\ LegacyEngine.campaign_costs_sound db (seen ++ [row]) costs'.
Proof.
  intros Hsound. unfold LegacyEngine.campaign_cost_step.
  set (cid := campaign_id (LegacyEngine.head row)).
  pose proof (Hsound cid) as Hcid.
  destruct (costs !! cid) as [known|] eqn:Hknown.
  - exists costs. split; [reflexivity|]. intros c.
    rewrite first_of_campaign_snoc. specialize (Hsound c).
    destruct (LegacyEngine.first_of_campaign c seen) as [fr|]; [exact Hsound|].
    fold cid. destruct (decide (cid = c)) as [<-|_]; [congruence | exact Hsound].
  - destruct (LegacyEngine.first_of_campaign cid seen) as [fr|] eqn:Hfirst.
    { destruct Hcid as (info & Hinfo & _). discriminate. }
    rewrite value_bind.
    destruct (legacy_cost_returns (dates (LegacyEngine.head row)) cid) as [info Hinfo].
    rewrite Hinfo. eexists. split; [reflexivity|]. intros c.
    rewrite first_of_campaign_snoc. specialize (Hsound c). fold cid.
    destruct (decide (cid = c)) as [<-|Hother].
    + rewrite Hfirst. exists info. split; [apply lookup_insert_eq | exact Hinfo].
    + rewrite lookup_insert_ne by assumption.
      destruct (LegacyEngine.first_of_campaign c seen); exact Hsound.
Qed.

Lemma campaign_costs_loop rows : forall seen costs,
  LegacyEngine.campaign_costs_sound db seen costs ->
  exists costs',
    value (for_each (LegacyEngine.campaign_cost_step db) rows costs) = Ok costs'
    /\ LegacyEngine.campaign_costs_sound db (seen ++ rows) costs'.
Proof.
  induction rows as [|row rows IH]; intros seen costs Hsound.
  - exists costs. rewrite app_nil_r. auto.
  - cbn [for_each]. rewrite value_bind.
    destruct (campaign_cost_step_sound seen costs row Hsound) as (costs1 & -> & Hsound1).
    destruct (IH _ _ Hsound1) as (costs' & Hloop & Hsound').
    exists costs'. rewrite <- app_assoc in Hsound'. auto.
Qed.

Lemma attach_costs_loop all_rows costs rows : forall acc,
  LegacyEngine.campaign_costs_sound db all_rows costs ->
  (forall row, row ∈ rows -> row ∈ all_rows) ->
  exists out,
    value (for_each (LegacyEngine.attach_cost_step costs) rows acc) = Ok (acc ++ out)
    /\ Forall2 (fun row o =>
         LegacyEngine.detail o = row
         /\ exists first_row,
              LegacyEngine.first_of_campaign (campaign_id (LegacyEngine.head row)) all_rows
              = Some first_row
              /\ value (LegacyEngine.calculate_campaign_cost_with_details db
                          (dates (LegacyEngine.head first_row))
                          (campaign_id (LegacyEngine.head row)))
                 = Ok (LegacyEngine.cost o)) rows out.
Proof.
  intros acc Hsound. revert acc.
  induction rows as [|row rows IH]; intros acc Hsub.
  - exists []. rewrite app_nil_r. split; [reflexivity | constructor].
  - cbn [for_each]. rewrite value_bind. unfold LegacyEngine.attach_cost_step at 1.
    destruct (first_of_campaign_elem all_rows row) as [fr Hfr]; [apply Hsub; left|].
    pose proof (Hsound (campaign_id (LegacyEngine.head row))) as Hrow.
    rewrite Hfr in Hrow. destruct Hrow as (info & -> & Hinfo). cbn [ret value fst].
    destruct (IH (acc ++ [{| LegacyEngine.detail := row; LegacyEngine.cost := info |}]))
      as (out & -> & Hall).
    { intros r Hr. apply Hsub. right. assumption. }
    eexists (_ :: out). rewrite <- app_assoc. split; [reflexivity|].
    constructor; [|exact Hall]. split; [reflexivity|]. exists fr. auto.
Qed.

(** X17.  The ADS engine of the older script never raises, and returns
    every row with the cost of its campaign next to it: the cost reckoned on
    the date of the first row of that campaign.  Rows of one campaign carry
    the same cost; no row is set to zero. *)
Theorem legacy_rows_share_campaign_cost rows :
  exists out,
    value (LegacyEngine.process_ads_data_with_cost db rows) = Ok out
    /\ Forall2 (fun row o =>
         LegacyEngine.detail o = row
         /\ exists first_row,
              LegacyEngine.first_of_campaign (campaign_id (LegacyEngine.head row)) rows
              = Some first_row
              /\ value (LegacyEngine.calculate_campaign_cost_with_details db
                          (dates (LegacyEngine.head first_row))
                          (campaign_id (LegacyEngine.head row)))
                 = Ok (LegacyEngine.cost o)) rows out
    /\ (forall o1 o2, o1 ∈ out -> o2 ∈ out ->
          campaign_id (LegacyEngine.head (LegacyEngine.detail o1))
          = campaign_id (LegacyEngine.head (LegacyEngine.detail o2)) ->
          LegacyEngine.cost o1 = LegacyEngine.cost o2).
Proof.
  assert (Hrun : exists out,
    value (LegacyEngine.process_ads_data_with_cost db rows) = Ok out
    /\ Forall2 (fun row o =>
         LegacyEngine.detail o = row
         /\ exists first_row,
              LegacyEngine.first_of_campaign (campaign_id (LegacyEngine.head row)) rows
              = Some first_row
              /\ value (LegacyEngine.calculate_campaign_cost_with_details db
                          (dates (LegacyEngine.head first_row))
                          (campaign_id (LegacyEngine.head row)))
                 = Ok (LegacyEngine.cost o)) rows out).
  { destruct (decide (rows = [])) as [->|Hne]; [exists []; split; [reflexivity|constructor]|].
    assert (Hbody : LegacyEngine.process_ads_data_with_cost db rows
                    = do campaign_costs <-
                        for_each (LegacyEngine.campaign_cost_step db) rows ∅ ;;
                      for_each (LegacyEngine.attach_cost_step campaign_costs) rows [])
      by (destruct rows; [contradiction | reflexivity]).
    rewrite Hbody, value_bind.
    destruct (campaign_costs_loop rows [] ∅) as (costs & -> & Hsound).
    { intros c. apply lookup_empty. }
    destruct (attach_costs_loop rows costs rows [] Hsound (fun _ H => H))
      as (out & -> & Hall).
    exists out. auto. }
  destruct Hrun as (out & Hout & Hall). exists out. split; [assumption|].
  split; [assumption|].
  intros o1 o2 [i1 H1]%list_elem_of_lookup [i2 H2]%list_elem_of_lookup Hsame.
  destruct (Forall2_lookup_r _ _ _ _ _ Hall H1) as (r1 & _ & Hd1 & f1 & Hf1 & Hc1).
  destruct (Forall2_lookup_r _ _ _ _ _ Hall H2) as (r2 & _ & Hd2 & f2 & Hf2 & Hc2).
  rewrite Hd1, Hd2 in Hsame. rewrite Hsame, Hf2 in Hf1. injection Hf1 as ->.
  rewrite Hsame, Hc2 in Hc1. injection Hc1 as ->. reflexivity.
Qed.

(** X21.  Where the v1 script finds rupees as the currency of project "IN",
    its conversion of a float and that of the older script agree on the
    currency, the rate and the extra rate, and on the amount whenever the
    rate is not zero; at a rate of zero the older script returns the amount
    as it came, and v1 returns 0.0. *)
Theorem conversions_agree_on_rupees d f :
  value (get_currency_by_pn db "IN") = Ok (Some "INR"%string) ->
  exists r l,
    value (currency_to_usd_with_details db d (PFloat f) (Some "IN"%string)) = Ok r
    /\ value (Legacy.currency_to_usd_with_details db d (PFloat f) (Some "IN"%string))
       = Ok l
    /\ currency r = Some (Legacy.currency l)
    /\ rate r = Some (Legacy.rate l)
    /\ extra_rate r = Some (Legacy.extra_rate l)
    /\ (nonzero (Legacy.rate l) = true -> Legacy.cost_usd l = PFloat (cost_usd r))
    /\ (nonzero (Legacy.rate l) = false ->
        Legacy.cost_usd l = PFloat f /\ cost_usd r = 0%float).
Proof.
  intros Hcurrency.
  destruct (legacy_conversion_of_rupees d f) as (pe & lu & Hpe & Hlu & Hlegacy).
  eexists _, _. split; [|split; [exact Hlegacy|]].
  - unfold currency_to_usd_with_details. cbn [is_none float_of].
    rewrite value_bind, Hpe, value_bind, Hcurrency.
    change (negb (truthy (Some "INR"%string))) with false. cbv iota.
    rewrite value_bind, Hlu. unfold rate_or_default.
    change (upper "INR" =? "INR")%string with true.
    instantiate (1 := let rt := match lu with Some rt => rt | None => 78.5%float end in
                      {| cost_usd := if nonzero rt
                                     then round2 (f * extra_rate_of pe / rt)%float
                                     else 0%float;
                         currency := Some "INR"%string; rate := Some rt;
                         extra_rate := Some (extra_rate_of pe) |}).
    destruct lu as [rt|]; cbv zeta; cbv iota;
      match goal with |- context [nonzero ?x] => destruct (nonzero x) end; reflexivity.
  - cbv zeta. cbn [currency rate extra_rate cost_usd Legacy.currency Legacy.rate
                   Legacy.extra_rate Legacy.cost_usd].
    do 3 (split; [reflexivity|]).
    split; intros ->; [reflexivity | split; reflexivity].
Qed.

End LegacyEngineFacts.

(** ** The caches of the engines *)

Section SilentFacts.

Context {K : Type} (extract : query -> option K).

Lemma omap_queries_bind {A B} (m : M A) (k : A -> M B) :
  omap extract (queries (bind m k))
  = omap extract (queries m)
    ++ match value m with
       | Ok a => omap extract (queries (k a))
       | Raise _ => []
       end.
Proof. rewrite queries_bind, omap_app. destruct (value m); reflexivity. Qed.

Lemma silent_bind {A B} (m : M A) (k : A -> M B) :
  silent extract m -> (forall a, silent extract (k a)) -> silent extract (bind m k).
Proof.
  unfold silent. intros Hm Hk. rewrite omap_queries_bind, Hm.
  destruct (value m); [apply Hk | reflexivity].
Qed.

Lemma silent_try_except {A} catches (m h : M A) :
  silent extract m -> silent extract h -> silent extract (try_except catches m h).
Proof.
  unfold silent, try_except, queries. destruct m as [[a|e] log]; [auto|].
  destruct (catches e); [|auto]. destruct h as [r log']. cbn [snd].
  intros Hm Hh. rewrite omap_app, Hm, Hh. reflexivity.
Qed.

Lemma silent_execute {A} q (answer : result (option A)) :
  extract q = None -> silent extract (execute q answer).
Proof. unfold silent, execute, queries. cbn. intros ->. reflexivity. Qed.

Lemma silent_getitem {V} (d : gmap string V) key : silent extract (getitem d key).
Proof. unfold getitem. destruct (d !! key); reflexivity. Qed.

Lemma omap_queries_bind_silent {A B} (m : M A) (k : A -> M B) :
  (forall a, silent extract (k a)) ->
  omap extract (queries (bind m k)) = omap extract (queries m).
Proof.
  intros Hk. rewrite omap_queries_bind.
  destruct (value m); [rewrite Hk|]; apply app_nil_r.
Qed.

Lemma queries_bind_lift_Ok {A B} (a : A) (k : A -> M B) :
  queries (bind (lift (Ok a)) k) = queries (k a).
Proof. unfold bind, lift. destruct (k a). reflexivity. Qed.

Lemma queries_bind_getitem {V B} (d : gmap string V) key (k : V -> M B) :
  queries (bind (getitem d key) k)
  = match d !! key with
    | Some v => queries (k v)
    | None => []
    end.
Proof.
  unfold getitem. destruct (d !! key) as [v|]; [|reflexivity].
  apply (queries_bind_lift_Ok v k).
Qed.

Lemma silent_for_each {A S} (step : S -> A -> M S) l :
  (forall st a, silent extract (step st a)) -> forall st, silent extract (for_each step l st).
Proof.
  intros Hstep. induction l as [|a l IH]; intros st; [reflexivity|].
  apply silent_bind; auto.
Qed.

End SilentFacts.

Create HintDb silent.

#[local] Hint Resolve silent_getitem : silent.

Ltac silent_steps :=
  repeat first
    [ reflexivity
    | solve [auto with silent]
    | apply silent_bind; [|intro]
    | apply silent_try_except
    | apply silent_execute; solve [auto]
    | match goal with
      | |- silent _ (match ?x with _ => _ end) => destruct x
      | |- silent _ (let '(_, _) := ?x in _) => destruct x
      end ].

(** What picks no query of the configuration and no sum over a campaign
    finds nothing in the conversions and in the costs of campaigns. *)
Section SilentConversions.

Context {K : Type} (extract : query -> option K).

Hypothesis no_project : forall pn, extract (SelectProject pn) = None.
Hypothesis no_rate : forall d b s, extract (SelectRate d b s) = None.
Hypothesis no_currency : forall pn, extract (SelectCurrency pn) = None.
Hypothesis no_campaign : forall d c, extract (SumCostByCampaign d c) = None.
Hypothesis no_campaign_channel :
  forall d c ch, extract (SumCostByCampaignChannel d c ch) = None.

Variable db : Store.

Lemma silent_query_project_entity pn : silent extract (query_project_entity db pn).
Proof. unfold query_project_entity. silent_steps. Qed.

Lemma silent_query_rate_entity d b s : silent extract (query_rate_entity db d b s).
Proof. unfold query_rate_entity. silent_steps. Qed.

Lemma silent_get_currency_by_pn pn : silent extract (get_currency_by_pn db pn).
Proof. unfold get_currency_by_pn. silent_steps. Qed.

Lemma silent_query_campaign_cost d c : silent extract (query_campaign_cost db d c).
Proof. unfold query_campaign_cost. silent_steps. Qed.

Lemma silent_query_campaign_cost_by_channel d c ch :
  silent extract (query_campaign_cost_by_channel db d c ch).
Proof. unfold query_campaign_cost_by_channel. silent_steps. Qed.

Hint Resolve silent_query_project_entity silent_query_rate_entity
  silent_get_currency_by_pn silent_query_campaign_cost
  silent_query_campaign_cost_by_channel : silent.

Lemma silent_currency_to_usd_with_details d v pn :
  silent extract (currency_to_usd_with_details db d v pn).
Proof. unfold currency_to_usd_with_details. silent_steps. Qed.

Hint Resolve silent_currency_to_usd_with_details : silent.

Lemma silent_calculate_campaign_cost_with_details d c pn :
  silent extract (calculate_campaign_cost_with_details db d c pn).
Proof. unfold calculate_campaign_cost_with_details. silent_steps. Qed.

Lemma silent_calculate_campaign_cost_with_channel_details d c ch pn :
  silent extract (calculate_campaign_cost_with_channel_details db d c ch pn).
Proof. unfold calculate_campaign_cost_with_channel_details. silent_steps. Qed.

Lemma silent_day_recharge_of cell : silent extract (day_recharge_of cell).
Proof. unfold day_recharge_of. silent_steps. Qed.

Lemma silent_recharge_conversion_of d x pn :
  silent extract (recharge_conversion_of db d x pn).
Proof. unfold recharge_conversion_of. silent_steps. Qed.

End SilentConversions.

(** A loop whose body runs at most one query of a kind, for a key that its
    state does not hold yet and holds afterwards, runs no such query twice. *)
Section CachedLoop.

Context {K A S : Type} (extract : query -> option K).
Context (step : S -> A -> M S) (cached : S -> K -> Prop).

Hypothesis step_asks_once : forall st a,
  omap extract (queries (step st a)) = []
  \/ exists k, omap extract (queries (step st a)) = [k] /\ ~ cached st k.

Hypothesis step_keeps : forall st a st',
  value (step st a) = Ok st' ->
  (forall k, cached st k -> cached st' k)
  /\ (forall k, k ∈ omap extract (queries (step st a)) -> cached st' k).

Lemma cached_loop l : forall st,
  NoDup (omap extract (queries (for_each step l st)))
  /\ (forall k, k ∈ omap extract (queries (for_each step l st)) -> ~ cached st k)
  /\ (forall st', value (for_each step l st) = Ok st' ->
        (forall k, cached st k -> cached st' k)
        /\ (forall k, k ∈ omap extract (queries (for_each step l st)) -> cached st' k)).
Proof.
  induction l as [|a l IH]; intros st.
  - split; [constructor|]. split; [intros k Hk; inversion Hk|].
    intros st' [= <-]. split; [auto | intros k Hk; inversion Hk].
  - cbn [for_each]. rewrite omap_queries_bind, value_bind.
    pose proof (step_asks_once st a) as Hasks.
    destruct (value (step st a)) as [st1|e] eqn:Hstep.
    + destruct (step_keeps st a st1 Hstep) as [Hkeeps Hnew].
      destruct (IH st1) as (Hnodup & Hfresh & Hfinal).
      assert (Hhere : forall k, k ∈ omap extract (queries (step st a)) -> ~ cached st k).
      { intros k Hk. destruct Hasks as [Hnone | (k' & Hone & Hk')].
        - rewrite Hnone in Hk. inversion Hk.
        - rewrite Hone in Hk. apply list_elem_of_singleton in Hk as ->. exact Hk'. }
      split; [|split].
      * apply NoDup_app. split; [|split; [|exact Hnodup]].
        -- destruct Hasks as [-> | (k & -> & _)]; [constructor | apply NoDup_singleton].
        -- intros k Hk Hk'. apply (Hfresh k Hk'), Hnew, Hk.
      * intros k [Hk | Hk]%elem_of_app; [apply Hhere, Hk|].
        intros Hcached. apply (Hfresh k Hk), Hkeeps, Hcached.
      * intros st' Hloop. destruct (Hfinal st' Hloop) as [Hkeeps' Hnew']. split.
        -- intros k Hk. apply Hkeeps', Hkeeps, Hk.
        -- intros k [Hk | Hk]%elem_of_app; [apply Hkeeps', Hnew, Hk | apply Hnew', Hk].
    + rewrite app_nil_r. split; [|split; [|discriminate]].
      * destruct Hasks as [-> | (k & -> & _)]; [constructor | apply NoDup_singleton].
      * intros k Hk. destruct Hasks as [Hnone | (k' & Hone & Hk')].
        -- rewrite Hnone in Hk. inversion Hk.
        -- rewrite Hone in Hk. apply list_elem_of_singleton in Hk as ->. exact Hk'.
Qed.

End CachedLoop.

Section EngineCaches.

Variable db : Store.

(** *** The project of a channel *)

Lemma pn_lookups_cache_pn cache ch :
  omap pn_lookup (queries (cache_pn db cache ch))
  = match cache !! ch with
    | Some _ => []
    | None => [ch]
    end.
Proof.
  unfold cache_pn. destruct (cache !! ch); [reflexivity|].
  rewrite omap_queries_bind, queries_get_pn_by_channel.
  destruct (value _); reflexivity.
Qed.

Lemma cache_pn_keeps cache ch cache' :
  value (cache_pn db cache ch) = Ok cache' ->
  (forall k, is_Some (cache !! k) -> is_Some (cache' !! k)) /\ is_Some (cache' !! ch).
Proof.
  unfold cache_pn. destruct (cache !! ch) as [pn|] eqn:Hch.
  - intros [= <-]. split; [auto | rewrite Hch; eauto].
  - intros Hrun. apply bind_Ok in Hrun as (pn & _ & [= <-]). split.
    + intros k Hk. rewrite lookup_insert. case_decide; eauto.
    + rewrite lookup_insert_eq. eauto.
Qed.

Lemma silent_pn_query_channel_total_cost d ch :
  silent pn_lookup (query_channel_total_cost db d ch).
Proof. unfold query_channel_total_cost. silent_steps. Qed.

Lemma silent_pn_cache_channel_total_cost cache d ch pn :
  silent pn_lookup (cache_channel_total_cost db cache d ch pn).
Proof.
  unfold cache_channel_total_cost.
  pose proof (silent_pn_query_channel_total_cost d ch).
  pose proof (fun v p => silent_currency_to_usd_with_details pn_lookup
                (fun _ => eq_refl) (fun _ _ _ => eq_refl) (fun _ => eq_refl) db d v p).
  silent_steps.
Qed.

Lemma silent_pn_group_costs d c ch pn :
  silent pn_lookup (calculate_campaign_cost_with_channel_details db d c ch pn)
  /\ silent pn_lookup (calculate_campaign_cost_with_details db d c pn).
Proof.
  split.
  - apply silent_calculate_campaign_cost_with_channel_details; reflexivity.
  - apply silent_calculate_campaign_cost_with_details; reflexivity.
Qed.

Lemma pn_lookups_cdap_group_step st key l :
  omap pn_lookup (queries (cdap_group_step db st (key, l)))
  = match first_row l with
    | Ok base_row =>
        omap pn_lookup (queries (cache_pn db (channel_pn_cache st)
                                          (channel (cdap_head (this base_row)))))
    | Raise _ => []
    end.
Proof.
  unfold cdap_group_step. destruct l as [|base_row l]; [reflexivity|].
  rewrite omap_queries_bind. cbn [first_row lift queries value fst snd omap app].
  apply omap_queries_bind_silent. intros cache.
  pose proof (silent_pn_cache_channel_total_cost).
  pose proof (fun d c ch pn => proj1 (silent_pn_group_costs d c ch pn)).
  silent_steps.
Qed.

Lemma cdap_group_step_pn_cache st key l st' :
  value (cdap_group_step db st (key, l)) = Ok st' ->
  exists base_row,
    first_row l = Ok base_row
    /\ value (cache_pn db (channel_pn_cache st) (channel (cdap_head (this base_row))))
       = Ok (channel_pn_cache st').
Proof.
  unfold cdap_group_step. intros Hstep. invert_binds.
  apply value_ret in Hstep as <-. cbn [channel_pn_cache].
  match goal with H : value (lift (first_row l)) = Ok ?b |- _ =>
    apply lift_Ok in H; exists b end.
  split; assumption.
Qed.

Lemma pn_lookups_cdap_row_step gm st acc row :
  omap pn_lookup (queries (cdap_row_step db gm (st, acc) row)) = []
  \/ omap pn_lookup (queries (cdap_row_step db gm (st, acc) row))
     = omap pn_lookup (queries (cache_pn db (channel_pn_cache st)
                                        (channel (cdap_head (this row))))).
Proof.
  unfold cdap_row_step.
  destruct (group_rows_of (group_key (cdap_head (this row))) gm) as [l|e]; [|left; reflexivity].
  rewrite queries_bind_lift_Ok.
  destruct l as [|base_row l]; [left; reflexivity|].
  cbn [first_row]. rewrite queries_bind_lift_Ok, queries_bind_getitem.
  destruct (group_costs st !! group_key (cdap_head (this row))) as [cost|]; [|left; reflexivity].
  right. apply omap_queries_bind_silent. intros cache.
  pose proof (silent_day_recharge_of pn_lookup).
  pose proof (fun d x pn => silent_recharge_conversion_of pn_lookup
                (fun _ => eq_refl) (fun _ _ _ => eq_refl) (fun _ => eq_refl) db d x pn).
  silent_steps.
Qed.

Lemma cdap_row_step_pn_cache gm st acc row st' acc' :
  value (cdap_row_step db gm (st, acc) row) = Ok (st', acc') ->
  value (cache_pn db (channel_pn_cache st) (channel (cdap_head (this row))))
  = Ok (channel_pn_cache st').
Proof.
  unfold cdap_row_step. intros Hstep. invert_binds.
  apply value_ret in Hstep. injection Hstep as <- <-. cbn [channel_pn_cache].
  assumption.
Qed.

(** *** The total cost of a channel *)

Lemma total_lookups_query_channel_total_cost d ch :
  omap channel_total_lookup (queries (query_channel_total_cost db d ch)) = []
  \/ omap channel_total_lookup (queries (query_channel_total_cost db d ch)) = [ch].
Proof.
  unfold query_channel_total_cost. destruct (_ || _); [left; reflexivity|right].
  rewrite queries_catch_all, queries_bind. cbn [execute queries value snd fst].
  destruct (sum_cost_by_channel db d ch) as [[cell|]|e]; reflexivity.
Qed.

Lemma silent_total_get_pn_by_channel ch :
  silent channel_total_lookup (get_pn_by_channel db ch).
Proof. unfold get_pn_by_channel. silent_steps. Qed.

Lemma silent_total_cache_pn cache ch : silent channel_total_lookup (cache_pn db cache ch).
Proof.
  unfold cache_pn. pose proof silent_total_get_pn_by_channel. silent_steps.
Qed.

Lemma silent_total_conversion d v pn :
  silent channel_total_lookup (currency_to_usd_with_details db d v pn).
Proof. apply silent_currency_to_usd_with_details; reflexivity. Qed.

Lemma silent_total_group_costs d c ch pn :
  silent channel_total_lookup (calculate_campaign_cost_with_channel_details db d c ch pn)
  /\ silent channel_total_lookup (calculate_campaign_cost_with_details db d c pn).
Proof.
  split.
  - apply silent_calculate_campaign_cost_with_channel_details; reflexivity.
  - apply silent_calculate_campaign_cost_with_details; reflexivity.
Qed.

Lemma total_lookups_cache_channel_total_cost cache d ch pn :
  omap channel_total_lookup (queries (cache_channel_total_cost db cache d ch pn)) = []
  \/ (omap channel_total_lookup (queries (cache_channel_total_cost db cache d ch pn))
      = [ch]
      /\ cache !! ch = None).
Proof.
  unfold cache_channel_total_cost. destruct (cache !! ch) as [known|]; [left; reflexivity|].
  rewrite omap_queries_bind_silent.
  - destruct (total_lookups_query_channel_total_cost d ch) as [-> | ->]; auto.
  - intros total. pose proof silent_total_conversion. silent_steps.
Qed.

Lemma cache_channel_total_cost_keeps cache d ch pn cache' :
  value (cache_channel_total_cost db cache d ch pn) = Ok cache' ->
  (forall k, is_Some (cache !! k) -> is_Some (cache' !! k)) /\ is_Some (cache' !! ch).
Proof.
  intros Hrun.
  destruct (cache_channel_total_cost_returns db cache d ch pn) as (c & Hc & Hnew & Hkeeps).
  rewrite Hrun in Hc. injection Hc as <-. auto.
Qed.

Lemma total_lookups_cdap_group_step st key l log :
  omap channel_total_lookup (queries (cdap_group_step db st (key, l))) = log ->
  log = []
  \/ exists base_row,
       first_row l = Ok base_row
       /\ log = [channel (cdap_head (this base_row))]
       /\ channel_total_cost_cache st !! channel (cdap_head (this base_row)) = None.
Proof.
  unfold cdap_group_step. destruct l as [|base_row l]; [intros <-; left; reflexivity|].
  cbn [first_row]. rewrite queries_bind_lift_Ok, omap_queries_bind.
  rewrite (silent_total_cache_pn _ _). cbn [app].
  destruct (value (cache_pn _ _ _)) as [pns|e]; [|intros <-; left; reflexivity].
  rewrite queries_bind_getitem.
  destruct (pns !! channel (cdap_head (this base_row))) as [pn|]; [|intros <-; left; reflexivity].
  rewrite omap_queries_bind_silent.
  - destruct (total_lookups_cache_channel_total_cost (channel_total_cost_cache st)
                (dates (cdap_head (this base_row))) (channel (cdap_head (this base_row))) pn)
      as [-> | [-> Hnone]]; intros <-; [left; reflexivity|].
    right. exists base_row. auto.
  - intros totals.
    pose proof (fun d c ch pn => proj1 (silent_total_group_costs d c ch pn)).
    silent_steps.
Qed.

Lemma cdap_group_step_total_cache st key l st' :
  value (cdap_group_step db st (key, l)) = Ok st' ->
  exists base_row pn,
    first_row l = Ok base_row
    /\ value (cache_channel_total_cost db (channel_total_cost_cache st)
                (dates (cdap_head (this base_row))) (channel (cdap_head (this base_row))) pn)
       = Ok (channel_total_cost_cache st').
Proof.
  unfold cdap_group_step. intros Hstep. invert_binds.
  apply value_ret in Hstep as <-. cbn [channel_total_cost_cache].
  match goal with H : value (lift (first_row l)) = Ok ?b |- _ =>
    apply lift_Ok in H; exists b end.
  eexists. split; eassumption.
Qed.

Lemma total_lookups_ads_group_step st key l log :
  omap channel_total_lookup (queries (ads_group_step db st (key, l))) = log ->
  log = []
  \/ exists base_row,
       first_row l = Ok base_row
       /\ log = [channel (ads_head (this base_row))]
       /\ ads_channel_total_cost_cache st !! channel (ads_head (this base_row)) = None.
Proof.
  unfold ads_group_step. destruct l as [|base_row l]; [intros <-; left; reflexivity|].
  cbn [first_row]. rewrite queries_bind_lift_Ok, omap_queries_bind_silent.
  - destruct (total_lookups_cache_channel_total_cost (ads_channel_total_cost_cache st)
                (dates (ads_head (this base_row))) (channel (ads_head (this base_row)))
                (ads_pn (this base_row)))
      as [-> | [-> Hnone]]; intros <-; [left; reflexivity|].
    right. exists base_row. auto.
  - intros totals.
    pose proof (fun d c ch pn => proj1 (silent_total_group_costs d c ch pn)).
    pose proof (fun d c pn => proj2 (silent_total_group_costs d c "" pn)).
    silent_steps.
Qed.

Lemma ads_group_step_total_cache st key l st' :
  value (ads_group_step db st (key, l)) = Ok st' ->
  exists base_row,
    first_row l = Ok base_row
    /\ value (cache_channel_total_cost db (ads_channel_total_cost_cache st)
                (dates (ads_head (this base_row))) (channel (ads_head (this base_row)))
                (ads_pn (this base_row)))
       = Ok (ads_channel_total_cost_cache st').
Proof.
  unfold ads_group_step. intros Hstep. invert_binds.
  apply value_ret in Hstep as <-. cbn [ads_channel_total_cost_cache].
  match goal with H : value (lift (first_row l)) = Ok ?b |- _ =>
    apply lift_Ok in H; exists b end.
  split; assumption.
Qed.

(** The loops over the rows sum no channel, and the ADS engine looks no
    project up. *)
Lemma silent_total_cdap_row_step gm acc row :
  silent channel_total_lookup (cdap_row_step db gm acc row).
Proof.
  unfold cdap_row_step.
  pose proof silent_total_cache_pn.
  pose proof (silent_day_recharge_of channel_total_lookup).
  pose proof (fun d x pn => silent_recharge_conversion_of channel_total_lookup
                (fun _ => eq_refl) (fun _ _ _ => eq_refl) (fun _ => eq_refl) db d x pn).
  silent_steps.
Qed.

Lemma silent_ads_row_step {K} (extract : query -> option K) gm st acc row :
  (forall pn, extract (SelectProject pn) = None) ->
  (forall d b s, extract (SelectRate d b s) = None) ->
  (forall pn, extract (SelectCurrency pn) = None) ->
  silent extract (ads_row_step db gm st acc row).
Proof.
  intros Hproject Hrate Hcurrency. unfold ads_row_step.
  pose proof (silent_day_recharge_of extract).
  pose proof (fun d x pn => silent_recharge_conversion_of extract
                Hproject Hrate Hcurrency db d x pn).
  silent_steps.
Qed.

Lemma silent_pn_ads_group_step st item : silent pn_lookup (ads_group_step db st item).
Proof.
  unfold ads_group_step.
  pose proof silent_pn_cache_channel_total_cost.
  pose proof (fun d c ch pn => proj1 (silent_pn_group_costs d c ch pn)).
  pose proof (fun d c pn => proj2 (silent_pn_group_costs d c "" pn)).
  silent_steps.
Qed.

(** *** Whole runs *)

Lemma cdap_groups_loop_pn gm st :
  NoDup (omap pn_lookup (queries (for_each (cdap_group_step db) gm st)))
  /\ forall st', value (for_each (cdap_group_step db) gm st) = Ok st' ->
       forall k, k ∈ omap pn_lookup (queries (for_each (cdap_group_step db) gm st)) ->
                 is_Some (channel_pn_cache st' !! k).
Proof.
  destruct (cached_loop pn_lookup (cdap_group_step db)
              (fun st k => is_Some (channel_pn_cache st !! k))) with (l := gm) (st := st)
    as (Hnodup & _ & Hfinal).
  - intros s [key l]. rewrite pn_lookups_cdap_group_step.
    destruct (first_row l) as [b|e]; [|left; reflexivity].
    rewrite pn_lookups_cache_pn.
    destruct (channel_pn_cache s !! channel (cdap_head (this b))) as [pn|] eqn:Hch;
      [left; reflexivity|].
    right. exists (channel (cdap_head (this b))). split; [reflexivity|].
    rewrite Hch. intros [pn Hpn]. discriminate.
  - intros s [key l] s' Hstep.
    destruct (cdap_group_step_pn_cache s key l s' Hstep) as (b & Hb & Hcache).
    destruct (cache_pn_keeps _ _ _ Hcache) as [Hkeeps Hnew]. split; [exact Hkeeps|].
    intros k. rewrite pn_lookups_cdap_group_step, Hb, pn_lookups_cache_pn.
    destruct (channel_pn_cache s !! channel (cdap_head (this b))); [intros Hk; inversion Hk|].
    intros ->%list_elem_of_singleton. exact Hnew.
  - split; [exact Hnodup|]. intros st' Hloop. apply (Hfinal st' Hloop).
Qed.

Lemma cdap_rows_loop_pn gm rows st acc :
  NoDup (omap pn_lookup (queries (for_each (cdap_row_step db gm) rows (st, acc))))
  /\ forall k, k ∈ omap pn_lookup (queries (for_each (cdap_row_step db gm) rows (st, acc))) ->
                ~ is_Some (channel_pn_cache st !! k).
Proof.
  destruct (cached_loop pn_lookup (cdap_row_step db gm)
              (fun s k => is_Some (channel_pn_cache (fst s) !! k)))
    with (l := rows) (st := (st, acc)) as (Hnodup & Hfresh & _).
  - intros [s a] row. cbn [fst].
    destruct (pn_lookups_cdap_row_step gm s a row) as [-> | ->]; [left; reflexivity|].
    rewrite pn_lookups_cache_pn.
    destruct (channel_pn_cache s !! channel (cdap_head (this row))) as [pn|] eqn:Hch;
      [left; reflexivity|].
    right. exists (channel (cdap_head (this row))). split; [reflexivity|].
    rewrite Hch. intros [pn Hpn]. discriminate.
  - intros [s a] row [s' a'] Hstep. cbn [fst].
    pose proof (cdap_row_step_pn_cache gm s a row s' a' Hstep) as Hcache.
    destruct (cache_pn_keeps _ _ _ Hcache) as [Hkeeps Hnew]. split; [exact Hkeeps|].
    intros k. destruct (pn_lookups_cdap_row_step gm s a row) as [-> | ->];
      [intros Hk; inversion Hk|].
    rewrite pn_lookups_cache_pn.
    destruct (channel_pn_cache s !! channel (cdap_head (this row))); [intros Hk; inversion Hk|].
    intros ->%list_elem_of_singleton. exact Hnew.
  - split; [exact Hnodup | exact Hfresh].
Qed.

Lemma cdap_groups_loop_total gm st :
  NoDup (omap channel_total_lookup (queries (for_each (cdap_group_step db) gm st))).
Proof.
  destruct (cached_loop channel_total_lookup (cdap_group_step db)
              (fun st k => is_Some (channel_total_cost_cache st !! k)))
    with (l := gm) (st := st) as (Hnodup & _); [| |exact Hnodup].
  - intros s [key l].
    destruct (total_lookups_cdap_group_step s key l _ eq_refl)
      as [Hnone | (b & _ & Hone & Hch)]; [left; exact Hnone|].
    right. exists (channel (cdap_head (this b))). split; [exact Hone|].
    rewrite Hch. intros [x Hx]. discriminate.
  - intros s [key l] s' Hstep.
    destruct (cdap_group_step_total_cache s key l s' Hstep) as (b & pn & Hb & Hcache).
    destruct (cache_channel_total_cost_keeps _ _ _ _ _ Hcache) as [Hkeeps Hnew].
    split; [exact Hkeeps|]. intros k Hk.
    destruct (total_lookups_cdap_group_step s key l _ eq_refl)
      as [Hnone | (b' & Hb' & Hone & _)].
    + rewrite Hnone in Hk. inversion Hk.
    + rewrite Hone in Hk. apply list_elem_of_singleton in Hk as ->.
      rewrite Hb in Hb'. injection Hb' as <-. exact Hnew.
Qed.

Lemma ads_groups_loop_total gm st :
  NoDup (omap channel_total_lookup (queries (for_each (ads_group_step db) gm st))).
Proof.
  destruct (cached_loop channel_total_lookup (ads_group_step db)
              (fun st k => is_Some (ads_channel_total_cost_cache st !! k)))
    with (l := gm) (st := st) as (Hnodup & _); [| |exact Hnodup].
  - intros s [key l].
    destruct (total_lookups_ads_group_step s key l _ eq_refl)
      as [Hnone | (b & _ & Hone & Hch)]; [left; exact Hnone|].
    right. exists (channel (ads_head (this b))). split; [exact Hone|].
    rewrite Hch. intros [x Hx]. discriminate.
  - intros s [key l] s' Hstep.
    destruct (ads_group_step_total_cache s key l s' Hstep) as (b & Hb & Hcache).
    destruct (cache_channel_total_cost_keeps _ _ _ _ _ Hcache) as [Hkeeps Hnew].
    split; [exact Hkeeps|]. intros k Hk.
    destruct (total_lookups_ads_group_step s key l _ eq_refl)
      as [Hnone | (b' & Hb' & Hone & _)].
    + rewrite Hnone in Hk. inversion Hk.
    + rewrite Hone in Hk. apply list_elem_of_singleton in Hk as ->.
      rewrite Hb in Hb'. injection Hb' as <-. exact Hnew.
Qed.

(** X22.  The caches of the engines do what they are there for: in one run
    of the CDAP engine the project of a channel is looked up at most once
    and the cost of a whole channel is summed at most once; in one run of
    the ADS engine the cost of a whole channel is summed at most once, and
    the project of a channel is never looked up. *)
Theorem caches_avoid_repeated_queries :
  (forall rows,
     NoDup (omap pn_lookup (queries (process_cdap_data_with_cost db rows))))
  /\ (forall rows,
       NoDup (omap channel_total_lookup (queries (process_cdap_data_with_cost db rows))))
  /\ (forall rows,
       NoDup (omap channel_total_lookup (queries (process_ads_data_with_cost db rows))))
  /\ (forall rows,
       omap pn_lookup (queries (process_ads_data_with_cost db rows)) = []).
Proof.
  split; [|split; [|split]]; intros rows.
  - destruct (decide (rows = [])) as [->|Hne]; [constructor|].
    rewrite (process_cdap_nonempty db rows Hne). cbv zeta.
    set (gm := build_group_map (fun r => cdap_head (this r)) (objects rows)).
    set (st0 := {| group_costs := ∅; channel_pn_cache := ∅;
                   channel_total_cost_cache := ∅ |}).
    rewrite omap_queries_bind.
    destruct (cdap_groups_loop_pn gm st0) as [Hgroups Hcached].
    destruct (value (for_each (cdap_group_step db) gm st0)) as [st|e] eqn:Hloop;
      [|rewrite app_nil_r; exact Hgroups].
    rewrite omap_queries_bind_silent by (intros final; reflexivity).
    destruct (cdap_rows_loop_pn gm (objects rows) st []) as [Hrows Hfresh].
    apply NoDup_app. split; [exact Hgroups|]. split; [|exact Hrows].
    intros k Hk Hk'. apply (Hfresh k Hk'), (Hcached st eq_refl k Hk).
  - destruct (decide (rows = [])) as [->|Hne]; [constructor|].
    rewrite (process_cdap_nonempty db rows Hne). cbv zeta.
    rewrite omap_queries_bind.
    destruct (value (for_each (cdap_group_step db) _ _)) as [st|e];
      [|rewrite app_nil_r; apply cdap_groups_loop_total].
    rewrite omap_queries_bind_silent by (intros final; reflexivity).
    rewrite (silent_for_each channel_total_lookup _ (objects rows)
               (fun acc row => silent_total_cdap_row_step _ acc row)).
    rewrite app_nil_r. apply cdap_groups_loop_total.
  - destruct (decide (rows = [])) as [->|Hne]; [constructor|].
    rewrite (process_ads_nonempty db rows Hne). cbv zeta.
    rewrite omap_queries_bind.
    destruct (value (for_each (ads_group_step db) _ _)) as [st|e];
      [|rewrite app_nil_r; apply ads_groups_loop_total].
    rewrite (silent_for_each channel_total_lookup _ (objects rows)
               (fun acc row => silent_ads_row_step channel_total_lookup _ st acc row
                                 (fun _ => eq_refl) (fun _ _ _ => eq_refl)
                                 (fun _ => eq_refl))).
    rewrite app_nil_r. apply ads_groups_loop_total.
  - destruct (decide (rows = [])) as [->|Hne]; [reflexivity|].
    rewrite (process_ads_nonempty db rows Hne). cbv zeta.
    apply silent_bind.
    + apply silent_for_each. intros st item. apply silent_pn_ads_group_step.
    + intros st. apply silent_for_each. intros acc row.
      apply silent_ads_row_step; reflexivity.
Qed.

End EngineCaches.

(** ** When the first row alone carries the cost *)

Section FirstRowAlone.

Variable db : Store.

Local Open Scope nat_scope.

(** X23.  Where no two rows of the input are equal cell by cell, each
    engine shows the cost of a group on the first row of the group and on no
    other: a row that comes after a row of its key shows 0.0 in its cost
    columns, and a row that comes first shows the cost of the campaign of
    that very row. *)
Theorem first_row_alone_carries_cost :
  (forall rows out,
     value (process_cdap_data_with_cost db rows) = Ok out ->
     (forall i j ri rj, rows !! i = Some ri -> rows !! j = Some rj ->
                        cdap_row_eqb ri rj = true -> i = j) ->
     forall i row o, rows !! i = Some row -> out !! i = Some o ->
       ((exists j earlier, j < i /\ rows !! j = Some earlier
                           /\ group_key (cdap_head earlier) = group_key (cdap_head row)) ->
        col9 o = 0%float /\ col10 o = 0%float)
       /\ ((forall j earlier, j < i -> rows !! j = Some earlier ->
                              group_key (cdap_head earlier) <> group_key (cdap_head row)) ->
           exists cost, cdap_group_cost db row cost
                        /\ col9 o = ci_cost_usd cost /\ col10 o = original_cost cost))
  /\ (forall rows out,
       value (process_ads_data_with_cost db rows) = Ok out ->
       (forall i j ri rj, rows !! i = Some ri -> rows !! j = Some rj ->
                          ads_row_eqb ri rj = true -> i = j) ->
       forall i row o, rows !! i = Some row -> out !! i = Some o ->
         ((exists j earlier, j < i /\ rows !! j = Some earlier
                             /\ group_key (ads_head earlier) = group_key (ads_head row)) ->
          col7 o = 0%float /\ col8 o = 0%float /\ col9 o = 0%float /\ col10 o = 0%float)
         /\ ((forall j earlier, j < i -> rows !! j = Some earlier ->
                                group_key (ads_head earlier) <> group_key (ads_head row)) ->
             exists without_channel with_channel,
               ads_group_cost_without_channel db row without_channel
               /\ ads_group_cost_with_channel db row with_channel
               /\ col7 o = ci_cost_usd without_channel
               /\ col8 o = original_cost without_channel
               /\ col9 o = ci_cost_usd with_channel
               /\ col10 o = original_cost with_channel)).
Proof.
  split; intros rows out Hrun Hdistinct i row o Hrow Ho.
  - pose proof (process_cdap_processed db rows out Hrun) as Hall.
    assert (Hobj : objects rows !! i = Some {| place := i; this := row |})
      by (apply lookup_objects_Some; auto).
    destruct (Forall2_lookup_lr _ _ _ _ _ _ Hall Hobj Ho)
      as (_ & (base & cost & Hbase & Hcost & H9 & H10) & _).
    apply first_of_key_Some in Hbase as (Hj0 & Hkey & Hbefore).
    destruct base as [j0 base_row]. cbn [place this] in *.
    rewrite same_row_at in H9, H10. split.
    + intros (j & earlier & Hlt & Hj & Hsame).
      assert (Hne : (i =? j0) || cdap_row_eqb row base_row = false).
      { destruct (Nat.eqb_spec i j0) as [->|Hij].
        - exfalso. exact (Hbefore j earlier Hlt Hj Hsame).
        - destruct (cdap_row_eqb row base_row) eqn:Heq; [|reflexivity].
          exfalso. apply Hij. exact (Hdistinct _ _ _ _ Hrow Hj0 Heq). }
      rewrite H9, H10, Hne. split; reflexivity.
    + intros Hfirst.
      assert (j0 = i) as ->.
      { destruct (Nat.lt_trichotomy j0 i) as [Hlt | [Heq | Hgt]]; [|assumption|].
        - exfalso. exact (Hfirst j0 base_row Hlt Hj0 Hkey).
        - exfalso. exact (Hbefore i row Hgt Hrow eq_refl). }
      rewrite Hrow in Hj0. injection Hj0 as <-.
      exists cost. rewrite H9, H10, Nat.eqb_refl. auto.
  - pose proof (process_ads_processed db rows out Hrun) as Hall.
    assert (Hobj : objects rows !! i = Some {| place := i; this := row |})
      by (apply lookup_objects_Some; auto).
    destruct (Forall2_lookup_lr _ _ _ _ _ _ Hall Hobj Ho)
      as (_ & (base & c1 & c2 & Hbase & Hc1 & Hc2 & H7 & H8 & H9 & H10) & _).
    apply first_of_key_Some in Hbase as (Hj0 & Hkey & Hbefore).
    destruct base as [j0 base_row]. cbn [place this] in *.
    rewrite same_row_at in H7, H8, H9, H10. split.
    + intros (j & earlier & Hlt & Hj & Hsame).
      assert (Hne : (i =? j0) || ads_row_eqb row base_row = false).
      { destruct (Nat.eqb_spec i j0) as [->|Hij].
        - exfalso. exact (Hbefore j earlier Hlt Hj Hsame).
        - destruct (ads_row_eqb row base_row) eqn:Heq; [|reflexivity].
          exfalso. apply Hij. exact (Hdistinct _ _ _ _ Hrow Hj0 Heq). }
      rewrite H7, H8, H9, H10, Hne. repeat split.
    + intros Hfirst.
      assert (j0 = i) as ->.
      { destruct (Nat.lt_trichotomy j0 i) as [Hlt | [Heq | Hgt]]; [|assumption|].
        - exfalso. exact (Hfirst j0 base_row Hlt Hj0 Hkey).
        - exfalso. exact (Hbefore i row Hgt Hrow eq_refl). }
      rewrite Hrow in Hj0. injection Hj0 as <-.
      exists c1, c2. rewrite H7, H8, H9, H10, Nat.eqb_refl. auto 10.
Qed.

(** X24.  In both engines the converted recharge of a row (column 11) is
    not zero only when the recharge of the row (column 12) is positive, and
    is then [round(recharge * extra_rate / rate, 2)] for the extra rate and
    the rate, not zero, that the conversion of that recharge on the date of
    the row returns. *)
Theorem converted_recharge_is_of_a_positive_amount :
  (forall rows out o,
     value (process_cdap_data_with_cost db rows) = Ok out -> o ∈ out ->
     nonzero (col11 o) = true ->
     PrimFloat.ltb 0 (col12 o) = true
     /\ exists pn conv extra rt,
          value (currency_to_usd_with_details db (dates (out_head o))
                   (PFloat (col12 o)) pn) = Ok conv
          /\ extra_rate conv = Some extra /\ rate conv = Some rt
          /\ nonzero rt = true
          /\ col11 o = round2 (col12 o * extra / rt)%float)
  /\ (forall rows out o,
       value (process_ads_data_with_cost db rows) = Ok out -> o ∈ out ->
       nonzero (col11 o) = true ->
       PrimFloat.ltb 0 (col12 o) = true
       /\ exists pn conv extra rt,
            value (currency_to_usd_with_details db (dates (out_head o))
                     (PFloat (col12 o)) pn) = Ok conv
            /\ extra_rate conv = Some extra /\ rate conv = Some rt
            /\ nonzero rt = true
            /\ col11 o = round2 (col12 o * extra / rt)%float).
Proof.
  assert (Hconv : forall d x pn conv,
    value (recharge_conversion_of db d x pn) = Ok conv ->
    nonzero (cost_usd conv) = true ->
    PrimFloat.ltb 0 x = true
    /\ exists extra rt,
         value (currency_to_usd_with_details db d (PFloat x) pn) = Ok conv
         /\ extra_rate conv = Some extra /\ rate conv = Some rt
         /\ nonzero rt = true /\ cost_usd conv = round2 (x * extra / rt)%float).
  { intros d x pn conv. unfold recharge_conversion_of.
    destruct (PrimFloat.ltb 0 x) eqn:Hpos; cbn [andb].
    - destruct (truthy pn) eqn:Hpn.
      + intros Hc Hnz. split; [reflexivity|].
        destruct (conversion_of_float_nonzero db d x pn conv Hc Hnz)
          as (cur & rt & extra & _ & Hrate & Hextra & Hrt & Hcost).
        exists extra, rt. auto.
      + intros Hc Hnz. exfalso. revert Hc Hnz.
        destruct pn as [p|]; intros [= <-]; discriminate.
    - destruct pn as [p|]; [|intros [= <-]; discriminate].
      destruct (truthy (Some p)); [|intros [= <-]; discriminate].
      intros Hc. apply bind_Ok in Hc as (c & _ & Hc).
      apply bind_Ok in Hc as (pe & _ & Hc). apply bind_Ok in Hc as (r & _ & [= <-]).
      discriminate. }
  split; intros rows out o Hrun [i Ho]%list_elem_of_lookup Hnz.
  - pose proof (process_cdap_processed db rows out Hrun) as Hall.
    destruct (Forall2_lookup_r _ _ _ _ _ Hall Ho)
      as (row & _ & Hhead & _ & pn & x & conv & _ & _ & Hc & H11 & H12).
    rewrite H11 in *. rewrite H12, Hhead.
    destruct (Hconv _ _ _ _ Hc Hnz) as (Hpos & extra & rt & H).
    split; [exact Hpos|]. exists pn, conv, extra, rt. exact H.
  - pose proof (process_ads_processed db rows out Hrun) as Hall.
    destruct (Forall2_lookup_r _ _ _ _ _ Hall Ho)
      as (row & _ & Hhead & _ & x & conv & _ & Hc & H11 & H12).
    rewrite H11 in *. rewrite H12, Hhead.
    destruct (Hconv _ _ _ _ Hc Hnz) as (Hpos & extra & rt & H).
    split; [exact Hpos|]. exists (ads_pn (this row)), conv, extra, rt. exact H.
Qed.

End FirstRowAlone.

(** ** The properties above at sample data *)

Lemma cdap_cost_columns_witness :
  value (process_cdap_data_with_cost rupee_store nan_cdap_rows) = Ok nan_cdap_processed
  /\ forall o, nan_cdap_processed !! 1%nat = Some o ->
       col9 o = 0%float /\ col10 o = 0%float.
Proof.
  split; [vm_compute; reflexivity|]. intros o Ho.
  assert (Hrun : value (process_cdap_data_with_cost rupee_store nan_cdap_rows)
                 = Ok nan_cdap_processed) by (vm_compute; reflexivity).
  destruct (proj2 (cdap_cost_columns rupee_store nan_cdap_rows nan_cdap_processed Hrun)
              1%nat (sample_cdap_row (PFloat nan)) o eq_refl Ho)
    as (j & base_row & cost & Hj & _ & Hbefore & _ & _ & Hzero).
  destruct j as [|j].
  - injection Hj as <-. apply Hzero; [discriminate | vm_compute; reflexivity].
  - exfalso. exact (Hbefore 0%nat _ (Nat.lt_0_succ j) eq_refl eq_refl).
Defined.

Lemma ads_cost_columns_witness :
  value (process_ads_data_with_cost rupee_store nan_ads_rows) = Ok nan_ads_processed
  /\ forall o, nan_ads_processed !! 1%nat = Some o ->
       col7 o = 0%float /\ col8 o = 0%float /\ col9 o = 0%float /\ col10 o = 0%float.
Proof.
  split; [vm_compute; reflexivity|]. intros o Ho.
  assert (Hrun : value (process_ads_data_with_cost rupee_store nan_ads_rows)
                 = Ok nan_ads_processed) by (vm_compute; reflexivity).
  destruct (proj2 (ads_cost_columns rupee_store nan_ads_rows nan_ads_processed Hrun)
              1%nat (sample_ads_row (PFloat nan)) o eq_refl Ho)
    as (j & base_row & c1 & c2 & Hj & _ & Hbefore & _ & _ & _ & Hzero).
  destruct j as [|j].
  - injection Hj as <-. apply Hzero; [discriminate | vm_compute; reflexivity].
  - exfalso. exact (Hbefore 0%nat _ (Nat.lt_0_succ j) eq_refl eq_refl).
Defined.

Lemma channel_total_columns_witness :
  Forall2 (fun row o =>
    exists base_row pn total,
      base_row ∈ [sample_cdap_row (PFloat 100.25); sample_cdap_row PNone]
      /\ channel (cdap_head base_row) = channel (cdap_head row)
      /\ value (get_pn_by_channel rupee_store (channel (cdap_head row))) = Ok pn
      /\ value (query_channel_total_cost rupee_store (dates (cdap_head base_row))
                  (channel (cdap_head row))) = Ok total
      /\ (if PrimFloat.ltb 0 total && truthy pn then
            exists conv,
              value (currency_to_usd_with_details rupee_store (dates (cdap_head base_row))
                       (PFloat total) pn) = Ok conv
              /\ col7 o = cost_usd conv /\ col8 o = total
          else col7 o = 0%float /\ col8 o = 0%float))
    [sample_cdap_row (PFloat 100.25); sample_cdap_row PNone] sample_processed_rows.
Proof.
  apply (channel_total_columns rupee_store). vm_compute. reflexivity.
Defined.

Lemma rows_of_a_channel_show_one_total_witness :
  (forall o1 o2, o1 ∈ sample_processed_rows -> o2 ∈ sample_processed_rows ->
     channel (out_head o1) = channel (out_head o2) ->
     col7 o1 = col7 o2 /\ col8 o1 = col8 o2)
  /\ (forall o, o ∈ sample_processed_rows ->
       nonzero (col7 o) = true -> PrimFloat.ltb 0 (col8 o) = true).
Proof.
  apply (rows_of_a_channel_show_one_total rupee_store
           [sample_cdap_row (PFloat 100.25); sample_cdap_row PNone]).
  vm_compute. reflexivity.
Defined.

Lemma keep_first_keeps_first_rows_witness :
  (forall row,
     row ∈ keep_first sample_raw_rows ∅
     <-> (exists i, id_of row = Some i
                   /\ List.head (filter (fun r => id_of r = Some i) sample_raw_rows)
                      = Some row))
  /\ (forall i, i ∈ omap id_of sample_raw_rows
                <-> i ∈ omap id_of (keep_first sample_raw_rows ∅)).
Proof.
  apply keep_first_keeps_first_rows.
  repeat constructor; simpl; lia.
Defined.

Lemma assignments_repeat_appended_values_witness :
  exists n row_cells,
    2%nat = S n
    /\ appended (fst (export_to_excel [sample_validation_result])) !! n = Some row_cells
    /\ (("H" = "H" /\ row_cells !! 7%nat = Some (XFloat 68.75))
        \/ ("H" = "I" /\ row_cells !! 8%nat = Some (XFloat 68.75)))%string.
Proof.
  apply (assignments_repeat_appended_values [sample_validation_result]).
  vm_compute. left.
Defined.

Lemma merged_cells_hide_no_amount_witness :
  exists sheets row_cells row_cells',
    value (run_validation rupee_store sample_tables "2025-11-10" ["fb_in"%string])
    = Ok sheets
    /\ {| range_column := "H"; range_first := 2; range_last := 3 |} ∈ merged (fst sheets)
    /\ appended (fst sheets) !! 1%nat = Some row_cells
    /\ appended (fst sheets) !! 2%nat = Some row_cells'
    /\ row_cells !! 7%nat = row_cells' !! 7%nat
    /\ row_cells !! 8%nat = row_cells' !! 8%nat.
Proof.
  do 3 eexists.
  split; [vm_compute; reflexivity|]. split; [vm_compute; left|].
  split; [vm_compute; reflexivity|]. split; [vm_compute; reflexivity|].
  eapply (merged_cells_hide_no_amount rupee_store sample_tables "2025-11-10"
            ["fb_in"%string] _
            {| range_column := "H"; range_first := 2; range_last := 3 |} 1%nat 2%nat).
  - intros ch rows [= <-]. repeat constructor.
  - vm_compute. reflexivity.
  - vm_compute. left.
  - cbn. lia.
  - cbn. lia.
  - vm_compute. reflexivity.
  - vm_compute. reflexivity.
Defined.

Lemma conversions_agree_on_rupees_witness :
  exists r l,
    value (currency_to_usd_with_details rupee_store "2025-11-10" (PFloat 1000)
             (Some "IN"%string)) = Ok r
    /\ value (Legacy.currency_to_usd_with_details rupee_store "2025-11-10" (PFloat 1000)
                (Some "IN"%string)) = Ok l
    /\ currency r = Some (Legacy.currency l)
    /\ rate r = Some (Legacy.rate l)
    /\ extra_rate r = Some (Legacy.extra_rate l)
    /\ (nonzero (Legacy.rate l) = true -> Legacy.cost_usd l = PFloat (cost_usd r))
    /\ (nonzero (Legacy.rate l) = false ->
        Legacy.cost_usd l = PFloat 1000 /\ cost_usd r = 0%float).
Proof.
  apply (conversions_agree_on_rupees rupee_store). reflexivity.
Defined.

(** The workbook of a run over two channels at the sample tables: rows 2
    and 3 are merged for the first channel, rows 4 and 5 for the second. *)
Lemma sample_run_merges_each_channel :
  exists sheets,
    value (run_validation rupee_store sample_tables "2025-11-10"
             ["fb_in"; "gg_in"]%string) = Ok sheets
    /\ merged (fst sheets)
       = [{| range_column := "H"; range_first := 2; range_last := 3 |};
          {| range_column := "I"; range_first := 2; range_last := 3 |};
          {| range_column := "H"; range_first := 4; range_last := 5 |};
          {| range_column := "I"; range_first := 4; range_last := 5 |}]
    /\ assigned (fst sheets)
       = [("H"%string, 2%nat, XFloat 68.75); ("I"%string, 2%nat, XFloat 5000);
          ("H"%string, 4%nat, XFloat 68.75); ("I"%string, 4%nat, XFloat 5000)]
    /\ length (appended (fst sheets)) = 5%nat
    /\ length (appended (snd sheets)) = 5%nat.
Proof.
  eexists. split; [vm_compute; reflexivity|]. repeat split; vm_compute; reflexivity.
Qed.

(** The detail queries at rows whose keys collide: the CDAP engine raises
    [KeyError], and the query returns no row at all. *)
Lemma colliding_keys_lose_every_row :
  value (query_cdap_base_detail_data rupee_store
           {| select_cdap_base := fun _ _ => Ok colliding_cdap_rows;
              select_ads_backend := fun _ _ => Ok [] |} "fb_in" "2025-11-10")
  = Ok [].
Proof. vm_compute. reflexivity. Qed.

Lemma first_row_alone_carries_cost_witness :
  value (process_cdap_data_with_cost rupee_store
           [sample_cdap_row (PFloat 100.25); sample_cdap_row PNone])
  = Ok sample_processed_rows
  /\ forall o, sample_processed_rows !! 1%nat = Some o ->
       col9 o = 0%float /\ col10 o = 0%float.
Proof.
  split; [vm_compute; reflexivity|].
  intros o Ho.
  refine (proj1 (proj1 (first_row_alone_carries_cost rupee_store)
                   [sample_cdap_row (PFloat 100.25); sample_cdap_row PNone]
                   sample_processed_rows _ _ 1%nat (sample_cdap_row PNone) o _ Ho) _).
  - vm_compute. reflexivity.
  - intros [|[|i]] [|[|j]] ri rj Hi Hj; try discriminate Hi; try discriminate Hj;
      injection Hi as <-; injection Hj as <-; intros Heq;
      try reflexivity; vm_compute in Heq; discriminate Heq.
  - reflexivity.
  - exists 0%nat, (sample_cdap_row (PFloat 100.25)).
    split; [lia|]. split; reflexivity.
Defined.
